(** * twse_exporter: the fetch / cache / transform pipeline of [main.go]

    A shallow embedding of [fetchStockInfo], [getCachedStockInfo] and the
    [/metrics] handler of [main.go], together with the properties the
    specification states about them.

    Go strings are byte strings: [string] (a list of 8-bit [ascii]) is used
    for them, and a non-ASCII literal of the source stands for its UTF-8
    bytes exactly as it does in Go. *)

From Stdlib Require Import ZArith Lia Ascii String.
From stdpp Require Import base option list strings gmap pretty.

Local Open Scope Z_scope.

(** ** [fmt.Sprintf] for the verbs the program uses

    Every format of [main.go] that reaches the pipeline uses [%s] on a
    string or [%v] on an error; an error prints as its message, so the
    operands are strings in both cases.  A missing operand, operands left
    over and a verb that does not apply to a string are rendered as [fmt]
    renders them; flags, widths and the other string verbs, none of which
    the program uses, are not modelled. *)
Module fmt.

Fixpoint extra_operands (args : list string) : string :=
  match args with
  | [] => ""
  | [a] => "string=" +:+ a
  | a :: rest => "string=" +:+ a +:+ ", " +:+ extra_operands rest
  end.

Definition EXTRA (args : list string) : string :=
  match args with
  | [] => ""
  | _ => "%!(EXTRA " +:+ extra_operands args +:+ ")"
  end.

Definition is_string_verb (v : ascii) : bool :=
  (Ascii.eqb v "s" || Ascii.eqb v "v")%bool.

Fixpoint Sprintf (format : string) (args : list string) : string :=
  match format with
  | EmptyString => EXTRA args
  | String "%" EmptyString => "%!(NOVERB)" +:+ EXTRA args
  | String "%" (String v rest) =>
      if Ascii.eqb v "%" then String "%" (Sprintf rest args)
      else
        match args with
        | [] => "%!" +:+ String v "(MISSING)" +:+ Sprintf rest []
        | a :: args' =>
            if is_string_verb v then a +:+ Sprintf rest args'
            else "%!" +:+ String v "(string=" +:+ a +:+ ")"
                      +:+ Sprintf rest args'
        end
  | String c rest => String c (Sprintf rest args)
  end.

End fmt.

(** ** [strings.Join] *)
Module strings.

Fixpoint Join (elems : list string) (sep : string) : string :=
  match elems with
  | [] => ""
  | [e] => e
  | e :: rest => e +:+ sep +:+ Join rest sep
  end.

End strings.

(** ** The data model: [StockInfo], [Response] *)

(** One record of the upstream [msgArray]; every field is a string, named
    as in the Go struct (the JSON key is given where it differs).  The
    struct has fields called [S], [O], [N] and [Z]; the declarations live in
    a module of their own so that those names stay those of the numbers
    everywhere else. *)
Module Types.

Record StockInfo := {
  At : string;       (* "@" *)
  Tv : string;
  Ps : string;
  Nu : string;
  Pid : string;
  Pz : string;
  Bp : string;
  Fv : string;
  Oa : string;
  Ob : string;
  M : string;        (* "m%" *)
  Key : string;
  Caret : string;    (* "^" *)
  A : string;
  B : string;
  C : string;
  Hash : string;     (* "#" *)
  D : string;
  Percent : string;  (* "%" *)
  Ch : string;
  Tlong : string;
  Ot : string;
  F : string;
  G : string;
  Ip : string;
  Mt : string;
  Ov : string;
  H : string;
  It : string;
  Oz : string;
  L : string;
  N : string;
  O : string;
  P : string;
  Ex : string;
  S : string;
  T : string;
  U : string;
  V : string;
  W : string;
  Nf : string;
  Y : string;
  Z : string;
  Ts : string
}.

Record Response := { MsgArray : list StockInfo }.

End Types.

Abbreviation StockInfo := Types.StockInfo.
Abbreviation Response := Types.Response.
Abbreviation MsgArray := Types.MsgArray.
Abbreviation Ex := Types.Ex.
Abbreviation C := Types.C.
Abbreviation At := Types.At.
Abbreviation D := Types.D.
Abbreviation Percent := Types.Percent.
Abbreviation Pz := Types.Pz.

(** ** Metric names and help strings (the loop body of the handler) *)

Definition metricName (info : StockInfo) : string :=
  fmt.Sprintf "%s_%s_gauge" [Ex info; C info].

Definition metricHelp (info : StockInfo) : string :=
  fmt.Sprintf "%s_%s於%s %s的價格%s"
    [Ex info; At info; D info; Percent info; Pz info].

(** The record with its [At], [D] and [Percent] fields replaced. *)
Definition with_help_fields (at_ d percent : string) (info : StockInfo)
  : StockInfo :=
  {| Types.At := at_; Types.Tv := Types.Tv info; Types.Ps := Types.Ps info;
     Types.Nu := Types.Nu info; Types.Pid := Types.Pid info;
     Types.Pz := Types.Pz info; Types.Bp := Types.Bp info;
     Types.Fv := Types.Fv info; Types.Oa := Types.Oa info;
     Types.Ob := Types.Ob info; Types.M := Types.M info;
     Types.Key := Types.Key info; Types.Caret := Types.Caret info;
     Types.A := Types.A info; Types.B := Types.B info;
     Types.C := Types.C info; Types.Hash := Types.Hash info;
     Types.D := d; Types.Percent := percent; Types.Ch := Types.Ch info;
     Types.Tlong := Types.Tlong info; Types.Ot := Types.Ot info;
     Types.F := Types.F info; Types.G := Types.G info;
     Types.Ip := Types.Ip info; Types.Mt := Types.Mt info;
     Types.Ov := Types.Ov info; Types.H := Types.H info;
     Types.It := Types.It info; Types.Oz := Types.Oz info;
     Types.L := Types.L info; Types.N := Types.N info;
     Types.O := Types.O info; Types.P := Types.P info;
     Types.Ex := Types.Ex info; Types.S := Types.S info;
     Types.T := Types.T info; Types.U := Types.U info;
     Types.V := Types.V info; Types.W := Types.W info;
     Types.Nf := Types.Nf info; Types.Y := Types.Y info;
     Types.Z := Types.Z info; Types.Ts := Types.Ts info |}.

(** What the specification calls a valid metric identifier: letters, digits
    and underscores only, the first character a letter or an underscore. *)
Definition is_letter (c : ascii) : bool :=
  let n := nat_of_ascii c in
  ((65 <=? n)%nat && (n <=? 90)%nat || (97 <=? n)%nat && (n <=? 122)%nat)%bool.

Definition is_digit (c : ascii) : bool :=
  let n := nat_of_ascii c in ((48 <=? n)%nat && (n <=? 57)%nat)%bool.

Definition is_underscore (c : ascii) : bool := Ascii.eqb c "_".

Definition identifier_char (c : ascii) : bool :=
  (is_letter c || is_digit c || is_underscore c)%bool.

Definition identifier_start (c : ascii) : bool :=
  (is_letter c || is_underscore c)%bool.

Fixpoint all_chars (p : ascii -> bool) (s : string) : bool :=
  match s with
  | EmptyString => true
  | String c rest => (p c && all_chars p rest)%bool
  end.

Definition valid_metric_identifier (s : string) : bool :=
  match s with
  | EmptyString => false
  | String c rest => (identifier_start c && all_chars identifier_char rest)%bool
  end.

(** The first character of a string is not a digit (true of the empty string). *)
Definition no_leading_digit (s : string) : bool :=
  match s with
  | EmptyString => true
  | String c _ => negb (is_digit c)
  end.

Fixpoint has_suffix (suffix s : string) : bool :=
  if String.eqb s suffix then true
  else match s with
       | EmptyString => false
       | String _ rest => has_suffix suffix rest
       end.

(** ** Library functions and values the program uses

    An [error] is represented by its message.  [strconv.ParseFloat],
    [json.Unmarshal] and the metric-name check of the Prometheus client are
    library code: the pipeline is embedded over any implementation of them.
    A Go call returning [(value, error)] returns a pair whose second
    component is [None] for a nil error. *)
Definition error := string.

Class GoLibrary := {
  float64 : Type;
  float64_zero : float64;
  (* strconv.ParseFloat(s, 64) *)
  strconv_ParseFloat : string -> float64 * option error;
  (* json.Unmarshal(body, &response), on a zero Response *)
  json_Unmarshal : string -> Response * option error;
  (* model.IsValidMetricName, which prometheus.NewDesc applies to the name *)
  model_IsValidMetricName : string -> bool
}.

(** ** Package [time]: instants and saturating durations

    A [Time] is a number of nanoseconds counted from the zero [Time], so the
    zero value of a [time.Time] variable is [0].  A [Duration] is an int64
    number of nanoseconds, and [Time.Sub] saturates at its bounds. *)
Module time.

Definition Time := Z.
Definition Duration := Z.

Definition minDuration : Duration := - 2 ^ 63.
Definition maxDuration : Duration := 2 ^ 63 - 1.
Definition Second : Duration := 1000000000.

Definition Sub (t u : Time) : Duration :=
  let d := t - u in
  if d <? minDuration then minDuration
  else if maxDuration <? d then maxDuration
  else d.

End time.

(** ** The Prometheus registry of one request *)

Record GaugeOpts := { Name : string; Help : string }.

Record Gauge `{GoLibrary} := { opts : GaugeOpts; value : float64 }.

Inductive RegisterError :=
| InvalidDescriptor (name : string)
| AlreadyRegistered (name : string).

(** What a goroutine can panic with in this program. *)
Inductive PanicValue :=
| RegistrationPanic (e : RegisterError).

(** ** The world the process runs in

    [clock] is the reading [time.Now] would give; [upstream n url] is what
    the upstream does with the [n]-th request of the process when it asks
    for [url]; [sent] lists the URLs requested so far, most recent first;
    [logged] the lines the statements of [main.go] give to package [log],
    most recent first; [cacheData] and [cacheTimestamp] are the
    package-level variables.

    A [Reply] is an answer or a failure that comes after a finite time.
    [http.Get] is called on the default client, which has no timeout: a
    request the upstream never answers has no [Reply], and is a call that
    does not return.  The sequential functions below describe the calls
    that get a [Reply]; in module [Concurrent] a request that is not
    answered is a goroutine that stays [Fetching]. *)
Inductive HttpResult :=
| TransportError (e : error)
    (* http.Get returns a non-nil error: no connection, no answer, ... *)
| HttpResponse (StatusCode : Z) (Body : string * option error).
    (* a response of any status; Body is what io.ReadAll(resp.Body) returns *)

Record Reply := { latency : N; result : HttpResult }.

Record World := {
  clock : time.Time;
  upstream : nat -> string -> Reply;
  sent : list string;
  logged : list string;
  cacheData : list StockInfo;
  cacheTimestamp : time.Time
}.

Definition with_clock (t : time.Time) (w : World) : World :=
  {| clock := t; upstream := upstream w; sent := sent w; logged := logged w;
     cacheData := cacheData w; cacheTimestamp := cacheTimestamp w |}.

Definition with_sent (urls : list string) (w : World) : World :=
  {| clock := clock w; upstream := upstream w; sent := urls;
     logged := logged w; cacheData := cacheData w;
     cacheTimestamp := cacheTimestamp w |}.

Definition with_logged (lines : list string) (w : World) : World :=
  {| clock := clock w; upstream := upstream w; sent := sent w;
     logged := lines; cacheData := cacheData w;
     cacheTimestamp := cacheTimestamp w |}.

Definition with_cacheData (data : list StockInfo) (w : World) : World :=
  {| clock := clock w; upstream := upstream w; sent := sent w;
     logged := logged w; cacheData := data;
     cacheTimestamp := cacheTimestamp w |}.

Definition with_cacheTimestamp (t : time.Time) (w : World) : World :=
  {| clock := clock w; upstream := upstream w; sent := sent w;
     logged := logged w; cacheData := cacheData w; cacheTimestamp := t |}.

(** Two worlds that differ at most in what has been logged. *)
Definition same_but_log (w w' : World) : Prop :=
  clock w' = clock w /\ upstream w' = upstream w /\ sent w' = sent w
  /\ cacheData w' = cacheData w /\ cacheTimestamp w' = cacheTimestamp w.

(** ** Computations: a call returns, ends the process, or panics *)
Inductive Outcome (A : Type) : Type :=
| Returns (a : A)
| Exits (code : Z)          (* os.Exit, reached through log.Fatalf *)
| Panics (v : PanicValue).

Arguments Returns {A} a.
Arguments Exits {A} code.
Arguments Panics {A} v.

Definition M (A : Type) : Type := World -> Outcome A * World.

Definition ret {A} (a : A) : M A := fun w => (Returns a, w).

Definition bind {A B} (c : M A) (k : A -> M B) : M B :=
  fun w =>
    match c w with
    | (Returns a, w') => k a w'
    | (Exits code, w') => (Exits code, w')
    | (Panics v, w') => (Panics v, w')
    end.

Notation "x <- c ;; k" := (bind c (fun x => k))
  (at level 100, c at next level, right associativity).
Notation "c ;;; k" := (bind c (fun _ => k))
  (at level 100, k at level 200, right associativity).

Definition panic {A} (v : PanicValue) : M A := fun w => (Panics v, w).

(** Package [log]: the message is recorded; [Fatalf] then exits with 1. *)
Definition log_Printf (format : string) (args : list string) : M unit :=
  fun w => (Returns tt, with_logged (fmt.Sprintf format args :: logged w) w).

Definition log_Fatalf {A} (format : string) (args : list string) : M A :=
  fun w => (Exits 1, with_logged (fmt.Sprintf format args :: logged w) w).

(** Package [time]: reading the clock. *)
Definition time_Now : M time.Time := fun w => (Returns (clock w), w).

Definition time_Since (t : time.Time) : M time.Duration :=
  fun w => (Returns (time.Sub (clock w) t), w).

(** [http.Get]: the request goes out, the upstream takes its time, and the
    call returns what the upstream did.  The two halves are kept apart
    because other goroutines may run between them. *)
Definition http_send (url : string) : M nat :=
  fun w => (Returns (length (sent w)), with_sent (url :: sent w) w).

Definition http_receive (n : nat) (url : string) : M HttpResult :=
  fun w =>
    let r := upstream w n url in
    (Returns (result r), with_clock (clock w + Z.of_N (latency r)) w).

Definition http_Get (url : string) : M HttpResult :=
  n <- http_send url ;;
  http_receive n url.

(** The world in which [http.Get url] returns. *)
Definition answered (url : string) (w : World) : World :=
  with_clock (clock w + Z.of_N (latency (upstream w (length (sent w)) url)))
    (with_sent (url :: sent w) w).

(** The package-level variables. *)
Definition read_cacheData : M (list StockInfo) :=
  fun w => (Returns (cacheData w), w).
Definition read_cacheTimestamp : M time.Time :=
  fun w => (Returns (cacheTimestamp w), w).
Definition write_cacheData (data : list StockInfo) : M unit :=
  fun w => (Returns tt, with_cacheData data w).
Definition write_cacheTimestamp (t : time.Time) : M unit :=
  fun w => (Returns tt, with_cacheTimestamp t w).

Section Pipeline.
Context `{GoLibrary}.

(** ** [fetchStockInfo]

    [fetchStockInfo_url] is the URL the function builds,
    [fetchStockInfo_result] the part of its body that follows [http.Get]. *)
Definition fetchStockInfo_url (exChList : list string) : string :=
  let exCh := strings.Join exChList "|" in
  fmt.Sprintf "http://mis.twse.com.tw/stock/api/getStockInfo.jsp?ex_ch=%s"
    [exCh].

Definition fetchStockInfo_result (r : HttpResult)
  : M (list StockInfo * option error) :=
  match r with
  | TransportError err =>
      log_Fatalf "Failed to fetch stock info: %v" [err]
  | HttpResponse _ (body, Some err) =>
      log_Fatalf "Failed to read response body: %v" [err]
  | HttpResponse _ (body, None) =>
      let '(response, err) := json_Unmarshal body in
      match err with
      | Some err =>
          ret ([], Some (fmt.Sprintf "failed to unmarshal response: %v" [err]))
      | None => ret (MsgArray response, None)
      end
  end.

Definition fetchStockInfo (exChList : list string)
  : M (list StockInfo * option error) :=
  r <- http_Get (fetchStockInfo_url exChList) ;;
  fetchStockInfo_result r.

(** ** [getCachedStockInfo]

    [cacheMutex] is locked on entry and unlocked by the deferred call when
    the function returns, so a call runs alone from its first statement to
    its return; calls made one after the other are sequenced with [bind].
    The interleaving of several goroutines is the subject of module
    [Concurrent] below.  [getCachedStockInfo_store] is the part of the body
    that follows the call of [fetchStockInfo]. *)
Definition cache_is_fresh : M bool :=
  t <- read_cacheTimestamp ;;
  since <- time_Since t ;;
  ret (since <? 5 * time.Second).

Definition getCachedStockInfo_store (r : list StockInfo * option error)
  : M (list StockInfo * option error) :=
  let '(stockInfos, err) := r in
  match err with
  | Some err => ret ([], Some err)
  | None =>
      write_cacheData stockInfos ;;;
      now <- time_Now ;;
      write_cacheTimestamp now ;;;
      ret (stockInfos, None)
  end.

Definition getCachedStockInfo (exChList : list string)
  : M (list StockInfo * option error) :=
  fresh <- cache_is_fresh ;;
  if (fresh : bool) then
    data <- read_cacheData ;;
    ret (data, None)
  else
    r <- fetchStockInfo exChList ;;
    getCachedStockInfo_store r.

(** ** The registry a request builds

    A registry is keyed by fully-qualified metric name.  [Register] refuses
    a collector whose descriptor is invalid and one whose name is already
    present (whatever its help string); [MustRegister] panics with the
    error [Register] returns. *)
Definition NewGauge (o : GaugeOpts) : Gauge :=
  {| opts := o; value := float64_zero |}.

Definition Gauge_Set (g : Gauge) (v : float64) : Gauge :=
  {| opts := opts g; value := v |}.

Definition Register (registry : gmap string Gauge) (g : Gauge)
  : gmap string Gauge * option RegisterError :=
  let name := Name (opts g) in
  if negb (model_IsValidMetricName name) then
    (registry, Some (InvalidDescriptor name))
  else
    match registry !! name with
    | Some _ => (registry, Some (AlreadyRegistered name))
    | None => (<[name := g]> registry, None)
    end.

Definition MustRegister (registry : gmap string Gauge) (g : Gauge)
  : M (gmap string Gauge) :=
  match Register registry g with
  | (_, Some err) => panic (RegistrationPanic err)
  | (registry', None) => ret registry'
  end.

(** ** What a request is answered with

    [http.Error] writes the status and the message followed by a newline.
    [promhttp.HandlerFor(registry, _)] answers 200 with the exposition of
    the registry's metrics; the body is kept as the registry it renders. *)
Inductive ResponseBody :=
| Text (s : string)
| Exposition (registry : gmap string Gauge).

Record Written := { status : Z; body : ResponseBody }.

Definition StatusOK : Z := 200.
Definition StatusInternalServerError : Z := 500.

Definition http_Error (msg : string) (code : Z) : Written :=
  {| status := code; body := Text (msg +:+ String "010" "") |}.

Definition promhttp_ServeHTTP (registry : gmap string Gauge) : Written :=
  {| status := StatusOK; body := Exposition registry |}.

(** ** The [/metrics] handler

    [range_stockInfos] is the [for _, info := range stockInfos] loop: it
    ends with [inl] of what was written when an iteration returns from the
    handler, and with [inr] of the registry when the range is exhausted. *)
Fixpoint range_stockInfos (stockInfos : list StockInfo)
    (registry : gmap string Gauge) : M (Written + gmap string Gauge) :=
  match stockInfos with
  | [] => ret (inr registry)
  | info :: rest =>
      let metricName := metricName info in
      let metricHelp := metricHelp info in
      let gaugeMetric := NewGauge {| Name := metricName; Help := metricHelp |} in
      let '(price, err) := strconv_ParseFloat (Pz info) in
      match err with
      | Some err =>
          log_Printf "Failed to parse price: %v" [err] ;;;
          ret (inl (http_Error "Failed to parse price" StatusInternalServerError))
      | None =>
          let gaugeMetric := Gauge_Set gaugeMetric price in
          registry <- MustRegister registry gaugeMetric ;;
          range_stockInfos rest registry
      end
  end.

Definition handler (config_ExChList : list string) : M Written :=
  r <- getCachedStockInfo config_ExChList ;;
  let '(stockInfos, err) := r in
  match err with
  | Some err =>
      log_Printf "Error fetching stock info: %v" [err] ;;;
      ret (http_Error "Failed to fetch stock info" StatusInternalServerError)
  | None =>
      let registry : gmap string Gauge := ∅ in
      r <- range_stockInfos stockInfos registry ;;
      match r with
      | inl written => ret written
      | inr registry => ret (promhttp_ServeHTTP registry)
      end
  end.

(** What the handler does once [getCachedStockInfo] has returned. *)
Definition respond (r : list StockInfo * option error) : M Written :=
  let '(stockInfos, err) := r in
  match err with
  | Some err =>
      log_Printf "Error fetching stock info: %v" [err] ;;;
      ret (http_Error "Failed to fetch stock info" StatusInternalServerError)
  | None =>
      r <- range_stockInfos stockInfos ∅ ;;
      match r with
      | inl written => ret written
      | inr registry => ret (promhttp_ServeHTTP registry)
      end
  end.

(** ** The server, one request after the other

    [net/http] runs the handler for each request and recovers a panic of
    the handler: the connection is closed without a response and the
    process goes on.  (The server then reports the panic, with the address
    of the client and the stack of the goroutine, through package [log];
    that line is written by [net/http], not by a statement of [main.go],
    and [logged] does not hold it.)  After [os.Exit] there is no process
    left to answer.  [serve] takes, for each request, the time that passes
    before it arrives. *)
Inductive Served :=
| Answered (written : Written)
| ConnectionAborted (v : PanicValue)
| ProcessExited (code : Z).

Definition idle (d : N) (w : World) : World :=
  with_clock (clock w + Z.of_N d) w.

Fixpoint serve (config_ExChList : list string) (arrivals : list N)
    (w : World) : list Served * World :=
  match arrivals with
  | [] => ([], w)
  | d :: rest =>
      match handler config_ExChList (idle d w) with
      | (Returns written, w') =>
          let '(more, w'') := serve config_ExChList rest w' in
          (Answered written :: more, w'')
      | (Panics v, w') =>
          let '(more, w'') := serve config_ExChList rest w' in
          (ConnectionAborted v :: more, w'')
      | (Exits code, w') => ([ProcessExited code], w')
      end
  end.

End Pipeline.

(** ** Several requests at once

    [net/http] runs every request in a goroutine of its own.  The handler
    shares nothing but what [getCachedStockInfo] guards with [cacheMutex],
    so a goroutine is followed through that function only: it has
    [Arrived] at [cacheMutex.Lock()], it is [Locked] (holds the mutex and is
    about to test the age of the cache), it is [Fetching] (still holding
    the mutex, its request number [n] sent and not yet answered), or it has
    [Finished] with the values it returns, the deferred [Unlock] done.  An
    [Event] is either time passing or the scheduler letting one goroutine
    take its next step; a goroutine blocked on the mutex has no step. *)
Module Concurrent.
Section Goroutines.
Context `{GoLibrary}.

Inductive Goroutine :=
| Arrived
| Locked
| Fetching (n : nat)
| Finished (r : list StockInfo * option error).

Record System := {
  world : World;
  cacheMutex : bool;
  goroutines : list Goroutine;
  exited : option Z
}.

Inductive Event :=
| Tick (d : N)
| Run (i : nat).

Definition lock (i : nat) (s : System) : option System :=
  if cacheMutex s then None
  else Some {| world := world s; cacheMutex := true;
               goroutines := <[i := Locked]> (goroutines s);
               exited := exited s |}.

(** The deferred [cacheMutex.Unlock()] runs as the function returns. *)
Definition return_unlock (i : nat) (r : list StockInfo * option error)
    (w : World) (s : System) : System :=
  {| world := w; cacheMutex := false;
     goroutines := <[i := Finished r]> (goroutines s);
     exited := exited s |}.

Definition test_cache (exChList : list string) (i : nat) (s : System)
  : option System :=
  match cache_is_fresh (world s) with
  | (Returns true, w) =>
      match (data <- read_cacheData ;; ret (data, None)) w with
      | (Returns r, w') => Some (return_unlock i r w' s)
      | _ => None
      end
  | (Returns false, w) =>
      match http_send (fetchStockInfo_url exChList) w with
      | (Returns n, w') =>
          Some {| world := w'; cacheMutex := cacheMutex s;
                  goroutines := <[i := Fetching n]> (goroutines s);
                  exited := exited s |}
      | _ => None
      end
  | _ => None
  end.

Definition receive (exChList : list string) (i n : nat) (s : System)
  : option System :=
  match (r <- http_receive n (fetchStockInfo_url exChList) ;;
         r <- fetchStockInfo_result r ;;
         getCachedStockInfo_store r) (world s) with
  | (Returns r, w') => Some (return_unlock i r w' s)
  | (Exits code, w') =>
      Some {| world := w'; cacheMutex := cacheMutex s;
              goroutines := goroutines s; exited := Some code |}
  | (Panics _, _) => None
  end.

Definition step (exChList : list string) (e : Event) (s : System)
  : option System :=
  match exited s with
  | Some _ => None
  | None =>
      match e with
      | Tick d =>
          Some {| world := idle d (world s); cacheMutex := cacheMutex s;
                  goroutines := goroutines s; exited := exited s |}
      | Run i =>
          match goroutines s !! i with
          | Some Arrived => lock i s
          | Some Locked => test_cache exChList i s
          | Some (Fetching n) => receive exChList i n s
          | Some (Finished _) => None
          | None => None
          end
      end
  end.

Fixpoint run (exChList : list string) (es : list Event) (s : System)
  : option System :=
  match es with
  | [] => Some s
  | e :: rest =>
      match step exChList e s with
      | Some s' => run exChList rest s'
      | None => None
      end
  end.

(** [n] requests have arrived and none has started. *)
Definition arrivals (n : nat) (w : World) : System :=
  {| world := w; cacheMutex := false; goroutines := replicate n Arrived;
     exited := None |}.

Definition in_flight (g : Goroutine) : bool :=
  match g with Fetching _ => true | _ => false end.

Definition holds_mutex (g : Goroutine) : bool :=
  match g with Locked | Fetching _ => true | _ => false end.

Definition got_snapshot (g : Goroutine) : bool :=
  match g with Finished (_, None) => true | _ => false end.

Fixpoint count (p : Goroutine -> bool) (gs : list Goroutine) : nat :=
  match gs with
  | [] => 0
  | g :: rest => (if p g then 1 else 0) + count p rest
  end.

(** The mutex is locked exactly when one goroutine is between its
    [Lock] and its return. *)
Definition mutex_held_by_one (s : System) : Prop :=
  count holds_mutex (goroutines s) = if cacheMutex s then 1%nat else 0%nat.

(** The time a list of events lets pass while goroutines wait to be
    scheduled; the time the upstream takes to reply is not part of it. *)
Definition elapse (e : Event) : Z :=
  match e with Tick d => Z.of_N d | Run _ => 0 end.

Fixpoint waiting (es : list Event) : Z :=
  match es with
  | [] => 0
  | e :: rest => elapse e + waiting rest
  end.

(** Something got in the way of a burst of requests: the process exited,
    5 seconds were spent waiting, or a goroutine returned an error. *)
Definition disturbed (waited : Z) (s : System) : Prop :=
  exited s <> None
  \/ 5 * time.Second <= waited
  \/ exists i r e, goroutines s !! i = Some (Finished (r, Some e)).

(** The stages an undisturbed burst that started in world [w0] goes
    through: nobody has tested the cache; one goroutine is about to; its
    request is on its way; the snapshot is stored, and no more time has
    passed since than was spent waiting. *)
Definition others_arrived (i : nat) (s : System) : Prop :=
  forall j g, j <> i -> goroutines s !! j = Some g -> g = Arrived.

Definition burst_stage (exChList : list string) (w0 : World) (waited : Z)
    (s : System) : Prop :=
  (cacheMutex s = false
   /\ sent (world s) = sent w0
   /\ cacheTimestamp (world s) = cacheTimestamp w0
   /\ forall j g, goroutines s !! j = Some g -> g = Arrived)
  \/ (cacheMutex s = true
      /\ sent (world s) = sent w0
      /\ cacheTimestamp (world s) = cacheTimestamp w0
      /\ exists i, goroutines s !! i = Some Locked /\ others_arrived i s)
  \/ (cacheMutex s = true
      /\ sent (world s) = fetchStockInfo_url exChList :: sent w0
      /\ exists i n, goroutines s !! i = Some (Fetching n)
                     /\ others_arrived i s)
  \/ (sent (world s) = fetchStockInfo_url exChList :: sent w0
      /\ clock (world s) - cacheTimestamp (world s) <= waited
      /\ forall j g, goroutines s !! j = Some g ->
           g = Arrived \/ g = Locked \/ exists infos, g = Finished (infos, None)).

Definition burst_invariant (exChList : list string) (w0 : World) (waited : Z)
    (s : System) : Prop :=
  clock w0 <= clock (world s)
  /\ 0 <= waited
  /\ (disturbed waited s \/ burst_stage exChList w0 waited s).

End Goroutines.
End Concurrent.

(** ** A concrete library, records and upstream for the examples

    The properties below hold for every [GoLibrary]; the examples run the
    pipeline with this one.  A [float64] is kept as the decimal literal it
    was read from; [ParseFloat] accepts the plain decimal literals (digits
    with at most one point), which [strconv.ParseFloat] accepts too, and
    rejects the rest, among them the ["-"] the feed sends for a quote that
    has no trade yet.  [Unmarshal] decodes the bodies listed in a table and
    rejects every other body as malformed. *)
Module Demo.

Definition quote (ex c at_ d percent pz : string) : StockInfo :=
  {| Types.At := at_; Types.Tv := ""; Types.Ps := ""; Types.Nu := "";
     Types.Pid := ""; Types.Pz := pz; Types.Bp := ""; Types.Fv := "";
     Types.Oa := ""; Types.Ob := ""; Types.M := ""; Types.Key := "";
     Types.Caret := ""; Types.A := ""; Types.B := ""; Types.C := c;
     Types.Hash := ""; Types.D := d; Types.Percent := percent;
     Types.Ch := ""; Types.Tlong := ""; Types.Ot := ""; Types.F := "";
     Types.G := ""; Types.Ip := ""; Types.Mt := ""; Types.Ov := "";
     Types.H := ""; Types.It := ""; Types.Oz := ""; Types.L := "";
     Types.N := ""; Types.O := ""; Types.P := ""; Types.Ex := ex;
     Types.S := ""; Types.T := ""; Types.U := ""; Types.V := "";
     Types.W := ""; Types.Nf := ""; Types.Y := ""; Types.Z := "";
     Types.Ts := "" |}.

Definition tse_2330 : StockInfo :=
  quote "tse" "2330" "2330.tw" "20241018" "13:30:00" "1045.0000".
Definition otc_6488 : StockInfo :=
  quote "otc" "6488" "6488.tw" "20241018" "13:30:00" "502.0000".
Definition tse_2317_no_trade : StockInfo :=
  quote "tse" "2317" "2317.tw" "20241018" "13:30:00" "-".

(** The JSON text of a response carrying the given records (the six
    fields the handler reads). *)
Definition dq : string := String "034" "".

Definition json_field (key val : string) : string :=
  dq +:+ key +:+ dq +:+ ":" +:+ dq +:+ val +:+ dq.

Definition json_record (info : StockInfo) : string :=
  "{" +:+ strings.Join
    [json_field "@" (At info); json_field "pz" (Pz info);
     json_field "c" (C info); json_field "d" (D info);
     json_field "%" (Percent info); json_field "ex" (Ex info)] ","
  +:+ "}".

Definition json_body (infos : list StockInfo) : string :=
  "{" +:+ dq +:+ "msgArray" +:+ dq +:+ ":["
  +:+ strings.Join (map json_record infos) "," +:+ "]}".

Definition bodies : list (list StockInfo) :=
  [ [tse_2330; otc_6488];
    [tse_2330; tse_2330];
    [tse_2330; tse_2330; tse_2317_no_trade];
    [tse_2330; tse_2317_no_trade; otc_6488] ].

Definition Unmarshal (body : string) : Response * option error :=
  if String.eqb body "{}" then ({| MsgArray := [] |}, None)
  else
    match find (fun infos => String.eqb body (json_body infos)) bodies with
    | Some infos => ({| MsgArray := infos |}, None)
    | None =>
        ({| MsgArray := [] |},
         Some "invalid character '<' looking for beginning of value")
    end.

Fixpoint decimal_digits (seen_point seen_digit : bool) (s : string) : bool :=
  match s with
  | EmptyString => seen_digit
  | String c rest =>
      if is_digit c then decimal_digits seen_point true rest
      else if (Ascii.eqb c "." && negb seen_point)%bool
           then decimal_digits true seen_digit rest
           else false
  end.

Definition ParseFloat (s : string) : string * option error :=
  if decimal_digits false false s then (s, None)
  else ("0", Some ("strconv.ParseFloat: parsing " +:+ dq +:+ s +:+ dq
                   +:+ ": invalid syntax")).

(** The check of the text exposition format: [[a-zA-Z_:][a-zA-Z0-9_:]*]. *)
Definition IsValidMetricName (s : string) : bool :=
  match s with
  | EmptyString => false
  | String c rest =>
      ((identifier_start c || Ascii.eqb c ":")
       && all_chars (fun c => identifier_char c || Ascii.eqb c ":") rest)%bool
  end.

#[export] Instance library : GoLibrary :=
  {| float64 := string; float64_zero := "0";
     strconv_ParseFloat := ParseFloat;
     json_Unmarshal := Unmarshal;
     model_IsValidMetricName := IsValidMetricName |}.

(** A process that has just started, at clock reading [t]: nothing sent
    or logged, the cache variables at their zero values. *)
Definition started (t : time.Time) (up : nat -> string -> Reply) : World :=
  {| clock := t; upstream := up; sent := []; logged := [];
     cacheData := []; cacheTimestamp := 0 |}.

(** 2024-10-18 13:30:00 +0800, in nanoseconds since the zero Time. *)
Definition t0 : time.Time := 63864826200 * time.Second.

Definition millisecond : N := 1000000.
Definition second : N := 1000000000.

Definition answers (status : Z) (body : string) : Reply :=
  {| latency := 120 * millisecond;
     result := HttpResponse status (body, None) |}.

Definition healthy (infos : list StockInfo) : nat -> string -> Reply :=
  fun _ _ => answers 200 (json_body infos).

Definition unreachable : nat -> string -> Reply :=
  fun _ _ =>
    {| latency := 3 * millisecond;
       result := TransportError "dial tcp: connect: connection refused" |}.

(** An upstream that answers with a page that is not JSON. *)
Definition garbled : nat -> string -> Reply :=
  fun _ _ => answers 200 "<html>Service Unavailable</html>".

(** An upstream that answers 503 with an empty JSON object. *)
Definition overloaded : nat -> string -> Reply :=
  fun _ _ => answers 503 "{}".

Definition config_ExChList : list string := ["tse_2330.tw"; "otc_6488.tw"].

(** Three requests at once, one possible schedule: the first goroutine
    locks, finds the cache expired and fetches; the other two are served
    from the cache once it has returned. *)
Definition schedule : list Concurrent.Event :=
  [Concurrent.Run 0; Concurrent.Run 0; Concurrent.Tick (40 * millisecond);
   Concurrent.Run 0; Concurrent.Run 2; Concurrent.Run 2;
   Concurrent.Tick millisecond; Concurrent.Run 1; Concurrent.Run 1].

(** Two requests at once, each running to its return in turn. *)
Definition one_after_the_other : list Concurrent.Event :=
  [Concurrent.Run 0; Concurrent.Run 0; Concurrent.Run 0;
   Concurrent.Run 1; Concurrent.Run 1; Concurrent.Run 1].

(** The same, the second goroutine being left waiting for 6 seconds. *)
Definition second_kept_waiting : list Concurrent.Event :=
  [Concurrent.Run 0; Concurrent.Run 0; Concurrent.Run 0;
   Concurrent.Tick (6 * second);
   Concurrent.Run 1; Concurrent.Run 1; Concurrent.Run 1].

(** An upstream that takes 8 seconds to answer. *)
Definition slow (infos : list StockInfo) : nat -> string -> Reply :=
  fun _ _ =>
    {| latency := 8 * second;
       result := HttpResponse 200 (json_body infos, None) |}.

End Demo.

(** ** Notions used to state what the pipeline does and never does *)

(** The results of [http.Get] and [io.ReadAll] on which [fetchStockInfo]
    calls [log.Fatalf]. *)
Definition fatal_result (r : HttpResult) : bool :=
  match r with
  | TransportError _ => true
  | HttpResponse _ (_, Some _) => true
  | HttpResponse _ (_, None) => false
  end.

(** Two results of a request that differ at most in the status code. *)
Definition same_but_status (r1 r2 : HttpResult) : Prop :=
  match r1, r2 with
  | TransportError e1, TransportError e2 => e1 = e2
  | HttpResponse _ body1, HttpResponse _ body2 => body1 = body2
  | _, _ => False
  end.

(** Two worlds that differ at most in the status codes the upstream
    answers with. *)
Definition same_but_statuses (w1 w2 : World) : Prop :=
  clock w1 = clock w2 /\ sent w1 = sent w2 /\ logged w1 = logged w2
  /\ cacheData w1 = cacheData w2 /\ cacheTimestamp w1 = cacheTimestamp w2
  /\ forall n url,
       latency (upstream w1 n url) = latency (upstream w2 n url)
       /\ same_but_status (result (upstream w1 n url))
                          (result (upstream w2 n url)).

Section Transformer.
Context `{GoLibrary}.

(** The gauge the loop of the handler builds for a record. *)
Definition gauge_of (info : StockInfo) : Gauge :=
  Gauge_Set (NewGauge {| Name := metricName info; Help := metricHelp info |})
    (fst (strconv_ParseFloat (Pz info))).

(** A record the loop of the handler registers without incident, given the
    names already taken. *)
Definition parses (info : StockInfo) : Prop :=
  snd (strconv_ParseFloat (Pz info)) = None.

Definition well_named (info : StockInfo) : Prop :=
  model_IsValidMetricName (metricName info) = true.

(** A record that differs from another at most in the fields [At], [D] and
    [Percent]. *)
Definition same_but_help_fields (info info' : StockInfo) : Prop :=
  exists at_ d percent, info' = with_help_fields at_ d percent info.

(** A gauge with its help string left out, and what the handler does with
    the help strings of its gauges left out. *)
Definition without_help (g : Gauge) : Gauge :=
  {| opts := {| Name := Name (opts g); Help := "" |}; value := value g |}.

Definition written_without_help (written : Written) : Written :=
  {| status := status written;
     body := match body written with
             | Text s => Text s
             | Exposition registry => Exposition (without_help <$> registry)
             end |}.

Definition outcome_without_help (o : Outcome Written) : Outcome Written :=
  match o with
  | Returns written => Returns (written_without_help written)
  | Exits code => Exits code
  | Panics v => Panics v
  end.

Definition loop_without_help (o : Outcome (Written + gmap string Gauge))
  : Outcome (Written + gmap string Gauge) :=
  match o with
  | Returns (inl written) => Returns (inl written)
  | Returns (inr registry) => Returns (inr (without_help <$> registry))
  | Exits code => Exits code
  | Panics v => Panics v
  end.

End Transformer.

(** A goroutine that has returned from [getCachedStockInfo], and one that
    has tested the age of the cache. *)
Definition has_returned (g : Concurrent.Goroutine) : bool :=
  match g with Concurrent.Finished _ => true | _ => false end.

Definition has_tested (g : Concurrent.Goroutine) : bool :=
  match g with
  | Concurrent.Fetching _ | Concurrent.Finished _ => true
  | _ => false
  end.

(** ** [fmt.Sprintf] with integer operands

    The format of the listen address has a [%d] on an [int].  [Sprintf]
    here is [fmt.Sprintf] above with operands that are strings or
    integers: [%s] applies to a string, [%d] to an integer, [%v] to both,
    and an integer prints in decimal. *)
Module fmt_operands.

Inductive Operand :=
| OfString (s : string)
| OfInt (n : Z).

Definition type_name (o : Operand) : string :=
  match o with OfString _ => "string" | OfInt _ => "int" end.

Definition print (o : Operand) : string :=
  match o with OfString s => s | OfInt n => pretty n end.

Definition applies (v : ascii) (o : Operand) : bool :=
  match o with
  | OfString _ => fmt.is_string_verb v
  | OfInt _ => (Ascii.eqb v "d" || Ascii.eqb v "v")%bool
  end.

Fixpoint extra_operands (args : list Operand) : string :=
  match args with
  | [] => ""
  | [a] => type_name a +:+ "=" +:+ print a
  | a :: rest => type_name a +:+ "=" +:+ print a +:+ ", " +:+ extra_operands rest
  end.

Definition EXTRA (args : list Operand) : string :=
  match args with
  | [] => ""
  | _ => "%!(EXTRA " +:+ extra_operands args +:+ ")"
  end.

Fixpoint Sprintf (format : string) (args : list Operand) : string :=
  match format with
  | EmptyString => EXTRA args
  | String "%" EmptyString => "%!(NOVERB)" +:+ EXTRA args
  | String "%" (String v rest) =>
      if Ascii.eqb v "%" then String "%" (Sprintf rest args)
      else
        match args with
        | [] => "%!" +:+ String v "(MISSING)" +:+ Sprintf rest []
        | a :: args' =>
            if applies v a then print a +:+ Sprintf rest args'
            else "%!" +:+ String v "(" +:+ type_name a +:+ "=" +:+ print a
                      +:+ ")" +:+ Sprintf rest args'
        end
  | String c rest => String c (Sprintf rest args)
  end.

End fmt_operands.

(** ** [main]: the configuration and the start of the server *)

Record Config := {
  ExChList : list string;
  Address : string;
  Port : Z
}.

(** What [main] finds around the process: the value given to [-config] on
    the command line, if any; what [os.Open] returns for a path (the content
    of the file stands for the open file); what the YAML decoder makes of a
    content, starting from a zero [Config]; the error with which
    [http.ListenAndServe] returns at once when it cannot listen on an
    address; and, when it can, the time that passes before each request for
    [/metrics]. *)
Record Startup := {
  flag_config : option string;
  os_Open : string -> string * option error;
  yaml_Decode : string -> Config * option error;
  cannot_listen : string -> option error;
  requests : list N
}.

(** How the process stands when the requests have been dealt with: it has
    exited with a status, [main] has returned (the process ends with status
    0), or the server goes on listening. *)
Inductive Process :=
| Exited (code : Z)
| MainReturned
| Listening.

Section Main.
Context `{GoLibrary}.

Definition process_after (served : list Served) : Process :=
  match last served with
  | Some (ProcessExited code) => Exited code
  | _ => Listening
  end.

Definition listenAddress (config : Config) : string :=
  fmt_operands.Sprintf "%s:%d"
    [fmt_operands.OfString (Address config); fmt_operands.OfInt (Port config)].

Definition main (st : Startup) (w : World) : Process * list Served * World :=
  let configFile := default "config.yaml" (flag_config st) in
  let '(file, err) := os_Open st configFile in
  match err with
  | Some err =>
      (Exited 1, [],
       snd (log_Fatalf (A := unit) "Failed to open config file: %v" [err] w))
  | None =>
      let '(config, err) := yaml_Decode st file in
      match err with
      | Some err =>
          (Exited 1, [],
           snd (log_Fatalf (A := unit) "Failed to decode config file: %v"
                  [err] w))
      | None =>
          (* http.HandleFunc("/metrics", ...) registers [handler] with the
             list of the configuration *)
          match cannot_listen st (listenAddress config) with
          | Some _ => (MainReturned, [], w)
          | None =>
              let '(served, w') := serve (ExChList config) (requests st) w in
              (process_after served, served, w')
          end
      end
  end.

End Main.

(** ** More of the example process: upstreams and a start-up *)
Module MoreDemo.

(** An upstream whose response breaks off while the body is read. *)
Definition interrupted : nat -> string -> Reply :=
  fun _ _ =>
    {| latency := 50 * Demo.millisecond;
       result := HttpResponse 200 ("{", Some "unexpected EOF") |}.

(** An upstream that sends the records with the status 503. *)
Definition grudging (infos : list StockInfo) : nat -> string -> Reply :=
  fun _ _ => Demo.answers 503 (Demo.json_body infos).

Definition config_yaml : string :=
  "{exChList: [tse_2330.tw, otc_6488.tw], address: 0.0.0.0, port: 9100}".

Definition config : Config :=
  {| ExChList := Demo.config_ExChList; Address := "0.0.0.0"; Port := 9100 |}.

(** A start-up with [config.yaml] in place and the port free; two requests
    come in, the second one second after the first was answered. *)
Definition startup : Startup :=
  {| flag_config := None;
     os_Open := fun path =>
       if String.eqb path "config.yaml" then (config_yaml, None)
       else ("", Some ("open " +:+ path +:+ ": no such file or directory"));
     yaml_Decode := fun content =>
       if String.eqb content config_yaml then (config, None)
       else ({| ExChList := []; Address := ""; Port := 0 |},
             Some "yaml: unmarshal errors");
     cannot_listen := fun _ => None;
     requests := [0%N; Demo.second] |}.

(** The same, started with [-config missing.yaml]. *)
Definition startup_without_file : Startup :=
  {| flag_config := Some "missing.yaml";
     os_Open := os_Open startup; yaml_Decode := yaml_Decode startup;
     cannot_listen := cannot_listen startup; requests := requests startup |}.

(** The same as [startup], the port being taken. *)
Definition startup_port_taken : Startup :=
  {| flag_config := flag_config startup;
     os_Open := os_Open startup; yaml_Decode := yaml_Decode startup;
     cannot_listen := fun address =>
       if String.eqb address "0.0.0.0:9100"
       then Some "listen tcp 0.0.0.0:9100: bind: address already in use"
       else None;
     requests := requests startup |}.

(** Two goroutines; the first has locked the mutex and sent its request. *)
Definition first_is_fetching : list Concurrent.Event :=
  [Concurrent.Run 0; Concurrent.Run 0; Concurrent.Tick Demo.millisecond].

End MoreDemo.

(** * Properties *)

(** ** Names and help strings *)

Lemma append_assoc (s t u : string) : (s +:+ t) +:+ u = s +:+ (t +:+ u).
Proof.
  induction s as [|c s IH]; [reflexivity|].
  change (String c ((s +:+ t) +:+ u) = String c (s +:+ (t +:+ u))).
  now rewrite IH.
Qed.

Lemma append_nil_r (s : string) : s +:+ "" = s.
Proof.
  induction s as [|c s IH]; [reflexivity|].
  change (String c (s +:+ "") = String c s).
  now rewrite IH.
Qed.

Lemma all_chars_app (p : ascii -> bool) (s t : string) :
  all_chars p (s +:+ t) = (all_chars p s && all_chars p t)%bool.
Proof.
  induction s as [|c s IH]; [reflexivity|].
  change (p c && all_chars p (s +:+ t) = p c && all_chars p s && all_chars p t)%bool.
  rewrite IH. apply andb_assoc.
Qed.

Lemma has_suffix_app (suffix s : string) : has_suffix suffix (s +:+ suffix) = true.
Proof.
  induction s as [|c s IH].
  - change ("" +:+ suffix) with suffix.
    destruct suffix; unfold has_suffix; rewrite String.eqb_refl; reflexivity.
  - change (String c s +:+ suffix) with (String c (s +:+ suffix)).
    cbn [has_suffix]. rewrite IH.
    destruct (String.eqb (String c (s +:+ suffix)) suffix); reflexivity.
Qed.

Lemma identifier_start_spec (c : ascii) :
  identifier_start c = (identifier_char c && negb (is_digit c))%bool.
Proof. destruct c as [[] [] [] [] [] [] [] []]; reflexivity. Qed.

Lemma metricName_eq (info : StockInfo) :
  metricName info = Ex info +:+ "_" +:+ C info +:+ "_gauge".
Proof. reflexivity. Qed.

Lemma metricName_has_suffix_gauge (info : StockInfo) :
  has_suffix "_gauge" (metricName info) = true.
Proof.
  rewrite metricName_eq.
  change (Ex info +:+ "_" +:+ C info +:+ "_gauge")
    with (Ex info +:+ ("_" +:+ (C info +:+ "_gauge"))).
  rewrite <- (append_assoc "_" (C info) "_gauge"),
          <- (append_assoc (Ex info)).
  apply has_suffix_app.
Qed.

Lemma metricHelp_eq (info : StockInfo) :
  metricHelp info
  = Ex info +:+ "_" +:+ At info +:+ "於" +:+ D info +:+ " "
      +:+ Percent info +:+ "的價格" +:+ Pz info.
Proof. unfold metricHelp. simpl. rewrite append_nil_r. reflexivity. Qed.

Lemma with_help_fields_keeps (at_ d percent : string) (info : StockInfo) :
  metricName (with_help_fields at_ d percent info) = metricName info
  /\ Pz (with_help_fields at_ d percent info) = Pz info.
Proof. split; reflexivity. Qed.

(** C6, as the specification states it, fails: a character of the source
    fields that a metric identifier may not contain reaches the metric name
    unchanged. *)
Lemma metricName_keeps_disallowed_characters :
  let info := Demo.quote "tse" "2330-A" "2330.tw" "20241018" "13:30:00" "1045.0" in
  metricName info = "tse_2330-A_gauge"
  /\ valid_metric_identifier (metricName info) = false.
Proof. split; reflexivity. Qed.

(** C6, amended: the metric name is the [Ex] and [C] fields copied as they
    are around an underscore, followed by [_gauge]; it is a valid metric
    identifier exactly when both fields consist of letters, digits and
    underscores and [Ex] does not begin with a digit. *)
Theorem metricName_valid_iff_fields_valid (info : StockInfo) :
  metricName info = Ex info +:+ "_" +:+ C info +:+ "_gauge"
  /\ valid_metric_identifier (metricName info)
     = (all_chars identifier_char (Ex info) && no_leading_digit (Ex info)
        && all_chars identifier_char (C info))%bool.
Proof.
  split; [reflexivity|].
  rewrite metricName_eq.
  destruct (Ex info) as [|c ex].
  - change ("" +:+ "_" +:+ C info +:+ "_gauge")
      with (String "_" (C info +:+ "_gauge")).
    unfold valid_metric_identifier.
    rewrite all_chars_app. simpl. now rewrite andb_true_r.
  - change (String c ex +:+ "_" +:+ C info +:+ "_gauge")
      with (String c (ex +:+ String "_" (C info +:+ "_gauge"))).
    unfold valid_metric_identifier.
    rewrite all_chars_app.
    change (all_chars identifier_char (String "_" (C info +:+ "_gauge")))
      with (all_chars identifier_char (C info +:+ "_gauge")).
    rewrite all_chars_app.
    change (all_chars identifier_char "_gauge") with true.
    rewrite andb_true_r, identifier_start_spec.
    cbn [all_chars no_leading_digit].
    destruct (identifier_char c), (is_digit c), (all_chars identifier_char ex),
      (all_chars identifier_char (C info)); reflexivity.
Qed.

(** ** The cache *)

Lemma Sub_lt_ttl (t u : time.Time) :
  time.Sub t u < 5 * time.Second <-> t - u < 5 * time.Second.
Proof.
  unfold time.Sub, time.minDuration, time.maxDuration, time.Second.
  change (2 ^ 63) with 9223372036854775808.
  repeat match goal with
         | |- context [?a <? ?b] => destruct (Z.ltb_spec a b)
         end; lia.
Qed.

Section PipelineProperties.
Context `{GoLibrary}.

Lemma cache_is_fresh_eq (w : World) :
  cache_is_fresh w
  = (Returns (time.Sub (clock w) (cacheTimestamp w) <? 5 * time.Second), w).
Proof. reflexivity. Qed.

Lemma getCachedStockInfo_hit (exChList : list string) (w : World) :
  time.Sub (clock w) (cacheTimestamp w) < 5 * time.Second ->
  getCachedStockInfo exChList w = (Returns (cacheData w, None), w).
Proof.
  intros Hfresh. apply Z.ltb_lt in Hfresh.
  unfold getCachedStockInfo, bind. rewrite cache_is_fresh_eq, Hfresh.
  reflexivity.
Qed.

Lemma getCachedStockInfo_miss (exChList : list string) (w : World) :
  5 * time.Second <= time.Sub (clock w) (cacheTimestamp w) ->
  getCachedStockInfo exChList w
  = (r <- fetchStockInfo exChList ;; getCachedStockInfo_store r) w.
Proof.
  intros Hold. apply Z.ltb_ge in Hold.
  unfold getCachedStockInfo at 1, bind at 1.
  rewrite cache_is_fresh_eq, Hold. reflexivity.
Qed.

Lemma fetchStockInfo_eq (exChList : list string) (w : World) :
  let url := fetchStockInfo_url exChList in
  fetchStockInfo exChList w
  = fetchStockInfo_result (result (upstream w (length (sent w)) url))
      (answered url w).
Proof. reflexivity. Qed.

Lemma fetchStockInfo_result_world (r : HttpResult) (w : World) :
  let w' := snd (fetchStockInfo_result r w) in
  sent w' = sent w /\ cacheData w' = cacheData w
  /\ cacheTimestamp w' = cacheTimestamp w /\ upstream w' = upstream w
  /\ clock w' = clock w.
Proof.
  unfold fetchStockInfo_result.
  destruct r as [e|code [body [e|]]]; cbn; [tauto | tauto |].
  destruct (json_Unmarshal body) as [response [e|]]; cbn; tauto.
Qed.

(** Whatever [fetchStockInfo] does, it sends exactly one request, leaves the
    cache variables alone and lets the clock advance by the latency of the
    upstream. *)
Lemma fetchStockInfo_world (exChList : list string) (w : World) :
  let w' := snd (fetchStockInfo exChList w) in
  sent w' = fetchStockInfo_url exChList :: sent w
  /\ cacheData w' = cacheData w /\ cacheTimestamp w' = cacheTimestamp w
  /\ upstream w' = upstream w /\ clock w <= clock w'.
Proof.
  rewrite fetchStockInfo_eq. cbv zeta.
  destruct (fetchStockInfo_result_world
              (result (upstream w (length (sent w)) (fetchStockInfo_url exChList)))
              (answered (fetchStockInfo_url exChList) w))
    as (Hs & Hd & Ht & Hu & Hc).
  rewrite Hs, Hd, Ht, Hu, Hc. cbn.
  repeat split; lia.
Qed.

Lemma same_but_log_refl (w : World) : same_but_log w w.
Proof. repeat split. Qed.

Lemma same_but_log_logged (lines : list string) (w : World) :
  same_but_log w (with_logged lines w).
Proof. repeat split. Qed.

(** The loop of the handler touches nothing but the log, and it never ends
    the process. *)
Lemma range_stockInfos_world (stockInfos : list StockInfo)
    (registry : gmap string Gauge) (w : World) :
  same_but_log w (snd (range_stockInfos stockInfos registry w))
  /\ forall code, fst (range_stockInfos stockInfos registry w) <> Exits code.
Proof.
  revert registry w.
  induction stockInfos as [|info rest IH]; intros registry w.
  - cbn. split; [apply same_but_log_refl | discriminate].
  - cbn [range_stockInfos].
    destruct (strconv_ParseFloat (Pz info)) as [price [err|]].
    + cbn. split; [apply same_but_log_logged | discriminate].
    + unfold MustRegister, bind.
      destruct (Register registry _) as [registry' [err|]].
      * cbn. split; [apply same_but_log_refl | discriminate].
      * cbn. apply IH.
Qed.

Lemma handler_eq (exChList : list string) (w : World) :
  handler exChList w = (r <- getCachedStockInfo exChList ;; respond r) w.
Proof. reflexivity. Qed.

Lemma respond_world (r : list StockInfo * option error) (w : World) :
  same_but_log w (snd (respond r w))
  /\ forall code, fst (respond r w) <> Exits code.
Proof.
  destruct r as [infos [err|]]; cbn [respond].
  - cbn. split; [apply same_but_log_logged | discriminate].
  - unfold bind.
    destruct (range_stockInfos_world infos ∅ w) as [Hw Hex].
    destruct (range_stockInfos infos ∅ w) as [[[written|registry]|code|v] w'];
      cbn in *; split; try assumption; try discriminate.
    intros code' Heq. apply (Hex code'). congruence.
Qed.

(** A request whose call of [getCachedStockInfo] returns leaves the world as
    that call left it, up to the log, and does not end the process. *)
Lemma handler_after_get (exChList : list string) (w w1 : World)
    (r : list StockInfo * option error) :
  getCachedStockInfo exChList w = (Returns r, w1) ->
  handler exChList w = respond r w1.
Proof. intros Hget. rewrite handler_eq. unfold bind. now rewrite Hget. Qed.

Lemma getCachedStockInfo_fetched (exChList : list string) (w w' : World)
    (r : list StockInfo * option error) :
  5 * time.Second <= time.Sub (clock w) (cacheTimestamp w) ->
  fetchStockInfo exChList w = (Returns r, w') ->
  getCachedStockInfo exChList w = getCachedStockInfo_store r w'.
Proof.
  intros Hold Hfetch. rewrite getCachedStockInfo_miss by assumption.
  unfold bind. now rewrite Hfetch.
Qed.

(** When the cache has expired and [fetchStockInfo] returns an error,
    [getCachedStockInfo] returns a nil slice and that error, and the cache
    variables keep their values; the caller is not given the stored
    snapshot: the handler answers 500 with its fixed message, and the cache
    variables are still unchanged when it is done. *)
Lemma getCachedStockInfo_fetch_error
    (exChList : list string) (w w' : World) (infos : list StockInfo)
    (err : error) :
  5 * time.Second <= time.Sub (clock w) (cacheTimestamp w) ->
  fetchStockInfo exChList w = (Returns (infos, Some err), w') ->
  getCachedStockInfo exChList w = (Returns ([], Some err), w')
  /\ cacheData w' = cacheData w
  /\ cacheTimestamp w' = cacheTimestamp w
  /\ fst (handler exChList w)
     = Returns (http_Error "Failed to fetch stock info" StatusInternalServerError)
  /\ cacheData (snd (handler exChList w)) = cacheData w
  /\ cacheTimestamp (snd (handler exChList w)) = cacheTimestamp w.
Proof.
  intros Hold Hfetch.
  assert (Hget : getCachedStockInfo exChList w = (Returns ([], Some err), w'))
    by (rewrite (getCachedStockInfo_fetched _ _ _ _ Hold Hfetch); reflexivity).
  destruct (fetchStockInfo_world exChList w) as (_ & Hd & Ht & _).
  rewrite Hfetch in Hd, Ht. cbn in Hd, Ht.
  rewrite (handler_after_get _ _ _ _ Hget). cbn.
  repeat split; assumption.
Qed.

(** A fetch that returns records refreshes the cache. *)
Lemma getCachedStockInfo_refresh
    (exChList : list string) (w w' : World) (infos : list StockInfo) :
  5 * time.Second <= time.Sub (clock w) (cacheTimestamp w) ->
  fetchStockInfo exChList w = (Returns (infos, None), w') ->
  getCachedStockInfo exChList w
  = (Returns (infos, None),
     with_cacheTimestamp (clock w') (with_cacheData infos w'))
  /\ (let w2 := snd (handler exChList w) in
      cacheData w2 = infos
      /\ cacheTimestamp w2 = clock w'
      /\ cacheTimestamp w < cacheTimestamp w2
      /\ sent w2 = fetchStockInfo_url exChList :: sent w).
Proof.
  intros Hold Hfetch.
  assert (Hget : getCachedStockInfo exChList w
                 = (Returns (infos, None),
                    with_cacheTimestamp (clock w') (with_cacheData infos w')))
    by (rewrite (getCachedStockInfo_fetched _ _ _ _ Hold Hfetch); reflexivity).
  split; [assumption|].
  destruct (fetchStockInfo_world exChList w) as (Hs & _ & _ & _ & Hc).
  rewrite Hfetch in Hs, Hc. cbn in Hs, Hc.
  rewrite (handler_after_get _ _ _ _ Hget). cbv zeta.
  destruct (respond_world (infos, None)
              (with_cacheTimestamp (clock w') (with_cacheData infos w')))
    as [(Hc2 & _ & Hs2 & Hd2 & Ht2) _].
  rewrite Hd2, Ht2, Hs2. cbn.
  repeat split; try assumption.
  assert (Hlt : ~ clock w - cacheTimestamp w < 5 * time.Second)
    by (rewrite <- Sub_lt_ttl; lia).
  unfold time.Second in Hlt. lia.
Qed.

(** C8: when the cache has expired and [fetchStockInfo] returns records and
    no error, [getCachedStockInfo] stores the records and the reading of the
    clock at that moment, both in the same call, and returns the records;
    so a request made when the cache has expired sends exactly one request
    upstream and leaves a timestamp strictly later than the one it found. *)
Theorem successful_fetch_replaces_snapshot_and_timestamp
    (exChList : list string) (w w' : World) (infos : list StockInfo) :
  5 * time.Second <= time.Sub (clock w) (cacheTimestamp w) ->
  fetchStockInfo exChList w = (Returns (infos, None), w') ->
  getCachedStockInfo exChList w
  = (Returns (infos, None),
     with_cacheTimestamp (clock w') (with_cacheData infos w'))
  /\ (let w2 := snd (handler exChList w) in
      cacheData w2 = infos
      /\ cacheTimestamp w2 = clock w'
      /\ cacheTimestamp w < cacheTimestamp w2
      /\ sent w2 = fetchStockInfo_url exChList :: sent w).
Proof.
  intros Hold Hfetch.
  destruct (getCachedStockInfo_refresh exChList w w' infos Hold Hfetch)
    as [Hget Hafter].
  split; [exact Hget | exact Hafter].
Qed.

Lemma serve_cons (exChList : list string) (d : N) (rest : list N) (w : World) :
  (forall code, fst (handler exChList (idle d w)) <> Exits code) ->
  snd (serve exChList (d :: rest) w)
  = snd (serve exChList rest (snd (handler exChList (idle d w))))
  /\ length (fst (serve exChList (d :: rest) w))
     = S (length (fst (serve exChList rest (snd (handler exChList (idle d w)))))).
Proof.
  intros Hrun. cbn [serve].
  destruct (handler exChList (idle d w)) as [[written|code|v] w1]; cbn in *.
  - destruct (serve exChList rest w1); cbn; auto.
  - now destruct (Hrun code).
  - destruct (serve exChList rest w1); cbn; auto.
Qed.

Lemma handler_hit (exChList : list string) (w : World) :
  time.Sub (clock w) (cacheTimestamp w) < 5 * time.Second ->
  same_but_log w (snd (handler exChList w))
  /\ forall code, fst (handler exChList w) <> Exits code.
Proof.
  intros Hfresh.
  rewrite (handler_after_get _ _ _ _ (getCachedStockInfo_hit exChList w Hfresh)).
  apply respond_world.
Qed.

(** C2, amended: a call of [getCachedStockInfo] made less than 5 seconds
    after [cacheTimestamp] returns [cacheData] and no error and leaves the
    world as it is, so nothing is sent upstream; hence, of two requests made
    less than 5 seconds apart, the first of which finds the cache expired
    and fetches successfully, the second is served from the cache: the two
    send exactly one request upstream, and both are dealt with. *)
Theorem fresh_cache_served_without_fetch :
  (forall (exChList : list string) (w : World),
      time.Sub (clock w) (cacheTimestamp w) < 5 * time.Second ->
      getCachedStockInfo exChList w = (Returns (cacheData w, None), w))
  /\ (forall (exChList : list string) (w w' : World) (d1 d2 : N)
             (infos : list StockInfo),
        5 * time.Second
          <= time.Sub (clock (idle d1 w)) (cacheTimestamp (idle d1 w)) ->
        fetchStockInfo exChList (idle d1 w) = (Returns (infos, None), w') ->
        (clock w' + Z.of_N d2) - clock (idle d1 w) < 5 * time.Second ->
        sent (snd (serve exChList [d1; d2] w))
          = fetchStockInfo_url exChList :: sent w
        /\ length (fst (serve exChList [d1; d2] w)) = 2%nat).
Proof.
  split; [exact getCachedStockInfo_hit|].
  intros exChList w w' d1 d2 infos Hold Hfetch Hapart.
  pose proof (getCachedStockInfo_refresh
                exChList (idle d1 w) w' infos Hold Hfetch) as [Hget Hw2].
  cbv zeta in Hw2. destruct Hw2 as (_ & Ht & _ & Hs).
  destruct (fetchStockInfo_world exChList (idle d1 w)) as (_ & _ & _ & _ & Hc).
  rewrite Hfetch in Hc. cbn [snd] in Hc.
  assert (Hrun1 : forall code, fst (handler exChList (idle d1 w)) <> Exits code).
  { rewrite (handler_after_get _ _ _ _ Hget). apply respond_world. }
  assert (Hc1 : clock (snd (handler exChList (idle d1 w))) = clock w').
  { rewrite (handler_after_get _ _ _ _ Hget).
    destruct (respond_world (infos, None)
                (with_cacheTimestamp (clock w') (with_cacheData infos w')))
      as [(Hc2 & _) _].
    rewrite Hc2. reflexivity. }
  set (w1 := snd (handler exChList (idle d1 w))) in *.
  assert (Hfresh : time.Sub (clock (idle d2 w1)) (cacheTimestamp (idle d2 w1))
                   < 5 * time.Second).
  { apply Sub_lt_ttl. cbn. rewrite Hc1, Ht. lia. }
  destruct (handler_hit exChList (idle d2 w1) Hfresh) as [(_ & _ & Hs2 & _) Hrun2].
  destruct (serve_cons exChList d1 [d2] w Hrun1) as [Hw Hn]. fold w1 in Hw, Hn.
  destruct (serve_cons exChList d2 [] w1 Hrun2) as [Hw' Hn'].
  rewrite Hw, Hw', Hn, Hn'. cbn [serve snd fst length].
  rewrite Hs2. cbn. rewrite Hs. cbn. auto.
Qed.

(** ** Failures *)

(** C1, on the code: when the cache has expired and [http.Get] returns an
    error, [fetchStockInfo] does not return: [log.Fatalf] ends the process
    with status 1.  The request is not answered (no 500), and no later
    request is. *)
Theorem transport_error_ends_process
    (exChList : list string) (w : World) (d : N) (later : list N) (e : error) :
  5 * time.Second
    <= time.Sub (clock (idle d w)) (cacheTimestamp (idle d w)) ->
  result (upstream w (length (sent w)) (fetchStockInfo_url exChList))
    = TransportError e ->
  fst (fetchStockInfo exChList (idle d w)) = Exits 1
  /\ fst (handler exChList (idle d w)) = Exits 1
  /\ fst (serve exChList (d :: later) w) = [ProcessExited 1].
Proof.
  intros Hold Hup.
  assert (Hfetch : fst (fetchStockInfo exChList (idle d w)) = Exits 1).
  { rewrite fetchStockInfo_eq. cbv zeta. cbn [idle with_clock upstream sent].
    rewrite Hup. reflexivity. }
  assert (Hhandler : fst (handler exChList (idle d w)) = Exits 1).
  { rewrite handler_eq. unfold bind at 1.
    rewrite getCachedStockInfo_miss by assumption. unfold bind at 1.
    destruct (fetchStockInfo exChList (idle d w)) as [o w1].
    cbn in Hfetch. subst o. reflexivity. }
  repeat split; try assumption.
  cbn [serve]. destruct (handler exChList (idle d w)) as [o w1].
  cbn in Hhandler. subst o. reflexivity.
Qed.

(** A response of any status whose body decodes is a successful fetch: the
    status code is not looked at. *)
Lemma fetchStockInfo_ignores_status
    (exChList : list string) (w : World) (code : Z) (body : string)
    (response : Response) :
  result (upstream w (length (sent w)) (fetchStockInfo_url exChList))
    = HttpResponse code (body, None) ->
  json_Unmarshal body = (response, None) ->
  fst (fetchStockInfo exChList w) = Returns (MsgArray response, None).
Proof.
  intros Hup Hjson. rewrite fetchStockInfo_eq. cbv zeta.
  rewrite Hup. cbn. rewrite Hjson. reflexivity.
Qed.

(** A body that does not decode is the one failure [fetchStockInfo] returns
    as an error. *)
Lemma fetchStockInfo_decode_error
    (exChList : list string) (w : World) (code : Z) (body : string)
    (response : Response) (e : error) :
  result (upstream w (length (sent w)) (fetchStockInfo_url exChList))
    = HttpResponse code (body, None) ->
  json_Unmarshal body = (response, Some e) ->
  fetchStockInfo exChList w
  = (Returns ([], Some (fmt.Sprintf "failed to unmarshal response: %v" [e])),
     answered (fetchStockInfo_url exChList) w).
Proof.
  intros Hup Hjson. rewrite fetchStockInfo_eq. cbv zeta.
  rewrite Hup. cbn. rewrite Hjson. reflexivity.
Qed.

(** The loop panics as soon as a metric name comes up that the registry
    already holds, or that is repeated among the records that follow,
    provided the prices up to there parse. *)
Lemma range_stockInfos_panics (pre rest : list StockInfo)
    (registry : gmap string Gauge) (w : World) :
  Forall (fun info => snd (strconv_ParseFloat (Pz info)) = None) pre ->
  ~ NoDup (map metricName pre)
  \/ (exists info, In info pre /\ is_Some (registry !! metricName info)) ->
  exists e,
    fst (range_stockInfos (pre ++ rest) registry w)
    = Panics (RegistrationPanic e).
Proof.
  revert registry w.
  induction pre as [|info pre IH]; intros registry w Hparse Hdup.
  - destruct Hdup as [Hdup | (info & [] & _)].
    destruct Hdup. constructor.
  - apply Forall_cons in Hparse as [Hinfo Hparse].
    cbn [app range_stockInfos].
    destruct (strconv_ParseFloat (Pz info)) as [price [err|]];
      [discriminate|].
    unfold bind, MustRegister, Register.
    cbn [Name opts Gauge_Set NewGauge].
    destruct (negb (model_IsValidMetricName (metricName info))).
    { eexists. reflexivity. }
    destruct (registry !! metricName info) as [g|] eqn:Hlook.
    { eexists. reflexivity. }
    cbv beta iota delta [ret]. apply IH; [assumption|].
    destruct Hdup as [Hdup | (info' & [Heq | Hin] & Hsome)].
    + cbn [map] in Hdup. rewrite NoDup_cons in Hdup.
      destruct (decide (metricName info ∈ map metricName pre)) as [Hel|Hnel].
      * right. apply list_elem_of_In, in_map_iff in Hel as (info' & Hname & Hin).
        exists info'. split; [assumption|].
        rewrite Hname, lookup_insert_eq. eauto.
      * left. tauto.
    + subst info'. rewrite Hlook in Hsome. now destruct Hsome.
    + right. exists info'. split; [assumption|].
      destruct (decide (metricName info = metricName info')) as [->|Hne].
      * rewrite lookup_insert_eq. eauto.
      * now rewrite lookup_insert_ne.
Qed.

(** Records whose prices parse and whose names are valid, distinct and not
    yet registered go into the registry, and the loop goes on with the
    records that follow. *)
Lemma range_stockInfos_registers (pre rest : list StockInfo)
    (registry : gmap string Gauge) (w : World) :
  Forall (fun info => snd (strconv_ParseFloat (Pz info)) = None) pre ->
  Forall (fun info => model_IsValidMetricName (metricName info) = true) pre ->
  NoDup (map metricName pre) ->
  Forall (fun info => registry !! metricName info = None) pre ->
  exists registry',
    range_stockInfos (pre ++ rest) registry w
    = range_stockInfos rest registry' w.
Proof.
  revert registry.
  induction pre as [|info pre IH]; intros registry Hparse Hvalid Hnodup Hfree.
  - exists registry. reflexivity.
  - apply Forall_cons in Hparse as [Hinfo Hparse].
    apply Forall_cons in Hvalid as [Hv Hvalid].
    apply Forall_cons in Hfree as [Hf Hfree].
    cbn [map] in Hnodup. apply NoDup_cons in Hnodup as [Hnotin Hnodup].
    cbn [app range_stockInfos].
    destruct (strconv_ParseFloat (Pz info)) as [price [err|]];
      [discriminate|].
    unfold bind, MustRegister, Register.
    cbn [Name opts Gauge_Set NewGauge].
    rewrite Hv, Hf. cbv beta iota delta [ret negb].
    apply IH; try assumption.
    rewrite Forall_forall in Hfree |- *. intros info' Hin.
    rewrite lookup_insert_ne; [now apply Hfree|].
    intros Heq. apply Hnotin. rewrite Heq.
    apply list_elem_of_In, in_map. now apply list_elem_of_In.
Qed.

(** X19: the case the handler provides for: the first record whose price does
    not parse is reached, the error of [ParseFloat] is logged, and the
    answer is a 500 with the fixed message and no metric. *)
Lemma unparsable_price_answers_500
    (exChList : list string) (w w1 : World) (pre post : list StockInfo)
    (bad : StockInfo) (err : error) :
  getCachedStockInfo exChList w = (Returns (pre ++ bad :: post, None), w1) ->
  Forall (fun info => snd (strconv_ParseFloat (Pz info)) = None) pre ->
  Forall (fun info => model_IsValidMetricName (metricName info) = true) pre ->
  NoDup (map metricName pre) ->
  snd (strconv_ParseFloat (Pz bad)) = Some err ->
  handler exChList w
  = (Returns (http_Error "Failed to parse price" StatusInternalServerError),
     with_logged (fmt.Sprintf "Failed to parse price: %v" [err] :: logged w1) w1).
Proof.
  intros Hget Hparse Hvalid Hnodup Hbad.
  rewrite (handler_after_get _ _ _ _ Hget). cbn [respond]. unfold bind at 1.
  destruct (range_stockInfos_registers pre (bad :: post) ∅ w1)
    as [registry' ->]; try assumption.
  { rewrite Forall_forall. intros info _. apply lookup_empty. }
  cbn [range_stockInfos].
  destruct (strconv_ParseFloat (Pz bad)) as [price [err'|]]; [|discriminate].
  cbn in Hbad. injection Hbad as ->. reflexivity.
Qed.

(** C4, on the code: a record whose price does not parse does not always
    get the request a 500.  When two of the records before it have the same
    metric name and prices that parse, the handler panics in [MustRegister]
    before it reaches the record: nothing is written, neither a 500 nor a
    metric. *)
Theorem unparsable_price_after_collision_panics
    (exChList : list string) (w w1 : World) (pre post : list StockInfo)
    (bad : StockInfo) (err : error) :
  getCachedStockInfo exChList w = (Returns (pre ++ bad :: post, None), w1) ->
  snd (strconv_ParseFloat (Pz bad)) = Some err ->
  Forall (fun info => snd (strconv_ParseFloat (Pz info)) = None) pre ->
  ~ NoDup (map metricName pre) ->
  (exists e, fst (handler exChList w) = Panics (RegistrationPanic e))
  /\ forall written, fst (handler exChList w) <> Returns written.
Proof.
  intros Hget _ Hparse Hdup.
  rewrite (handler_after_get _ _ _ _ Hget). cbn [respond]. unfold bind.
  destruct (range_stockInfos_panics pre (bad :: post) ∅ w1 Hparse
              (or_introl Hdup)) as [e He].
  destruct (range_stockInfos (pre ++ bad :: post) ∅ w1) as [o w2].
  cbn in He. subst o. cbn. split; [eauto | discriminate].
Qed.

(** C5, on the code: when the snapshot holds two records with the same
    metric name, and the prices up to the second of them parse, the handler
    panics in [MustRegister]: it writes no response at all, where an
    unparsable price gets a 500; the server closes the connection and goes
    on with the next request. *)
Theorem duplicate_metric_name_panics
    (exChList : list string) (w w1 : World) (d : N)
    (pre rest : list StockInfo) :
  getCachedStockInfo exChList (idle d w) = (Returns (pre ++ rest, None), w1) ->
  Forall (fun info => snd (strconv_ParseFloat (Pz info)) = None) pre ->
  ~ NoDup (map metricName pre) ->
  exists e,
    fst (handler exChList (idle d w)) = Panics (RegistrationPanic e)
    /\ fst (serve exChList [d] w) = [ConnectionAborted (RegistrationPanic e)].
Proof.
  intros Hget Hparse Hdup. cbn [serve].
  rewrite (handler_after_get _ _ _ _ Hget). cbn [respond]. unfold bind.
  destruct (range_stockInfos_panics pre rest ∅ w1 Hparse (or_introl Hdup))
    as [e He].
  exists e. destruct (range_stockInfos (pre ++ rest) ∅ w1) as [o w2].
  cbn in He. subst o. split; reflexivity.
Qed.

End PipelineProperties.

(** ** Several requests at once *)

Import Concurrent.

Lemma count_insert (p : Goroutine -> bool) (gs : list Goroutine) (i : nat)
    (g g' : Goroutine) :
  gs !! i = Some g ->
  (count p (<[i := g']> gs) + (if p g then 1 else 0)
   = count p gs + (if p g' then 1 else 0))%nat.
Proof.
  revert i. induction gs as [|g0 gs IH]; intros [|i] Hi; try discriminate.
  - injection Hi as ->. cbn. destruct (p g), (p g'); lia.
  - specialize (IH i Hi).
    change (<[S i := g']> (g0 :: gs)) with (g0 :: <[i := g']> gs).
    cbn [count]. revert IH.
    destruct (p g), (p g'), (p g0); lia.
Qed.

Lemma count_lookup (p : Goroutine -> bool) (gs : list Goroutine) (i : nat)
    (g : Goroutine) :
  gs !! i = Some g -> p g = true -> (1 <= count p gs)%nat.
Proof.
  revert i. induction gs as [|g0 gs IH]; intros [|i] Hi Hp; try discriminate.
  - injection Hi as ->. cbn. rewrite Hp. lia.
  - cbn in Hi |- *. specialize (IH i Hi Hp). lia.
Qed.

Lemma count_mono (p q : Goroutine -> bool) (gs : list Goroutine) :
  (forall g, p g = true -> q g = true) -> (count p gs <= count q gs)%nat.
Proof.
  intros Hpq. induction gs as [|g gs IH]; cbn; [lia|].
  specialize (Hpq g). destruct (p g), (q g); lia.
Qed.

Lemma count_replicate_arrived (p : Goroutine -> bool) (n : nat) :
  p Arrived = false -> count p (replicate n Arrived) = 0%nat.
Proof. intros Hp. induction n as [|n IH]; cbn; [|rewrite Hp]; auto. Qed.

Ltac simpl_system :=
  cbn [world cacheMutex goroutines exited return_unlock].

Section ConcurrentProperties.
Context `{GoLibrary}.

Lemma test_cache_eq (exChList : list string) (i : nat) (s : System) :
  test_cache exChList i s
  = if time.Sub (clock (world s)) (cacheTimestamp (world s)) <? 5 * time.Second
    then Some (return_unlock i (cacheData (world s), None) (world s) s)
    else Some {| world := with_sent (fetchStockInfo_url exChList
                                       :: sent (world s)) (world s);
                 cacheMutex := cacheMutex s;
                 goroutines := <[i := Fetching (length (sent (world s)))]>
                                 (goroutines s);
                 exited := exited s |}.
Proof.
  unfold test_cache. rewrite cache_is_fresh_eq.
  destruct (_ <? _); reflexivity.
Qed.

(** What the rest of [getCachedStockInfo] does to the world once the reply
    to the request is there. *)
Lemma receive_world (exChList : list string) (n : nat) (w : World) :
  let '(o, w') := (r <- http_receive n (fetchStockInfo_url exChList) ;;
                   r <- fetchStockInfo_result r ;;
                   getCachedStockInfo_store r) w in
  sent w' = sent w /\ clock w <= clock w'
  /\ match o with
     | Returns (infos, None) => cacheTimestamp w' = clock w'
     | Returns (_, Some _) => cacheTimestamp w' = cacheTimestamp w
     | Exits _ => True
     | Panics _ => False
     end.
Proof.
  unfold bind, http_receive, fetchStockInfo_result.
  pose proof (N2Z.is_nonneg (latency (upstream w n (fetchStockInfo_url exChList)))).
  destruct (result (upstream w n (fetchStockInfo_url exChList)))
    as [e|code [body [e|]]]; cbn; try (repeat split; lia).
  destruct (json_Unmarshal body) as [response [e|]]; cbn; repeat split; lia.
Qed.

Lemma step_mutex (exChList : list string) (e : Event) (s s' : System) :
  mutex_held_by_one s -> step exChList e s = Some s' -> mutex_held_by_one s'.
Proof.
  unfold mutex_held_by_one, step. intros Hinv Hstep.
  destruct (exited s); [discriminate|].
  destruct e as [d|i]; [injection Hstep as <-; exact Hinv|].
  destruct (goroutines s !! i) as [[| |n|r]|] eqn:Hi; try discriminate.
  - unfold lock in Hstep. destruct (cacheMutex s); [discriminate|].
    injection Hstep as <-. cbn.
    pose proof (count_insert holds_mutex _ _ _ Locked Hi). cbn in *. lia.
  - pose proof (count_lookup holds_mutex _ _ _ Hi eq_refl) as Hge.
    rewrite test_cache_eq in Hstep.
    destruct (_ <? _); injection Hstep as <-; cbn.
    + pose proof (count_insert holds_mutex _ _ _
                    (Finished (cacheData (world s), None)) Hi).
      cbn in *. destruct (cacheMutex s); lia.
    + pose proof (count_insert holds_mutex _ _ _
                    (Fetching (length (sent (world s)))) Hi).
      cbn in *. lia.
  - pose proof (count_lookup holds_mutex _ _ _ Hi eq_refl) as Hge.
    unfold receive in Hstep.
    destruct (bind _ _ (world s)) as [[r'|code|v] w']; try discriminate;
      injection Hstep as <-; cbn; [|assumption].
    pose proof (count_insert holds_mutex _ _ _ (Finished r') Hi).
    cbn in *. destruct (cacheMutex s); lia.
Qed.

Lemma run_mutex (exChList : list string) (es : list Event) (s s' : System) :
  mutex_held_by_one s -> run exChList es s = Some s' -> mutex_held_by_one s'.
Proof.
  revert s. induction es as [|e es IH]; intros s Hinv Hrun; cbn in Hrun.
  - now injection Hrun as <-.
  - destruct (step exChList e s) as [s1|] eqn:Hstep; [|discriminate].
    eauto using step_mutex.
Qed.

Lemma step_clock (exChList : list string) (e : Event) (s s' : System) :
  step exChList e s = Some s' -> clock (world s) <= clock (world s').
Proof.
  unfold step. intros Hstep.
  destruct (exited s); [discriminate|].
  destruct e as [d|i].
  - injection Hstep as <-. cbn. lia.
  - destruct (goroutines s !! i) as [[| |n|r]|]; try discriminate.
    + unfold lock in Hstep. destruct (cacheMutex s); [discriminate|].
      injection Hstep as <-. cbn. lia.
    + rewrite test_cache_eq in Hstep.
      destruct (_ <? _); injection Hstep as <-; cbn; lia.
    + unfold receive in Hstep.
      pose proof (receive_world exChList n (world s)) as Hw.
      destruct (bind _ _ (world s)) as [[r'|code|v] w']; try discriminate;
        injection Hstep as <-; cbn; tauto.
Qed.

Lemma elapse_nonneg (e : Event) : 0 <= elapse e.
Proof. destruct e; cbn; lia. Qed.

Lemma step_disturbed (exChList : list string) (waited : Z) (e : Event)
    (s s' : System) :
  disturbed waited s -> step exChList e s = Some s' ->
  disturbed (waited + elapse e) s'.
Proof.
  intros Hd Hstep. pose proof (elapse_nonneg e) as Hnonneg.
  destruct Hd as [Hex | [Hlate | (j & r & err & Hj)]].
  - unfold step in Hstep. destruct (exited s); [discriminate | now destruct Hex].
  - right. left. lia.
  - right. right. exists j, r, err.
    unfold step in Hstep. destruct (exited s); [discriminate|].
    destruct e as [d|i]; [now injection Hstep as <-|].
    destruct (decide (i = j)) as [->|Hne].
    { rewrite Hj in Hstep. discriminate. }
    destruct (goroutines s !! i) as [[| |n|r0]|]; try discriminate.
    + unfold lock in Hstep. destruct (cacheMutex s); [discriminate|].
      injection Hstep as <-. cbn. now rewrite list_lookup_insert_ne.
    + rewrite test_cache_eq in Hstep.
      destruct (_ <? _); injection Hstep as <-; cbn;
        now rewrite list_lookup_insert_ne.
    + unfold receive in Hstep.
      destruct (bind _ _ (world s)) as [[r'|code|v] w']; try discriminate;
        injection Hstep as <-; cbn; [|assumption].
      now rewrite list_lookup_insert_ne.
Qed.

Lemma others_arrived_insert (i : nat) (g : Goroutine) (w : World) (m : bool)
    (x : option Z) (s : System) :
  others_arrived i s ->
  others_arrived i {| world := w; cacheMutex := m;
                      goroutines := <[i := g]> (goroutines s); exited := x |}.
Proof.
  intros Hothers j g' Hne Hj. cbn in Hj.
  rewrite list_lookup_insert_ne in Hj by congruence. eauto.
Qed.

Lemma others_arrived_unique (i j : nat) (g : Goroutine) (s : System) :
  others_arrived i s -> goroutines s !! j = Some g -> g <> Arrived -> j = i.
Proof.
  intros Hothers Hj Hg. destruct (decide (j = i)) as [|Hne]; [assumption|].
  destruct Hg. eauto.
Qed.

Lemma expired_stays_expired (w0 : World) (now : time.Time) :
  5 * time.Second <= time.Sub (clock w0) (cacheTimestamp w0) ->
  clock w0 <= now ->
  (time.Sub now (cacheTimestamp w0) <? 5 * time.Second) = false.
Proof.
  intros Hold Hnow. apply Z.ltb_ge.
  assert (~ clock w0 - cacheTimestamp w0 < 5 * time.Second)
    by (rewrite <- Sub_lt_ttl; lia).
  assert (~ now - cacheTimestamp w0 < 5 * time.Second) by lia.
  rewrite <- Sub_lt_ttl in *. lia.
Qed.

Lemma step_stage (exChList : list string) (w0 : World) (waited : Z)
    (e : Event) (s s' : System) :
  5 * time.Second <= time.Sub (clock w0) (cacheTimestamp w0) ->
  clock w0 <= clock (world s) ->
  0 <= waited ->
  burst_stage exChList w0 waited s ->
  step exChList e s = Some s' ->
  disturbed (waited + elapse e) s'
  \/ burst_stage exChList w0 (waited + elapse e) s'.
Proof.
  intros Hold Hclock Hwaited Hstage Hstep.
  pose proof (elapse_nonneg e) as Hnonneg.
  destruct (Z.lt_ge_cases waited (5 * time.Second)) as [Hsoon|Hlate].
  2:{ left. right. left. lia. }
  unfold step in Hstep. destruct (exited s) eqn:Hex; [discriminate|].
  destruct e as [d|i].
  { (* time passes *)
    injection Hstep as <-. right.
    destruct Hstage as [Hstage | [Hstage | [Hstage | (Hs & Ht & Hall)]]];
      [now left | now right; left | now right; right; left |].
    right. right. right. cbn in *. repeat split; try assumption. lia. }
  cbn [elapse]. rewrite Z.add_0_r.
  destruct (goroutines s !! i) as [[| |n|r]|] eqn:Hi; try discriminate.
  - (* cacheMutex.Lock() *)
    unfold lock in Hstep. destruct (cacheMutex s) eqn:Hm; [discriminate|].
    injection Hstep as <-. right.
    destruct Hstage as [(_ & Hs & Ht & Hall) | [(Hm' & _) | [(Hm' & _) | (Hs & Ht & Hall)]]];
      try congruence.
    + right. left. simpl_system. repeat split; try assumption.
      exists i. split.
      * apply list_lookup_insert_eq. eauto using lookup_lt_Some.
      * apply others_arrived_insert. intros j g _ Hj. eauto.
    + right. right. right. simpl_system. repeat split; try assumption.
      intros j g Hj.
      apply list_lookup_insert_Some in Hj as [(_ & <- & _) | (_ & Hj)]; eauto.
  - (* the test of the age of the cache *)
    rewrite test_cache_eq in Hstep.
    destruct Hstage as [(_ & _ & _ & Hall) | [(Hm & Hs & Ht & i0 & Hi0 & Hothers)
                        | [(_ & _ & i0 & n & Hi0 & Hothers) | (Hs & Ht & Hall)]]].
    + specialize (Hall _ _ Hi). discriminate.
    + rewrite Ht, (expired_stays_expired w0 _ Hold Hclock) in Hstep.
      injection Hstep as <-. right. right. right. left. simpl_system.
      assert (i = i0) as -> by (eapply others_arrived_unique; eauto; discriminate).
      repeat split; [assumption | now rewrite Hs |].
      exists i0, (length (sent (world s))). split.
      * apply list_lookup_insert_eq. eauto using lookup_lt_Some.
      * now apply others_arrived_insert.
    + assert (i = i0) as -> by (eapply others_arrived_unique; eauto; discriminate).
      congruence.
    + assert (Hfresh : (time.Sub (clock (world s)) (cacheTimestamp (world s))
                        <? 5 * time.Second) = true).
      { apply Z.ltb_lt, Sub_lt_ttl. lia. }
      rewrite Hfresh in Hstep. injection Hstep as <-.
      right. right. right. right. simpl_system. repeat split; try assumption.
      intros j g Hj.
      apply list_lookup_insert_Some in Hj as [(_ & <- & _) | (_ & Hj)]; eauto.
  - (* the reply of the upstream *)
    destruct Hstage as [(_ & _ & _ & Hall) | [(Hm & Hs & Ht & i0 & Hi0 & Hothers)
                        | [(Hm & Hs & i0 & n0 & Hi0 & Hothers) | (Hs & Ht & Hall)]]].
    + specialize (Hall _ _ Hi). discriminate.
    + assert (i = i0) as -> by (eapply others_arrived_unique; eauto; discriminate).
      congruence.
    + assert (i = i0) as -> by (eapply others_arrived_unique; eauto; discriminate).
      unfold receive in Hstep.
      pose proof (receive_world exChList n (world s)) as Hw.
      destruct (bind _ _ (world s)) as [[[infos [err|]]|code|v] w'];
        try discriminate; injection Hstep as <-; destruct Hw as (Hs' & Hc' & Ht').
      * left. right. right. exists i0, infos, err. simpl_system.
        apply list_lookup_insert_eq. eauto using lookup_lt_Some.
      * right. right. right. right. simpl_system.
        split; [congruence | split; [lia|]].
        intros j g Hj.
        apply list_lookup_insert_Some in Hj as [(_ & <- & _) | (Hne & Hj)]; eauto.
      * left. left. simpl_system. discriminate.
    + destruct (Hall _ _ Hi) as [? | [? | (? & ?)]]; discriminate.
Qed.

Lemma run_burst (exChList : list string) (w0 : World) (es : list Event)
    (waited : Z) (s s' : System) :
  5 * time.Second <= time.Sub (clock w0) (cacheTimestamp w0) ->
  burst_invariant exChList w0 waited s ->
  run exChList es s = Some s' ->
  burst_invariant exChList w0 (waited + waiting es) s'.
Proof.
  intros Hold. revert waited s.
  induction es as [|e es IH]; intros waited s Hinv Hrun; cbn in Hrun.
  - injection Hrun as <-. cbn [waiting]. now rewrite Z.add_0_r.
  - destruct (step exChList e s) as [s1|] eqn:Hstep; [|discriminate].
    cbn [waiting]. rewrite Z.add_assoc.
    apply (IH _ s1); [|assumption].
    destruct Hinv as (Hclock & Hwaited & Hinv).
    pose proof (elapse_nonneg e).
    split; [pose proof (step_clock _ _ _ _ Hstep); lia|].
    split; [lia|].
    destruct Hinv as [Hd|Hstage].
    + left. eauto using step_disturbed.
    + eauto using step_stage.
Qed.

Lemma step_length (exChList : list string) (e : Event) (s s' : System) :
  step exChList e s = Some s' ->
  length (goroutines s') = length (goroutines s).
Proof.
  unfold step. intros Hstep.
  destruct (exited s); [discriminate|].
  destruct e as [d|i]; [now injection Hstep as <-|].
  destruct (goroutines s !! i) as [[| |n|r]|]; try discriminate.
  - unfold lock in Hstep. destruct (cacheMutex s); [discriminate|].
    injection Hstep as <-. apply length_insert.
  - rewrite test_cache_eq in Hstep.
    destruct (_ <? _); injection Hstep as <-; apply length_insert.
  - unfold receive in Hstep.
    destruct (bind _ _ (world s)) as [[r'|code|v] w']; try discriminate;
      injection Hstep as <-; [apply length_insert | reflexivity].
Qed.

(** A process that has exited has left a goroutine in its fetch. *)
Lemma step_exited (exChList : list string) (e : Event) (s s' : System) :
  exited s = None ->
  step exChList e s = Some s' ->
  exited s' <> None ->
  exists i n, goroutines s' !! i = Some (Fetching n).
Proof.
  unfold step. intros Hrunning Hstep Hex. rewrite Hrunning in Hstep.
  destruct e as [d|i]; [injection Hstep as <-; now destruct Hex|].
  destruct (goroutines s !! i) as [[| |n|r]|] eqn:Hi; try discriminate.
  - unfold lock in Hstep. destruct (cacheMutex s); [discriminate|].
    injection Hstep as <-. now destruct Hex.
  - rewrite test_cache_eq in Hstep.
    destruct (_ <? _); injection Hstep as <-; now destruct Hex.
  - unfold receive in Hstep.
    destruct (bind _ _ (world s)) as [[r'|code|v] w']; try discriminate;
      injection Hstep as <-; [now destruct Hex | eauto].
Qed.

Lemma run_facts (exChList : list string) (es : list Event) (s s' : System) :
  run exChList es s = Some s' ->
  length (goroutines s') = length (goroutines s)
  /\ (exited s = None -> exited s' <> None ->
      exists i n, goroutines s' !! i = Some (Fetching n)).
Proof.
  revert s. induction es as [|e es IH]; intros s Hrun; cbn in Hrun.
  - injection Hrun as <-. split; [reflexivity | congruence].
  - destruct (step exChList e s) as [s1|] eqn:Hstep; [|discriminate].
    destruct (IH _ Hrun) as [Hlen Hexit].
    split; [rewrite Hlen; eauto using step_length|].
    intros Hrunning Hex.
    destruct (exited s1) eqn:Hex1; [|now apply Hexit].
    destruct es as [|e' es]; cbn in Hrun.
    + injection Hrun as <-.
      apply (step_exited _ _ _ _ Hrunning Hstep). congruence.
    + unfold step in Hrun. rewrite Hex1 in Hrun. discriminate.
Qed.

Lemma arrivals_mutex (n : nat) (w : World) : mutex_held_by_one (arrivals n w).
Proof. apply count_replicate_arrived. reflexivity. Qed.

Lemma arrivals_burst (exChList : list string) (n : nat) (w : World) :
  burst_invariant exChList w 0 (arrivals n w).
Proof.
  split; [cbn; lia|]. split; [lia|]. right. left. cbn. repeat split.
  intros j g Hj. now apply lookup_replicate_1 in Hj as [-> _].
Qed.

(** A request that is alone goes through the steps of the sequential
    [getCachedStockInfo]. *)
Lemma alone_as_sequential (exChList : list string) (w w' : World)
    (r : list StockInfo * option error) :
  getCachedStockInfo exChList w = (Returns r, w') ->
  exists es,
    run exChList es (arrivals 1 w)
    = Some {| world := w'; cacheMutex := false; goroutines := [Finished r];
              exited := None |}.
Proof.
  intros Hget.
  destruct (Z.lt_ge_cases (time.Sub (clock w) (cacheTimestamp w))
              (5 * time.Second)) as [Hfresh|Hold].
  - rewrite getCachedStockInfo_hit in Hget by assumption.
    injection Hget as <- <-. exists [Run 0%nat; Run 0%nat].
    cbn [run step arrivals exited goroutines replicate lookup list_lookup lock
         cacheMutex world].
    rewrite test_cache_eq. simpl_system.
    apply Z.ltb_lt in Hfresh. rewrite Hfresh. reflexivity.
  - rewrite getCachedStockInfo_miss in Hget by assumption.
    exists [Run 0%nat; Run 0%nat; Run 0%nat].
    cbn [run step arrivals exited goroutines replicate lookup list_lookup lock
         cacheMutex world].
    rewrite test_cache_eq. simpl_system.
    apply Z.ltb_ge in Hold. rewrite Hold.
    cbn [run step exited goroutines lookup list_lookup insert list_insert].
    unfold receive. simpl_system.
    change ((r <- http_receive (length (sent w)) (fetchStockInfo_url exChList) ;;
             r <- fetchStockInfo_result r ;;
             getCachedStockInfo_store r)
              (with_sent (fetchStockInfo_url exChList :: sent w) w))
      with ((r <- fetchStockInfo exChList ;; getCachedStockInfo_store r) w).
    rewrite Hget. reflexivity.
Qed.

(** C9, amended: however the goroutines of [n] simultaneous requests are
    scheduled, at most one of them is waiting for the upstream at any time,
    and a goroutine that tests the cache or waits for the upstream holds
    [cacheMutex]; and when the requests arrive with the cache expired, every
    one of them returns a snapshot and no error, and the time they spend
    waiting to be scheduled adds up to less than 5 seconds (whatever time
    the upstream takes), exactly one request was sent upstream. *)
Theorem one_fetch_in_flight_one_fetch_per_burst
    (exChList : list string) (n : nat) (w : World) (es : list Event)
    (s : System) :
  run exChList es (arrivals n w) = Some s ->
  (count in_flight (goroutines s) <= 1)%nat
  /\ (forall i g, goroutines s !! i = Some g -> holds_mutex g = true ->
                 cacheMutex s = true)
  /\ (5 * time.Second <= time.Sub (clock w) (cacheTimestamp w) ->
      (0 < n)%nat ->
      (forall i g, goroutines s !! i = Some g -> got_snapshot g = true) ->
      waiting es < 5 * time.Second ->
      sent (world s) = fetchStockInfo_url exChList :: sent w).
Proof.
  intros Hrun.
  pose proof (run_mutex _ _ _ _ (arrivals_mutex n w) Hrun) as Hmutex.
  unfold mutex_held_by_one in Hmutex.
  split; [|split].
  - transitivity (count holds_mutex (goroutines s)).
    + apply count_mono. now intros [].
    + rewrite Hmutex. destruct (cacheMutex s); lia.
  - intros i g Hi Hg. pose proof (count_lookup _ _ _ _ Hi Hg) as Hge.
    rewrite Hmutex in Hge. destruct (cacheMutex s); [reflexivity | lia].
  - intros Hold Hn Hall Hsoon.
    destruct (run_facts _ _ _ _ Hrun) as [Hlen Hexit].
    cbn [arrivals goroutines exited] in Hlen, Hexit.
    rewrite length_replicate in Hlen.
    destruct (lookup_lt_is_Some_2 (goroutines s) 0%nat) as [g0 Hg0]; [lia|].
    destruct (run_burst _ _ _ _ _ _ Hold (arrivals_burst exChList n w) Hrun)
      as (_ & _ & [Hd | Hstage]).
    + destruct Hd as [Hex | [Hlate | (j & r & err & Hj)]].
      * destruct (Hexit eq_refl Hex) as (i & m & Hi).
        specialize (Hall _ _ Hi). discriminate.
      * lia.
      * specialize (Hall _ _ Hj). discriminate.
    + destruct Hstage as [(_ & _ & _ & Harr) | [(_ & _ & _ & i0 & Hi0 & _)
                          | [(_ & _ & i0 & m & Hi0 & _) | (Hs & _)]]].
      * rewrite (Harr _ _ Hg0) in Hg0. specialize (Hall _ _ Hg0). discriminate.
      * specialize (Hall _ _ Hi0). discriminate.
      * specialize (Hall _ _ Hi0). discriminate.
      * assumption.
Qed.

End ConcurrentProperties.

(** * Further properties of the pipeline *)

(** ** The request sent upstream *)

Lemma Join_cons (x y : string) (rest : list string) (sep : string) :
  strings.Join (x :: y :: rest) sep = x +:+ sep +:+ strings.Join (y :: rest) sep.
Proof. reflexivity. Qed.

Lemma Join_app (xs ys : list string) (sep : string) :
  xs <> [] -> ys <> [] ->
  strings.Join (xs ++ ys) sep
  = strings.Join xs sep +:+ sep +:+ strings.Join ys sep.
Proof.
  intros Hxs Hys. induction xs as [|x xs IH]; [now destruct Hxs|].
  destruct xs as [|x' xs].
  - destruct ys as [|y ys]; [now destruct Hys|]. reflexivity.
  - change ((x :: x' :: xs) ++ ys) with (x :: x' :: (xs ++ ys)).
    rewrite !Join_cons.
    change (x' :: xs ++ ys) with ((x' :: xs) ++ ys).
    rewrite IH by discriminate. now rewrite !append_assoc.
Qed.

Lemma fetchStockInfo_url_eq (exChList : list string) :
  fetchStockInfo_url exChList
  = "http://mis.twse.com.tw/stock/api/getStockInfo.jsp?ex_ch="
      +:+ strings.Join exChList "|".
Proof.
  unfold fetchStockInfo_url. cbn. now rewrite append_nil_r.
Qed.

Lemma Join_spelled_out (x : string) (rest : list string) (sep : string) :
  strings.Join (x :: rest) sep
  = x +:+ foldr (fun y s => sep +:+ y +:+ s) "" rest.
Proof.
  revert x. induction rest as [|y rest IH]; intros x.
  - cbn. now rewrite append_nil_r.
  - rewrite Join_cons, IH. reflexivity.
Qed.

(** X1: the URL [fetchStockInfo] requests is the fixed endpoint
    [http://mis.twse.com.tw/stock/api/getStockInfo.jsp?ex_ch=] followed by
    the identifiers as they are (nothing is escaped), in the order of the
    list, with a [|] before every identifier but the first; an empty list
    gives the endpoint alone.  So, for two non-empty lists, the URL of
    their concatenation is the URL of the first, a [|], and the second
    joined. *)
Theorem fetchStockInfo_url_spelled_out (xs ys : list string) :
  xs <> [] -> ys <> [] ->
  fetchStockInfo_url []
  = "http://mis.twse.com.tw/stock/api/getStockInfo.jsp?ex_ch="
  /\ (forall x rest,
        fetchStockInfo_url (x :: rest)
        = "http://mis.twse.com.tw/stock/api/getStockInfo.jsp?ex_ch=" +:+ x
            +:+ foldr (fun y s => "|" +:+ y +:+ s) "" rest)
  /\ fetchStockInfo_url (xs ++ ys)
     = fetchStockInfo_url xs +:+ "|" +:+ strings.Join ys "|".
Proof.
  intros Hxs Hys. split; [reflexivity|]. split.
  - intros x rest. now rewrite fetchStockInfo_url_eq, Join_spelled_out.
  - rewrite !fetchStockInfo_url_eq, Join_app by assumption.
    now rewrite append_assoc.
Qed.

Section MorePipelineProperties.
Context `{GoLibrary}.

(** ** Failures of the fetch *)

(** X2: when the cache has expired and reading the body of the response
    fails, [fetchStockInfo] does not return: [log.Fatalf] logs the error and
    ends the process with status 1; the request is not answered, and no
    later request is. *)
Theorem read_error_ends_process
    (exChList : list string) (w : World) (d : N) (later : list N)
    (code : Z) (body : string) (e : error) :
  5 * time.Second
    <= time.Sub (clock (idle d w)) (cacheTimestamp (idle d w)) ->
  result (upstream w (length (sent w)) (fetchStockInfo_url exChList))
    = HttpResponse code (body, Some e) ->
  fst (handler exChList (idle d w)) = Exits 1
  /\ logged (snd (handler exChList (idle d w)))
     = fmt.Sprintf "Failed to read response body: %v" [e] :: logged w
  /\ fst (serve exChList (d :: later) w) = [ProcessExited 1].
Proof.
  intros Hold Hup.
  assert (Hhandler : handler exChList (idle d w)
                     = (Exits 1,
                        with_logged
                          (fmt.Sprintf "Failed to read response body: %v" [e]
                             :: logged w)
                          (answered (fetchStockInfo_url exChList) (idle d w)))).
  { rewrite handler_eq. unfold bind at 1.
    rewrite getCachedStockInfo_miss by assumption. unfold bind at 1.
    rewrite fetchStockInfo_eq. cbv zeta. cbn [idle with_clock upstream sent].
    rewrite Hup. reflexivity. }
  split; [now rewrite Hhandler|]. split; [now rewrite Hhandler|].
  cbn [serve]. now rewrite Hhandler.
Qed.

(** The process ends in [fetchStockInfo] exactly on those results. *)
Lemma fetchStockInfo_result_exits (r : HttpResult) (w : World) :
  match fst (fetchStockInfo_result r w) with
  | Returns _ => fatal_result r = false
  | Exits code => code = 1 /\ fatal_result r = true
  | Panics _ => False
  end.
Proof.
  destruct r as [e|code [body [e|]]]; cbn; auto.
  destruct (json_Unmarshal body) as [response [e|]]; reflexivity.
Qed.

Lemma getCachedStockInfo_store_returns (r : list StockInfo * option error)
    (w : World) :
  exists r' w', getCachedStockInfo_store r w = (Returns r', w').
Proof. destruct r as [infos [e|]]; cbn; eauto. Qed.

(** X13: a request ends the process exactly when it finds the cache
    expired and [http.Get] or [io.ReadAll] fails; the status is then 1.
    Nothing else in the pipeline ends the process. *)
Theorem handler_exits_iff (exChList : list string) (w : World) (code : Z) :
  fst (handler exChList w) = Exits code
  <-> code = 1
      /\ 5 * time.Second <= time.Sub (clock w) (cacheTimestamp w)
      /\ fatal_result
           (result (upstream w (length (sent w)) (fetchStockInfo_url exChList)))
         = true.
Proof.
  destruct (Z.lt_ge_cases (time.Sub (clock w) (cacheTimestamp w))
              (5 * time.Second)) as [Hfresh|Hold].
  - destruct (handler_hit exChList w Hfresh) as [_ Hrun].
    split; [intros Hex; now destruct (Hrun code) | lia].
  - rewrite handler_eq. unfold bind at 1.
    rewrite getCachedStockInfo_miss by assumption. unfold bind at 1.
    rewrite fetchStockInfo_eq. cbv zeta.
    pose proof (fetchStockInfo_result_exits
                  (result (upstream w (length (sent w))
                             (fetchStockInfo_url exChList)))
                  (answered (fetchStockInfo_url exChList) w)) as Hres.
    destruct (fetchStockInfo_result _ _) as [[r|code'|v] w1]; cbn [fst] in Hres.
    + destruct (getCachedStockInfo_store_returns r w1) as (r' & w2 & ->).
      destruct (respond_world r' w2) as [_ Hrun].
      split; [intros Hex; now destruct (Hrun code) | intros (_ & _ & Hf); congruence].
    + destruct Hres as [-> Hf]. cbn.
      split; [intros [= <-]; auto | intros (-> & _); reflexivity].
    + destruct Hres.
Qed.

(** ** The transformation of a snapshot *)

(** What the loop does depends on the records and the registry only; the
    world gets at most one more log line. *)
Lemma range_stockInfos_pure (stockInfos : list StockInfo)
    (registry : gmap string Gauge) :
  exists o lines,
    (length lines <= 1)%nat
    /\ forall w,
         fst (range_stockInfos stockInfos registry w) = o
         /\ logged (snd (range_stockInfos stockInfos registry w))
            = lines ++ logged w.
Proof.
  revert registry.
  induction stockInfos as [|info rest IH]; intros registry.
  - exists (Returns (inr registry)), []. cbn. auto.
  - cbn [range_stockInfos].
    destruct (strconv_ParseFloat (Pz info)) as [price [err|]].
    + eexists. exists [fmt.Sprintf "Failed to parse price: %v" [err]].
      split; [cbn; lia|]. intros w. cbn. split; reflexivity.
    + unfold MustRegister, bind.
      destruct (Register registry _) as [registry' [err|]].
      * eexists. exists []. split; [cbn; lia|]. intros w. cbn. split; reflexivity.
      * destruct (IH registry') as (o & lines & Hlen & Hrun).
        exists o, lines. split; [assumption|]. intros w. apply Hrun.
Qed.

Lemma respond_pure (r : list StockInfo * option error) :
  exists o lines,
    (length lines <= 1)%nat
    /\ forall w,
         fst (respond r w) = o
         /\ logged (snd (respond r w)) = lines ++ logged w.
Proof.
  destruct r as [infos [err|]]; cbn [respond].
  - eexists. exists [fmt.Sprintf "Error fetching stock info: %v" [err]].
    split; [cbn; lia|]. intros w. cbn. split; reflexivity.
  - destruct (range_stockInfos_pure infos ∅) as (o & lines & Hlen & Hrun).
    exists (match o with
            | Returns (inl written) => Returns written
            | Returns (inr registry) => Returns (promhttp_ServeHTTP registry)
            | Exits code => Exits code
            | Panics v => Panics v
            end), lines.
    split; [assumption|]. intros w. unfold bind.
    destruct (Hrun w) as [Ho Hl].
    destruct (range_stockInfos infos ∅ w) as [[[written|registry]|code|v] w'];
      cbn in *; subst o; auto.
Qed.

Lemma handler_fields (exChList : list string) (w : World) :
  let w1 := snd (getCachedStockInfo exChList w) in
  let w' := snd (handler exChList w) in
  clock w' = clock w1 /\ sent w' = sent w1
  /\ cacheData w' = cacheData w1 /\ cacheTimestamp w' = cacheTimestamp w1.
Proof.
  cbv zeta. rewrite handler_eq. unfold bind.
  destruct (getCachedStockInfo exChList w) as [[r|code|v] w1]; cbn [snd];
    [|tauto|tauto].
  destruct (respond_world r w1) as [(Hc & _ & Hs & Hd & Ht) _]. tauto.
Qed.

(** X7: once [getCachedStockInfo] has returned, the handler changes nothing
    but the log: the clock, the requests sent and the two cache variables
    are, when the handler is done, what [getCachedStockInfo] left. *)
Theorem handler_changes_only_the_log (exChList : list string) (w : World) :
  same_but_log (snd (getCachedStockInfo exChList w))
    (snd (handler exChList w)).
Proof.
  rewrite handler_eq. unfold bind.
  destruct (getCachedStockInfo exChList w) as [[r|code|v] w1]; cbn [snd].
  - apply respond_world.
  - apply same_but_log_refl.
  - apply same_but_log_refl.
Qed.

(** ** The cache over time *)

(** What a call of [getCachedStockInfo] that finds the cache expired does
    to the world. *)
Lemma getCachedStockInfo_expired (exChList : list string) (w : World) :
  5 * time.Second <= time.Sub (clock w) (cacheTimestamp w) ->
  let '(o, w') := getCachedStockInfo exChList w in
  sent w' = fetchStockInfo_url exChList :: sent w
  /\ clock w <= clock w' /\ upstream w' = upstream w
  /\ match o with
     | Returns (infos, None) =>
         cacheData w' = infos /\ cacheTimestamp w' = clock w'
     | Returns (infos, Some _) =>
         infos = [] /\ cacheData w' = cacheData w
         /\ cacheTimestamp w' = cacheTimestamp w
     | Exits _ =>
         cacheData w' = cacheData w /\ cacheTimestamp w' = cacheTimestamp w
     | Panics _ => False
     end.
Proof.
  intros Hold. rewrite getCachedStockInfo_miss by assumption. unfold bind.
  pose proof (fetchStockInfo_world exChList w) as (Hs & Hd & Ht & Hu & Hc).
  pose proof (fetchStockInfo_eq exChList w) as Heq. cbv zeta in Heq.
  pose proof (fetchStockInfo_result_exits
                (result (upstream w (length (sent w))
                           (fetchStockInfo_url exChList)))
                (answered (fetchStockInfo_url exChList) w)) as Hres.
  rewrite <- Heq in Hres.
  destruct (fetchStockInfo exChList w) as [[[infos [err|]]|code|v] w1];
    cbn in *; repeat split; auto.
Qed.

(** X4: whether [getCachedStockInfo] sends a request is decided by the time
    elapsed since [cacheTimestamp], as if it were computed without bounds:
    a request is sent exactly when 5 seconds or more have elapsed.  The
    saturation of [time.Since] at the bounds of a [Duration] (which the
    zero [cacheTimestamp] of a new process reaches) changes nothing. *)
Theorem fetch_decided_by_elapsed_time (exChList : list string) (w : World) :
  sent (snd (getCachedStockInfo exChList w))
  = if clock w - cacheTimestamp w <? 5 * time.Second
    then sent w
    else fetchStockInfo_url exChList :: sent w.
Proof.
  destruct (Z.ltb_spec (clock w - cacheTimestamp w) (5 * time.Second))
    as [Hfresh|Hold].
  - apply Sub_lt_ttl in Hfresh.
    now rewrite getCachedStockInfo_hit by assumption.
  - assert (Hold' : 5 * time.Second
                    <= time.Sub (clock w) (cacheTimestamp w)).
    { destruct (Z.lt_ge_cases (time.Sub (clock w) (cacheTimestamp w))
                  (5 * time.Second)) as [Hlt|]; [|assumption].
      apply Sub_lt_ttl in Hlt. lia. }
    pose proof (getCachedStockInfo_expired exChList w Hold') as Hexp.
    destruct (getCachedStockInfo exChList w) as [o w']. apply Hexp.
Qed.

(** X5: the records [getCachedStockInfo] returns without an error are the
    records the cache holds when it returns, and the cache is then less
    than 5 seconds old. *)
Theorem returned_snapshot_is_cached_and_fresh
    (exChList : list string) (w w' : World) (infos : list StockInfo) :
  getCachedStockInfo exChList w = (Returns (infos, None), w') ->
  cacheData w' = infos
  /\ clock w' - cacheTimestamp w' < 5 * time.Second.
Proof.
  intros Hget.
  destruct (Z.lt_ge_cases (time.Sub (clock w) (cacheTimestamp w))
              (5 * time.Second)) as [Hfresh|Hold].
  - rewrite getCachedStockInfo_hit in Hget by assumption.
    injection Hget as <- <-. split; [reflexivity | now apply Sub_lt_ttl].
  - pose proof (getCachedStockInfo_expired exChList w Hold) as Hexp.
    rewrite Hget in Hexp. destruct Hexp as (_ & _ & _ & Hd & Ht).
    split; [assumption|]. rewrite Ht. unfold time.Second. lia.
Qed.

(** One request keeps [cacheTimestamp] between its former value and the
    clock, and sends at most one request, to the URL of the
    configuration. *)
Lemma handler_step (exChList : list string) (w : World) :
  let w' := snd (handler exChList w) in
  clock w <= clock w'
  /\ (cacheTimestamp w <= clock w ->
      cacheTimestamp w <= cacheTimestamp w' <= clock w')
  /\ (sent w' = sent w \/ sent w' = fetchStockInfo_url exChList :: sent w).
Proof.
  cbv zeta.
  destruct (handler_fields exChList w) as (Hc & Hs & _ & Ht).
  rewrite Hc, Hs, Ht.
  destruct (Z.lt_ge_cases (time.Sub (clock w) (cacheTimestamp w))
              (5 * time.Second)) as [Hfresh|Hold].
  - rewrite getCachedStockInfo_hit by assumption. cbn. repeat split; auto; lia.
  - pose proof (getCachedStockInfo_expired exChList w Hold) as Hexp.
    destruct (getCachedStockInfo exChList w) as [o w1].
    destruct Hexp as (Hs1 & Hc1 & _ & Ho). cbn [snd].
    split; [assumption|]. split; [|now right].
    intros Hpast.
    destruct o as [[infos [err|]]|code|v]; [| | |now destruct Ho].
    + destruct Ho as (_ & _ & ->). lia.
    + destruct Ho as (_ & ->). lia.
    + destruct Ho as (_ & ->). lia.
Qed.

Lemma serve_step (exChList : list string) (d : N) (rest : list N) (w : World) :
  snd (serve exChList (d :: rest) w) = snd (handler exChList (idle d w))
  \/ snd (serve exChList (d :: rest) w)
     = snd (serve exChList rest (snd (handler exChList (idle d w)))).
Proof.
  cbn [serve].
  destruct (handler exChList (idle d w)) as [[written|code|v] w1]; cbn [snd].
  - right. now destruct (serve exChList rest w1).
  - now left.
  - right. now destruct (serve exChList rest w1).
Qed.

(** X6: while requests are served, [cacheTimestamp] never goes back and never
    runs ahead of the clock: if it is not in the future when the requests
    start, it is afterwards between its former value and the clock. *)
Theorem cacheTimestamp_advances_behind_the_clock
    (exChList : list string) (arrivals : list N) (w : World) :
  cacheTimestamp w <= clock w ->
  let w' := snd (serve exChList arrivals w) in
  cacheTimestamp w <= cacheTimestamp w' <= clock w'.
Proof.
  revert w. induction arrivals as [|d rest IH]; intros w Hpast; cbv zeta.
  - cbn. lia.
  - pose proof (handler_step exChList (idle d w)) as (_ & Hts & _).
    cbv zeta in Hts.
    change (cacheTimestamp (idle d w)) with (cacheTimestamp w) in Hts.
    change (clock (idle d w)) with (clock w + Z.of_N d) in Hts.
    pose proof (N2Z.is_nonneg d).
    assert (Hpast0 : cacheTimestamp w <= clock w + Z.of_N d) by lia.
    specialize (Hts Hpast0).
    destruct (serve_step exChList d rest w) as [-> | ->]; [lia|].
    assert (Hpast1 : cacheTimestamp (snd (handler exChList (idle d w)))
                     <= clock (snd (handler exChList (idle d w)))) by lia.
    specialize (IH _ Hpast1). cbv zeta in IH. lia.
Qed.

(** X9: serving a list of requests sends at most one request upstream per
    request served, each of them to the URL of the configured list. *)
Theorem serve_sends_at_most_one_request_each
    (exChList : list string) (arrivals : list N) (w : World) :
  exists k,
    (k <= length arrivals)%nat
    /\ sent (snd (serve exChList arrivals w))
       = replicate k (fetchStockInfo_url exChList) ++ sent w.
Proof.
  revert w. induction arrivals as [|d rest IH]; intros w.
  - exists 0%nat. cbn. auto.
  - pose proof (handler_step exChList (idle d w)) as (_ & _ & Hs).
    cbv zeta in Hs. change (sent (idle d w)) with (sent w) in Hs.
    destruct (IH (snd (handler exChList (idle d w)))) as (k & Hk & Hrest).
    destruct (serve_step exChList d rest w) as [-> | ->].
    + destruct Hs as [-> | ->]; [exists 0%nat | exists 1%nat];
        cbn [length replicate app]; split; (lia || reflexivity).
    + rewrite Hrest.
      destruct Hs as [-> | ->]; [exists k | exists (S k)];
        cbn [length]; split; try lia; [reflexivity|].
      change (fetchStockInfo_url exChList :: sent w)
        with ([fetchStockInfo_url exChList] ++ sent w).
      rewrite app_assoc. f_equal.
      change [fetchStockInfo_url exChList]
        with (replicate 1 (fetchStockInfo_url exChList)).
      rewrite <- replicate_add. f_equal. lia.
Qed.

(** X8: a request that gets a snapshot, served from the cache or fetched,
    and a request that arrives while that snapshot is less than 5 seconds
    old are dealt with in the same way (the same response, or the same
    panic); the later one sends nothing upstream and leaves the snapshot in
    the cache. *)
Theorem repeated_scrape_same_answer
    (exChList : list string) (w w1 : World) (infos : list StockInfo) (d : N) :
  getCachedStockInfo exChList w = (Returns (infos, None), w1) ->
  time.Sub (clock (idle d (snd (handler exChList w))))
           (cacheTimestamp (idle d (snd (handler exChList w))))
    < 5 * time.Second ->
  let w2 := idle d (snd (handler exChList w)) in
  fst (handler exChList w2) = fst (handler exChList w)
  /\ sent (snd (handler exChList w2)) = sent w1
  /\ cacheData (snd (handler exChList w2)) = infos.
Proof.
  intros Hget Hfresh. cbv zeta.
  assert (Hd : cacheData w1 = infos).
  { destruct (Z.lt_ge_cases (time.Sub (clock w) (cacheTimestamp w))
                (5 * time.Second)) as [Hhit|Hold].
    - rewrite getCachedStockInfo_hit in Hget by assumption.
      now injection Hget as <- <-.
    - pose proof (getCachedStockInfo_expired exChList w Hold) as Hexp.
      rewrite Hget in Hexp. apply Hexp. }
  pose proof (handler_fields exChList w) as (_ & Hs1 & Hd1 & _).
  rewrite Hget in Hs1, Hd1. cbn [snd] in Hs1, Hd1.
  set (w2 := idle d (snd (handler exChList w))) in *.
  pose proof (handler_fields exChList w2) as (_ & Hs2 & Hd2 & _).
  rewrite (getCachedStockInfo_hit exChList w2 Hfresh) in Hs2, Hd2.
  cbn [snd] in Hs2, Hd2.
  assert (Hdata : cacheData w2 = infos) by (unfold w2; cbn; congruence).
  split; [|split].
  - rewrite (handler_after_get _ _ _ _ (getCachedStockInfo_hit exChList w2 Hfresh)),
      (handler_after_get _ _ _ _ Hget), Hdata.
    destruct (respond_pure (infos, None)) as (o & lines & _ & Hrun).
    destruct (Hrun w2) as [-> _]. destruct (Hrun w1) as [-> _]. reflexivity.
  - rewrite Hs2. unfold w2. cbn. assumption.
  - now rewrite Hd2.
Qed.

(** ** What a request is answered with, and what is logged *)

Lemma range_stockInfos_cases (stockInfos : list StockInfo)
    (registry : gmap string Gauge) (w : World) :
  match range_stockInfos stockInfos registry w with
  | (Returns (inl written), w') =>
      written = http_Error "Failed to parse price" StatusInternalServerError
      /\ exists line, logged w' = line :: logged w
  | (Returns (inr _), w') => logged w' = logged w
  | (Panics _, w') => logged w' = logged w
  | (Exits _, _) => False
  end.
Proof.
  revert registry.
  induction stockInfos as [|info rest IH]; intros registry; [reflexivity|].
  cbn [range_stockInfos].
  destruct (strconv_ParseFloat (Pz info)) as [price [err|]].
  - cbn. eauto.
  - unfold MustRegister, bind.
    destruct (Register registry _) as [registry' [err|]]; [reflexivity|].
    apply IH.
Qed.

Lemma fetchStockInfo_logged (exChList : list string) (w : World) :
  match fetchStockInfo exChList w with
  | (Returns _, w') => logged w' = logged w
  | (Exits _, w') => exists line, logged w' = line :: logged w
  | (Panics _, _) => False
  end.
Proof.
  rewrite fetchStockInfo_eq. cbv zeta. unfold fetchStockInfo_result.
  destruct (result _) as [e|code [body [e|]]]; cbn; eauto.
  destruct (json_Unmarshal body) as [response [e|]]; reflexivity.
Qed.

Lemma getCachedStockInfo_logged (exChList : list string) (w : World) :
  match getCachedStockInfo exChList w with
  | (Returns _, w') => logged w' = logged w
  | (Exits _, w') => exists line, logged w' = line :: logged w
  | (Panics _, _) => False
  end.
Proof.
  destruct (Z.lt_ge_cases (time.Sub (clock w) (cacheTimestamp w))
              (5 * time.Second)) as [Hfresh|Hold].
  - now rewrite getCachedStockInfo_hit by assumption.
  - rewrite getCachedStockInfo_miss by assumption. unfold bind.
    pose proof (fetchStockInfo_logged exChList w) as Hlog.
    destruct (fetchStockInfo exChList w) as [[[infos [err|]]|code|v] w1];
      cbn; assumption.
Qed.

(** X12: what the handler writes and what its own statements log: when
    the handler returns, it has written a 200 with the metrics or a 500
    with a text; its statements log exactly one line when it writes a 500
    and when it ends the process, and none when it writes a 200 or up to
    the point where it panics.  (A request whose handler panics or ends the
    process gets no response, and the report [net/http] makes of a panic it
    recovers is not a statement of the handler.) *)
Theorem answers_and_log_lines (exChList : list string) (w : World) :
  match handler exChList w with
  | (Returns written, w') =>
      (status written = StatusOK
       /\ (exists registry, body written = Exposition registry)
       /\ logged w' = logged w)
      \/ (status written = StatusInternalServerError
          /\ (exists msg, body written = Text msg)
          /\ exists line, logged w' = line :: logged w)
  | (Exits _, w') => exists line, logged w' = line :: logged w
  | (Panics _, w') => logged w' = logged w
  end.
Proof.
  rewrite handler_eq. unfold bind at 1.
  pose proof (getCachedStockInfo_logged exChList w) as Hlog.
  destruct (getCachedStockInfo exChList w) as [[[infos [err|]]|code|v] w1];
    [| | assumption | now destruct Hlog].
  - cbn. right. rewrite Hlog. eauto.
  - cbn [respond]. unfold bind.
    pose proof (range_stockInfos_cases infos ∅ w1) as Hrange.
    destruct (range_stockInfos infos ∅ w1) as [[[written|registry]|code|v] w2];
      cbn; rewrite <- Hlog.
    + destruct Hrange as [-> Hline]. right. cbn. eauto.
    + left. eauto.
    + destruct Hrange.
    + assumption.
Qed.

(** ** The metrics of a snapshot *)

Lemma range_stockInfos_builds (stockInfos : list StockInfo)
    (registry : gmap string Gauge) (w : World) :
  Forall parses stockInfos ->
  Forall well_named stockInfos ->
  NoDup (map metricName stockInfos) ->
  Forall (fun info => registry !! metricName info = None) stockInfos ->
  exists registry',
    range_stockInfos stockInfos registry w = (Returns (inr registry'), w)
    /\ size registry' = (size registry + length stockInfos)%nat
    /\ (forall info, In info stockInfos ->
          registry' !! metricName info = Some (gauge_of info))
    /\ (forall name g, registry !! name = Some g -> registry' !! name = Some g).
Proof.
  revert registry.
  induction stockInfos as [|info rest IH];
    intros registry Hparse Hvalid Hnodup Hfree.
  - exists registry. cbn. repeat split; auto. intros info [].
  - apply Forall_cons in Hparse as [Hinfo Hparse].
    apply Forall_cons in Hvalid as [Hv Hvalid].
    apply Forall_cons in Hfree as [Hf Hfree].
    cbn [map] in Hnodup. apply NoDup_cons in Hnodup as [Hnotin Hnodup].
    assert (Hfree' : Forall (fun info' =>
                       <[metricName info := gauge_of info]> registry
                         !! metricName info' = None) rest).
    { rewrite Forall_forall in Hfree |- *. intros info' Hin.
      rewrite lookup_insert_ne; [now apply Hfree|].
      intros Heq. apply Hnotin. rewrite Heq.
      apply list_elem_of_In, in_map. now apply list_elem_of_In. }
    destruct (IH _ Hparse Hvalid Hnodup Hfree')
      as (registry' & Hrun & Hsize & Hnew & Hold).
    exists registry'. split; [|split; [|split]].
    + cbn [range_stockInfos]. unfold parses in Hinfo. unfold gauge_of in Hrun.
      destruct (strconv_ParseFloat (Pz info)) as [price [err|]];
        [discriminate|].
      unfold bind, MustRegister, Register.
      cbn [Name opts Gauge_Set NewGauge].
      unfold well_named in Hv. rewrite Hv, Hf.
      cbv beta iota delta [ret negb]. exact Hrun.
    + rewrite Hsize, map_size_insert_None by assumption. cbn [length]. lia.
    + intros info' [<- | Hin]; [|now apply Hnew].
      apply Hold. apply lookup_insert_eq.
    + intros name g Hname. apply Hold.
      rewrite lookup_insert_ne; [assumption|].
      intros <-. congruence.
Qed.

(** X10: when every record of the snapshot has a price that parses and a
    metric name the registry accepts, and no two records have the same
    metric name, the request is answered with a 200 and a registry that
    holds exactly one gauge per record: under the record's metric name,
    with its help string and its parsed price.  Nothing is logged. *)
Theorem well_formed_snapshot_answers_200
    (exChList : list string) (w w1 : World) (infos : list StockInfo) :
  getCachedStockInfo exChList w = (Returns (infos, None), w1) ->
  Forall parses infos ->
  Forall well_named infos ->
  NoDup (map metricName infos) ->
  exists registry,
    handler exChList w = (Returns (promhttp_ServeHTTP registry), w1)
    /\ size registry = length infos
    /\ forall info, In info infos ->
         registry !! metricName info = Some (gauge_of info).
Proof.
  intros Hget Hparse Hvalid Hnodup.
  destruct (range_stockInfos_builds infos ∅ w1 Hparse Hvalid Hnodup)
    as (registry & Hrun & Hsize & Hnew & _).
  { rewrite Forall_forall. intros info _. apply lookup_empty. }
  exists registry. split; [|split; [|assumption]].
  - rewrite (handler_after_get _ _ _ _ Hget). cbn [respond]. unfold bind.
    now rewrite Hrun.
  - rewrite Hsize, map_size_empty. reflexivity.
Qed.

(** What the outcome of the loop tells about the records. *)
Lemma range_stockInfos_tells (stockInfos : list StockInfo)
    (registry : gmap string Gauge) (w : World) :
  match fst (range_stockInfos stockInfos registry w) with
  | Returns (inr _) =>
      Forall parses stockInfos /\ Forall well_named stockInfos
      /\ NoDup (map metricName stockInfos)
      /\ Forall (fun info => registry !! metricName info = None) stockInfos
  | Returns (inl _) => exists info, In info stockInfos /\ ~ parses info
  | Panics (RegistrationPanic (InvalidDescriptor name)) =>
      exists info,
        In info stockInfos /\ metricName info = name /\ ~ well_named info
  | Panics (RegistrationPanic (AlreadyRegistered name)) =>
      exists pre info post,
        stockInfos = pre ++ info :: post /\ metricName info = name
        /\ (is_Some (registry !! name) \/ In name (map metricName pre))
  | Exits _ => False
  end.
Proof.
  revert registry.
  induction stockInfos as [|info rest IH]; intros registry.
  - cbn. repeat split; constructor.
  - cbn [range_stockInfos].
    destruct (strconv_ParseFloat (Pz info)) as [price [err|]] eqn:Hprice.
    + cbn. exists info. split; [now left|].
      unfold parses. rewrite Hprice. discriminate.
    + unfold bind, MustRegister, Register.
      cbn [Name opts Gauge_Set NewGauge].
      destruct (model_IsValidMetricName (metricName info)) eqn:Hv.
      2:{ cbn. exists info. split; [now left|]. split; [reflexivity|].
          unfold well_named. rewrite Hv. discriminate. }
      destruct (registry !! metricName info) as [g|] eqn:Hlook.
      { cbn. exists [], info, rest. repeat split. left. eauto. }
      cbv beta iota delta [ret negb].
      specialize (IH (<[metricName info :=
                        Gauge_Set (NewGauge {| Name := metricName info;
                                               Help := metricHelp info |})
                          price]> registry)).
      destruct (fst (range_stockInfos rest _ w))
        as [[written|registry']|code|[[name|name]]].
      * destruct IH as (info' & Hin & Hbad). exists info'. split; [now right | assumption].
      * destruct IH as (Hparse & Hvalid & Hnodup & Hfree).
        assert (Hnotin : ~ In (metricName info) (map metricName rest)).
        { intros (info' & Hname & Hin)%in_map_iff.
          rewrite Forall_forall in Hfree.
          specialize (Hfree info' ltac:(now apply list_elem_of_In)).
          rewrite Hname, lookup_insert_eq in Hfree. discriminate. }
        split; [|split; [|split]].
        -- constructor; [unfold parses; now rewrite Hprice | assumption].
        -- constructor; assumption.
        -- cbn [map]. apply NoDup_cons. split; [|assumption].
           now rewrite list_elem_of_In.
        -- constructor; [assumption|].
           rewrite Forall_forall in Hfree |- *. intros info' Hin.
           specialize (Hfree info' Hin).
           destruct (decide (metricName info = metricName info')) as [Heq|Hne].
           ++ rewrite Heq, lookup_insert_eq in Hfree. discriminate.
           ++ now rewrite lookup_insert_ne in Hfree.
      * destruct IH.
      * destruct IH as (info' & Hin & Hname & Hbad).
        exists info'. split; [now right | auto].
      * destruct IH as (pre & info' & post & -> & Hname & Hwhere).
        exists (info :: pre), info', post. split; [reflexivity|].
        split; [assumption|].
        destruct (decide (metricName info = name)) as [Heq|Hne].
        -- right. left. assumption.
        -- destruct Hwhere as [Hsome | Hin].
           ++ rewrite lookup_insert_ne in Hsome by assumption. now left.
           ++ right. right. assumption.
Qed.

(** X11: what a request that got a snapshot is answered with tells what is
    in the snapshot: a 200 only if every price parses, every metric name is
    accepted and no name is repeated; a 500 only if some price does not
    parse; a panic on an invalid descriptor only if some record has a name
    the registry rejects; a panic on a name already registered only if some
    record has the metric name of an earlier record. *)
Theorem answer_tells_the_snapshot
    (exChList : list string) (w w1 : World) (infos : list StockInfo) :
  getCachedStockInfo exChList w = (Returns (infos, None), w1) ->
  match fst (handler exChList w) with
  | Returns written =>
      (status written = StatusOK ->
       Forall parses infos /\ Forall well_named infos
       /\ NoDup (map metricName infos))
      /\ (status written = StatusInternalServerError ->
          exists info, In info infos /\ ~ parses info)
  | Panics (RegistrationPanic (InvalidDescriptor name)) =>
      exists info, In info infos /\ metricName info = name /\ ~ well_named info
  | Panics (RegistrationPanic (AlreadyRegistered name)) =>
      exists pre info post,
        infos = pre ++ info :: post /\ metricName info = name
        /\ In name (map metricName pre)
  | Exits _ => False
  end.
Proof.
  intros Hget. rewrite (handler_after_get _ _ _ _ Hget).
  cbn [respond]. unfold bind.
  pose proof (range_stockInfos_tells infos ∅ w1) as Htells.
  pose proof (range_stockInfos_cases infos ∅ w1) as Hcases.
  destruct (range_stockInfos infos ∅ w1)
    as [[[written|registry]|code|[[name|name]]] w2]; cbn in *.
  - destruct Hcases as [-> _]. split; [discriminate | auto].
  - split; [intros _; tauto | discriminate].
  - assumption.
  - assumption.
  - destruct Htells as (pre & info & post & Hsplit & Hname & [Hsome | Hin]).
    + rewrite lookup_empty in Hsome. now destruct Hsome.
    + eauto 6.
Qed.

(** ** The names and the help strings of the metrics *)

(** Every gauge the loop adds to the registry is the gauge of a record. *)
Lemma range_stockInfos_only (stockInfos : list StockInfo)
    (registry registry' : gmap string Gauge) (w w' : World) :
  range_stockInfos stockInfos registry w = (Returns (inr registry'), w') ->
  forall name g, registry' !! name = Some g ->
    registry !! name = Some g
    \/ exists info,
         In info stockInfos /\ name = metricName info /\ g = gauge_of info.
Proof.
  revert registry.
  induction stockInfos as [|info rest IH]; intros registry Hrun name g Hlook.
  - cbn in Hrun. injection Hrun as -> _. now left.
  - cbn [range_stockInfos] in Hrun.
    destruct (strconv_ParseFloat (Pz info)) as [price [err|]] eqn:Hprice;
      [discriminate|].
    unfold bind, MustRegister, Register in Hrun.
    cbn [Name opts Gauge_Set NewGauge] in Hrun.
    destruct (model_IsValidMetricName (metricName info)); [|discriminate].
    destruct (registry !! metricName info); [discriminate|].
    cbv beta iota delta [ret negb] in Hrun.
    destruct (IH _ Hrun name g Hlook) as [Hin | (info' & Hin & Hn & Hg)].
    + destruct (decide (name = metricName info)) as [->|Hne].
      * rewrite lookup_insert_eq in Hin. injection Hin as <-.
        right. exists info. split; [now left|]. split; [reflexivity|].
        unfold gauge_of. now rewrite Hprice.
      * rewrite lookup_insert_ne in Hin by congruence. now left.
    + right. exists info'. split; [now right | auto].
Qed.

(** The registry of a 200 holds the gauge of every record, and nothing
    else. *)
Lemma handler_200_registry (exChList : list string) (w w1 : World)
    (infos : list StockInfo) (registry : gmap string Gauge) :
  getCachedStockInfo exChList w = (Returns (infos, None), w1) ->
  fst (handler exChList w) = Returns (promhttp_ServeHTTP registry) ->
  (forall info, In info infos ->
     registry !! metricName info = Some (gauge_of info))
  /\ (forall name g, registry !! name = Some g ->
        exists info,
          In info infos /\ name = metricName info /\ g = gauge_of info).
Proof.
  intros Hget H200. rewrite (handler_after_get _ _ _ _ Hget) in H200.
  cbn [respond] in H200. unfold bind in H200.
  pose proof (range_stockInfos_tells infos ∅ w1) as Htells.
  pose proof (range_stockInfos_cases infos ∅ w1) as Hcases.
  destruct (range_stockInfos infos ∅ w1)
    as [[[written|registry0]|code|v] w2] eqn:Hrun; cbn in H200, Htells;
    try discriminate.
  { destruct Hcases as [-> _]. discriminate. }
  injection H200 as ->.
  destruct Htells as (Hparse & Hvalid & Hnodup & Hfree).
  destruct (range_stockInfos_builds infos ∅ w1 Hparse Hvalid Hnodup Hfree)
    as (registry' & Hrun' & _ & Hnew & _).
  rewrite Hrun in Hrun'. injection Hrun' as <- _.
  split; [assumption|].
  intros name g Hlook.
  destruct (range_stockInfos_only _ _ _ _ _ Hrun name g Hlook) as [Hin|Hin];
    [|assumption].
  rewrite lookup_empty in Hin. discriminate.
Qed.

(** C10: the name under which the handler emits the metric of a record is
    the [Ex] field of the record, an underscore, its [C] field and the
    fixed suffix [_gauge].  When a request is answered with a 200, the
    registry that is rendered holds, for every record of the snapshot, a
    gauge of that name under that name, and every gauge it holds has such
    a name; so every metric name emitted ends in [_gauge].  The names the
    registry refuses, with which the handler panics, are of that form as
    well. *)
Theorem emitted_metric_names_exchange_category_gauge
    (exChList : list string) (w w1 : World) (infos : list StockInfo) :
  getCachedStockInfo exChList w = (Returns (infos, None), w1) ->
  (forall registry,
     fst (handler exChList w) = Returns (promhttp_ServeHTTP registry) ->
     (forall info, In info infos ->
        exists g,
          registry !! (Ex info +:+ "_" +:+ C info +:+ "_gauge") = Some g
          /\ Name (opts g) = Ex info +:+ "_" +:+ C info +:+ "_gauge")
     /\ (forall name g, registry !! name = Some g ->
           Name (opts g) = name
           /\ has_suffix "_gauge" name = true
           /\ exists info,
                In info infos
                /\ name = Ex info +:+ "_" +:+ C info +:+ "_gauge"))
  /\ (forall name,
        fst (handler exChList w)
          = Panics (RegistrationPanic (InvalidDescriptor name))
        \/ fst (handler exChList w)
           = Panics (RegistrationPanic (AlreadyRegistered name)) ->
        has_suffix "_gauge" name = true
        /\ exists info,
             In info infos /\ name = Ex info +:+ "_" +:+ C info +:+ "_gauge").
Proof.
  intros Hget. split.
  - intros registry H200.
    destruct (handler_200_registry _ _ _ _ _ Hget H200) as [Hall Honly].
    split.
    + intros info Hin. exists (gauge_of info).
      rewrite <- metricName_eq. split; [now apply Hall | reflexivity].
    + intros name g Hlook.
      destruct (Honly name g Hlook) as (info & Hin & -> & ->).
      split; [reflexivity|]. split; [apply metricName_has_suffix_gauge|].
      exists info. split; [assumption | apply metricName_eq].
  - intros name Hpanic.
    assert (Hname : exists info, In info infos /\ metricName info = name).
    { rewrite (handler_after_get _ _ _ _ Hget) in Hpanic.
      cbn [respond] in Hpanic. unfold bind in Hpanic.
      pose proof (range_stockInfos_tells infos ∅ w1) as Htells.
      destruct (range_stockInfos infos ∅ w1)
        as [[[written|registry0]|code|[[name'|name']]] w2];
        cbn in Hpanic, Htells;
        destruct Hpanic as [Hpanic|Hpanic]; try discriminate;
        injection Hpanic as ->.
      - destruct Htells as (info & Hin & Hn & _). eauto.
      - destruct Htells as (pre & info & post & -> & Hn & _).
        exists info. split; [|assumption].
        apply in_or_app. right. now left. }
    destruct Hname as (info & Hin & <-).
    split; [apply metricName_has_suffix_gauge|].
    exists info. split; [assumption | apply metricName_eq].
Qed.

(** The fields [At], [D] and [Percent] of the records reach nothing but
    the help strings of the gauges: the loop does the same on two lists of
    records that differ in those fields only. *)
Lemma range_stockInfos_help_fields (infos infos' : list StockInfo)
    (registry registry' : gmap string Gauge) (w : World) :
  Forall2 same_but_help_fields infos infos' ->
  without_help <$> registry = without_help <$> registry' ->
  loop_without_help (fst (range_stockInfos infos registry w))
  = loop_without_help (fst (range_stockInfos infos' registry' w))
  /\ snd (range_stockInfos infos registry w)
     = snd (range_stockInfos infos' registry' w).
Proof.
  intros Hsame. revert registry registry'.
  induction Hsame as [|info info' infos infos' (at_ & d & percent & ->) _ IH];
    intros registry registry' Hreg.
  - cbn. now rewrite Hreg.
  - cbn [range_stockInfos].
    destruct (with_help_fields_keeps at_ d percent info) as [Hn Hp].
    rewrite Hn, Hp.
    destruct (strconv_ParseFloat (Pz info)) as [price [err|]];
      [cbn; split; reflexivity|].
    unfold bind, MustRegister, Register.
    cbn [Name opts Gauge_Set NewGauge].
    destruct (model_IsValidMetricName (metricName info));
      [|cbn; split; reflexivity].
    cbv beta iota delta [negb].
    assert (Hlook : without_help <$> registry !! metricName info
                    = without_help <$> registry' !! metricName info)
      by (rewrite <- !lookup_fmap; now rewrite Hreg).
    destruct (registry !! metricName info), (registry' !! metricName info);
      try discriminate; [cbn; split; reflexivity|].
    cbv beta iota delta [ret]. apply IH.
    rewrite !fmap_insert, Hreg. reflexivity.
Qed.

Lemma handler_help_fields (exChList : list string) (w w1 w' w1' : World)
    (infos infos' : list StockInfo) :
  getCachedStockInfo exChList w = (Returns (infos, None), w1) ->
  getCachedStockInfo exChList w' = (Returns (infos', None), w1') ->
  Forall2 same_but_help_fields infos infos' ->
  outcome_without_help (fst (handler exChList w'))
  = outcome_without_help (fst (handler exChList w))
  /\ exists lines,
       logged (snd (handler exChList w)) = lines ++ logged w1
       /\ logged (snd (handler exChList w')) = lines ++ logged w1'.
Proof.
  intros Hget Hget' Hsame.
  rewrite (handler_after_get _ _ _ _ Hget), (handler_after_get _ _ _ _ Hget').
  cbn [respond]. unfold bind.
  destruct (range_stockInfos_help_fields infos infos' ∅ ∅ w1 Hsame eq_refl)
    as [Hout Hworld].
  destruct (range_stockInfos_pure infos' ∅) as (o' & lines' & _ & Hrun').
  destruct (range_stockInfos_pure infos ∅) as (o & lines & _ & Hrun).
  destruct (Hrun' w1) as [Ho1 Hl1]. destruct (Hrun' w1') as [Ho1' Hl1'].
  destruct (Hrun w1) as [Ho Hl]. pose proof Hl as Hl0.
  rewrite Ho, Ho1 in Hout. rewrite Hworld, Hl1 in Hl.
  apply app_inv_tail in Hl. subst lines'.
  destruct (range_stockInfos infos ∅ w1) as [o0 w2].
  destruct (range_stockInfos infos' ∅ w1') as [o0' w2'].
  cbn [fst snd] in *. subst o0 o0'.
  split.
  - destruct o as [[written|registry]|code|v],
      o' as [[written'|registry']|code'|v']; cbn in Hout |- *;
      try discriminate; try congruence.
    injection Hout as Hout. unfold written_without_help. cbn.
    now rewrite Hout.
  - exists lines.
    destruct o as [[written|registry]|code|v],
      o' as [[written'|registry']|code'|v']; cbn in Hout |- *;
      try discriminate; auto.
Qed.

(** C7: the help string of the gauge the handler builds for a record
    interpolates, in this order, the fields [Ex], [At], [D], [Percent] and
    [Pz] of that record (JSON keys [ex], [@], [d], [%] and [pz]: the
    exchange, name, date, percentChange and price of the specification)
    into the fixed text of the format: when a request is answered with a
    200, the gauge of every record of the snapshot has that help string,
    and every gauge of the registry has the one of its record.  And [At],
    [D] and [Percent] are used in the help strings only: whatever they
    are replaced with in the records, the handler gives the same outcome
    (the same status, names and values, or the same panic) up to the help
    strings, and logs the same lines. *)
Theorem gauge_help_interpolates_record_fields
    (exChList : list string) (w w1 : World) (infos : list StockInfo) :
  getCachedStockInfo exChList w = (Returns (infos, None), w1) ->
  (forall registry,
     fst (handler exChList w) = Returns (promhttp_ServeHTTP registry) ->
     (forall info, In info infos ->
        exists g,
          registry !! metricName info = Some g
          /\ Help (opts g)
             = Ex info +:+ "_" +:+ At info +:+ "於" +:+ D info +:+ " "
                 +:+ Percent info +:+ "的價格" +:+ Pz info)
     /\ (forall name g, registry !! name = Some g ->
           exists info,
             In info infos /\ name = metricName info
             /\ Help (opts g)
                = Ex info +:+ "_" +:+ At info +:+ "於" +:+ D info +:+ " "
                    +:+ Percent info +:+ "的價格" +:+ Pz info))
  /\ (forall w' w1' infos',
        getCachedStockInfo exChList w' = (Returns (infos', None), w1') ->
        Forall2 same_but_help_fields infos infos' ->
        outcome_without_help (fst (handler exChList w'))
        = outcome_without_help (fst (handler exChList w))
        /\ exists lines,
             logged (snd (handler exChList w)) = lines ++ logged w1
             /\ logged (snd (handler exChList w')) = lines ++ logged w1').
Proof.
  intros Hget. split.
  - intros registry H200.
    destruct (handler_200_registry _ _ _ _ _ Hget H200) as [Hall Honly].
    split.
    + intros info Hin. exists (gauge_of info).
      split; [now apply Hall | apply metricHelp_eq].
    + intros name g Hlook.
      destruct (Honly name g Hlook) as (info & Hin & -> & ->).
      exists info. split; [assumption|]. split; [reflexivity|].
      apply metricHelp_eq.
  - intros w' w1' infos' Hget' Hsame.
    exact (handler_help_fields _ _ _ _ _ _ _ Hget Hget' Hsame).
Qed.

(** ** The status code of the upstream *)

Lemma same_but_statuses_idle (d : N) (w1 w2 : World) :
  same_but_statuses w1 w2 -> same_but_statuses (idle d w1) (idle d w2).
Proof.
  intros (Hc & Hs & Hl & Hd & Ht & Hu). unfold same_but_statuses. cbn.
  rewrite Hc. auto 10.
Qed.

Lemma same_but_statuses_log (w1 w2 w1' w2' : World) (lines : list string) :
  same_but_statuses w1 w2 ->
  same_but_log w1 w1' -> same_but_log w2 w2' ->
  logged w1' = lines ++ logged w1 -> logged w2' = lines ++ logged w2 ->
  same_but_statuses w1' w2'.
Proof.
  intros (Hc & Hs & Hl & Hd & Ht & Hu) (Hc1 & Hu1 & Hs1 & Hd1 & Ht1)
    (Hc2 & Hu2 & Hs2 & Hd2 & Ht2) Hl1 Hl2.
  unfold same_but_statuses.
  rewrite Hc1, Hc2, Hs1, Hs2, Hd1, Hd2, Ht1, Ht2, Hl1, Hl2, Hu1, Hu2, Hl.
  auto 10.
Qed.

Lemma fetchStockInfo_same_but_statuses (exChList : list string)
    (w1 w2 : World) :
  same_but_statuses w1 w2 ->
  fst (fetchStockInfo exChList w1) = fst (fetchStockInfo exChList w2)
  /\ same_but_statuses (snd (fetchStockInfo exChList w1))
                       (snd (fetchStockInfo exChList w2)).
Proof.
  rewrite !fetchStockInfo_eq. cbv zeta. unfold answered.
  destruct w1 as [c1 u1 s1 l1 d1 t1], w2 as [c2 u2 s2 l2 d2 t2].
  unfold same_but_statuses. cbn [clock upstream sent logged cacheData
                                 cacheTimestamp with_clock with_sent].
  intros (<- & <- & <- & <- & <- & Hu).
  destruct (Hu (length s1) (fetchStockInfo_url exChList)) as [<- Hres].
  unfold fetchStockInfo_result.
  destruct (result (u1 _ _)) as [e1|code1 body1],
           (result (u2 _ _)) as [e2|code2 body2];
    cbn in Hres; try contradiction; subst.
  - cbn. auto 10.
  - destruct body2 as [body [e|]].
    + cbn. auto 10.
    + destruct (json_Unmarshal body) as [response [e|]]; cbn; auto 10.
Qed.

Lemma getCachedStockInfo_same_but_statuses (exChList : list string)
    (w1 w2 : World) :
  same_but_statuses w1 w2 ->
  fst (getCachedStockInfo exChList w1) = fst (getCachedStockInfo exChList w2)
  /\ same_but_statuses (snd (getCachedStockInfo exChList w1))
                       (snd (getCachedStockInfo exChList w2)).
Proof.
  intros Hsame.
  pose proof Hsame as (Hc & Hs & Hl & Hd & Ht & Hu).
  destruct (Z.lt_ge_cases (time.Sub (clock w1) (cacheTimestamp w1))
              (5 * time.Second)) as [Hfresh|Hold].
  - rewrite (getCachedStockInfo_hit exChList w1 Hfresh).
    rewrite Hc, Ht in Hfresh.
    rewrite (getCachedStockInfo_hit exChList w2 Hfresh).
    cbn. rewrite Hd. auto.
  - rewrite (getCachedStockInfo_miss exChList w1 Hold).
    rewrite Hc, Ht in Hold.
    rewrite (getCachedStockInfo_miss exChList w2 Hold).
    unfold bind.
    destruct (fetchStockInfo_same_but_statuses exChList w1 w2 Hsame)
      as [Ho Hw].
    destruct (fetchStockInfo exChList w1) as [o1 w1'],
             (fetchStockInfo exChList w2) as [o2 w2'].
    cbn [fst snd] in Ho, Hw. subst o2.
    destruct o1 as [[infos [err|]]|code|v]; cbn; auto.
    destruct Hw as (Hc' & Hs' & Hl' & Hd' & Ht' & Hu').
    unfold same_but_statuses. cbn. rewrite Hc'. auto 10.
Qed.

Lemma handler_same_but_statuses (exChList : list string) (w1 w2 : World) :
  same_but_statuses w1 w2 ->
  fst (handler exChList w1) = fst (handler exChList w2)
  /\ same_but_statuses (snd (handler exChList w1))
                       (snd (handler exChList w2)).
Proof.
  intros Hsame. rewrite !handler_eq. unfold bind.
  destruct (getCachedStockInfo_same_but_statuses exChList w1 w2 Hsame)
    as [Ho Hw].
  destruct (getCachedStockInfo exChList w1) as [o1 w1'],
           (getCachedStockInfo exChList w2) as [o2 w2'].
  cbn [fst snd] in Ho, Hw. subst o2.
  destruct o1 as [r|code|v]; cbn [fst snd]; auto.
  destruct (respond_pure r) as (o & lines & _ & Hrun).
  destruct (Hrun w1') as [Ho1 Hl1]. destruct (Hrun w2') as [Ho2 Hl2].
  split; [congruence|].
  eapply same_but_statuses_log; eauto; apply respond_world.
Qed.

(** X3: the status code of the upstream's response is never looked at:
    two processes whose upstreams differ in nothing but the status codes
    they answer with give the same answers to the same requests, and end up
    with the same cache, the same log and the same requests sent. *)
Theorem status_code_is_never_looked_at
    (exChList : list string) (arrivals : list N) (w1 w2 : World) :
  same_but_statuses w1 w2 ->
  fst (serve exChList arrivals w1) = fst (serve exChList arrivals w2)
  /\ same_but_statuses (snd (serve exChList arrivals w1))
                       (snd (serve exChList arrivals w2)).
Proof.
  revert w1 w2. induction arrivals as [|d rest IH]; intros w1 w2 Hsame.
  - cbn. auto.
  - cbn [serve].
    destruct (handler_same_but_statuses exChList _ _
                (same_but_statuses_idle d _ _ Hsame)) as [Ho Hw].
    destruct (handler exChList (idle d w1)) as [o1 w1'],
             (handler exChList (idle d w2)) as [o2 w2'].
    cbn [fst snd] in Ho, Hw. subst o2.
    destruct o1 as [written|code|v]; [| cbn; auto |].
    + destruct (IH _ _ Hw) as [Hmore Hw'].
      destruct (serve exChList rest w1') as [more1 w1''],
               (serve exChList rest w2') as [more2 w2''].
      cbn in *. subst. auto.
    + destruct (IH _ _ Hw) as [Hmore Hw'].
      destruct (serve exChList rest w1') as [more1 w1''],
               (serve exChList rest w2') as [more2 w2''].
      cbn in *. subst. auto.
Qed.

End MorePipelineProperties.

(** ** Several requests at once: progress and the requests sent *)

Lemma count_positive (p : Goroutine -> bool) (gs : list Goroutine) :
  (1 <= count p gs)%nat -> exists i g, gs !! i = Some g /\ p g = true.
Proof.
  induction gs as [|g gs IH]; cbn; [lia|].
  destruct (p g) eqn:Hp.
  - intros _. exists 0%nat, g. auto.
  - intros Hge. destruct (IH Hge) as (i & g' & Hi & Hg').
    exists (S i), g'. auto.
Qed.

Lemma count_le_length (p : Goroutine -> bool) (gs : list Goroutine) :
  (count p gs <= length gs)%nat.
Proof. induction gs as [|g gs IH]; cbn; [lia|]. destruct (p g); lia. Qed.

Lemma count_two (p : Goroutine -> bool) (gs : list Goroutine) (i j : nat)
    (g g' : Goroutine) :
  i <> j -> gs !! i = Some g -> gs !! j = Some g' ->
  p g = true -> p g' = true -> (2 <= count p gs)%nat.
Proof.
  revert i j. induction gs as [|g0 gs IH]; intros [|i] [|j] Hne Hi Hj Hp Hp';
    try discriminate; try (now destruct Hne).
  - injection Hi as ->. cbn in Hj |- *. rewrite Hp.
    pose proof (count_lookup p _ _ _ Hj Hp'). lia.
  - injection Hj as ->. cbn in Hi |- *. rewrite Hp'.
    pose proof (count_lookup p _ _ _ Hi Hp). lia.
  - cbn in Hi, Hj |- *.
    assert (Hne' : i <> j) by congruence.
    specialize (IH i j Hne' Hi Hj Hp Hp'). lia.
Qed.

Lemma all_returned_or_not (gs : list Goroutine) :
  (forall i g, gs !! i = Some g -> has_returned g = true)
  \/ exists i g, gs !! i = Some g /\ has_returned g = false.
Proof.
  induction gs as [|g gs [IH | (i & g' & Hi & Hg')]].
  - left. intros i g Hi. discriminate.
  - destruct (has_returned g) eqn:Hg.
    + left. intros [|i] g' Hi; [injection Hi as <-; assumption | eauto].
    + right. exists 0%nat, g. auto.
  - right. exists (S i), g'. auto.
Qed.

Section MoreConcurrentProperties.
Context `{GoLibrary}.

(** X14: requests served at once wait for nothing but the mutex and the
    upstream.  In every state a running process can reach, either every
    request has returned and [cacheMutex] is unlocked; or some goroutine
    that is not waiting for the upstream can take its next step; or one
    goroutine, which holds the mutex, has its request at the upstream, and
    until [http.Get] returns (it has no timeout, and may never return) no
    other goroutine can take a step: every other one has returned or is
    blocked in [Lock]. *)
Theorem burst_waits_only_for_the_upstream
    (exChList : list string) (n : nat) (w : World) (es : list Event)
    (s : System) :
  run exChList es (arrivals n w) = Some s ->
  exited s = None ->
  ((forall i g, goroutines s !! i = Some g -> has_returned g = true)
   /\ cacheMutex s = false)
  \/ (exists i g s',
        goroutines s !! i = Some g /\ in_flight g = false
        /\ step exChList (Run i) s = Some s')
  \/ (cacheMutex s = true
      /\ exists i m,
           goroutines s !! i = Some (Fetching m)
           /\ (forall j g, j <> i -> goroutines s !! j = Some g ->
                 g = Arrived \/ has_returned g = true)
           /\ forall j, j <> i -> step exChList (Run j) s = None).
Proof.
  intros Hrun Hrunning.
  pose proof (run_mutex _ _ _ _ (arrivals_mutex n w) Hrun) as Hmutex.
  unfold mutex_held_by_one in Hmutex.
  destruct (cacheMutex s) eqn:Hm.
  - destruct (count_positive holds_mutex (goroutines s)) as (i & g & Hi & Hg);
      [lia|].
    destruct g as [| |m|r]; try discriminate.
    + (* the holder of the mutex is about to test the cache *)
      right. left. exists i, Locked. unfold step. rewrite Hrunning, Hi.
      rewrite test_cache_eq. destruct (_ <? _); eauto.
    + (* the holder of the mutex waits for the upstream *)
      right. right. split; [reflexivity|]. exists i, m.
      assert (Hothers : forall j g, j <> i -> goroutines s !! j = Some g ->
                          holds_mutex g = false).
      { intros j g Hne Hj. destruct (holds_mutex g) eqn:Hg'; [|reflexivity].
        pose proof (count_two holds_mutex _ _ _ _ _ Hne Hj Hi Hg' eq_refl).
        lia. }
      split; [assumption|]. split.
      * intros j g Hne Hj. specialize (Hothers j g Hne Hj).
        destruct g; try discriminate; auto.
      * intros j Hne. unfold step. rewrite Hrunning.
        destruct (goroutines s !! j) as [g|] eqn:Hj; [|reflexivity].
        specialize (Hothers j g Hne Hj).
        destruct g; try discriminate; [|reflexivity].
        unfold lock. now rewrite Hm.
  - destruct (all_returned_or_not (goroutines s)) as [Hall | (i & g & Hi & Hg)].
    + left. auto.
    + (* a goroutine that has not returned is waiting for the free mutex *)
      right. left. exists i, g. unfold step. rewrite Hrunning, Hi.
      destruct g as [| |m|r]; try discriminate.
      * unfold lock. rewrite Hm. eauto.
      * pose proof (count_lookup holds_mutex _ _ _ Hi eq_refl). lia.
      * pose proof (count_lookup holds_mutex _ _ _ Hi eq_refl). lia.
Qed.

Lemma step_sends (exChList : list string) (w0 : World) (e : Event)
    (s s' : System) :
  (exists k, (k <= count has_tested (goroutines s))%nat
             /\ sent (world s)
                = replicate k (fetchStockInfo_url exChList) ++ sent w0) ->
  step exChList e s = Some s' ->
  exists k, (k <= count has_tested (goroutines s'))%nat
            /\ sent (world s')
               = replicate k (fetchStockInfo_url exChList) ++ sent w0.
Proof.
  intros (k & Hk & Hs) Hstep. unfold step in Hstep.
  destruct (exited s); [discriminate|].
  destruct e as [d|i]; [injection Hstep as <-; exists k; auto|].
  destruct (goroutines s !! i) as [[| |m|r]|] eqn:Hi; try discriminate.
  - unfold lock in Hstep. destruct (cacheMutex s); [discriminate|].
    injection Hstep as <-. exists k. simpl_system.
    pose proof (count_insert has_tested _ _ _ Locked Hi) as Hc. cbn in Hc.
    split; [lia | assumption].
  - rewrite test_cache_eq in Hstep.
    destruct (_ <? _); injection Hstep as <-; simpl_system.
    + exists k.
      pose proof (count_insert has_tested _ _ _
                    (Finished (cacheData (world s), None)) Hi) as Hc.
      cbn in Hc. split; [lia | assumption].
    + exists (S k).
      pose proof (count_insert has_tested _ _ _
                    (Fetching (length (sent (world s)))) Hi) as Hc.
      cbn in Hc. split; [lia|].
      change (sent (with_sent (fetchStockInfo_url exChList :: sent (world s))
                      (world s)))
        with (fetchStockInfo_url exChList :: sent (world s)).
      rewrite Hs. reflexivity.
  - unfold receive in Hstep.
    pose proof (receive_world exChList m (world s)) as Hw.
    destruct (bind _ _ (world s)) as [[r|code|v] w']; try discriminate;
      injection Hstep as <-; destruct Hw as (Hs' & _); simpl_system;
      exists k; rewrite Hs'; split; try assumption.
    pose proof (count_insert has_tested _ _ _ (Finished r) Hi) as Hc.
    cbn in Hc. lia.
Qed.

(** X15: however they are scheduled, [n] requests served at once send at
    most [n] requests upstream, and no more than the number of goroutines
    that have tested the cache; all of them go to the URL of the configured
    list. *)
Theorem burst_sends_at_most_one_request_each
    (exChList : list string) (n : nat) (w : World) (es : list Event)
    (s : System) :
  run exChList es (arrivals n w) = Some s ->
  exists k,
    (k <= count has_tested (goroutines s) <= n)%nat
    /\ sent (world s) = replicate k (fetchStockInfo_url exChList) ++ sent w.
Proof.
  intros Hrun.
  destruct (run_facts _ _ _ _ Hrun) as [Hlen _].
  cbn [arrivals goroutines] in Hlen. rewrite length_replicate in Hlen.
  assert (Hinv : exists k,
             (k <= count has_tested (goroutines s))%nat
             /\ sent (world s)
                = replicate k (fetchStockInfo_url exChList) ++ sent w).
  { assert (Hinit : exists k,
               (k <= count has_tested (goroutines (arrivals n w)))%nat
               /\ sent (world (arrivals n w))
                  = replicate k (fetchStockInfo_url exChList) ++ sent w)
      by (exists 0%nat; split; [lia | reflexivity]).
    revert Hinit Hrun. generalize (arrivals n w) as s0.
    induction es as [|e es IH]; intros s0 Hinit Hrun; cbn in Hrun.
    - now injection Hrun as <-.
    - destruct (step exChList e s0) as [s1|] eqn:Hstep; [|discriminate].
      eauto using step_sends. }
  destruct Hinv as (k & Hk & Hs). exists k. split; [|assumption].
  pose proof (count_le_length has_tested (goroutines s)). lia.
Qed.

End MoreConcurrentProperties.

(** ** [main] *)

(** On string operands the two renderings of [fmt.Sprintf] agree. *)
Lemma Sprintf_of_strings (format : string) (args : list string) :
  fmt_operands.Sprintf format (map fmt_operands.OfString args)
  = fmt.Sprintf format args.
Proof.
  assert (Hoperands : forall args,
             fmt_operands.extra_operands (map fmt_operands.OfString args)
             = fmt.extra_operands args).
  { intros args0. induction args0 as [|a rest IH]; [reflexivity|].
    destruct rest as [|b rest]; [reflexivity|].
    cbn [map] in *.
    change (fmt_operands.extra_operands
              (fmt_operands.OfString a :: fmt_operands.OfString b
                 :: map fmt_operands.OfString rest))
      with ("string=" +:+ a +:+ ", "
              +:+ fmt_operands.extra_operands
                    (fmt_operands.OfString b
                       :: map fmt_operands.OfString rest)).
    now rewrite IH. }
  assert (Hextra : forall args,
             fmt_operands.EXTRA (map fmt_operands.OfString args)
             = fmt.EXTRA args).
  { intros [|a rest]; [reflexivity|].
    unfold fmt_operands.EXTRA, fmt.EXTRA.
    now rewrite <- (Hoperands (a :: rest)). }
  remember (String.length format) as n eqn:Hn.
  revert format args Hn.
  induction n as [n IH] using lt_wf_ind. intros format args Hn.
  destruct format as [|c [|v rest]].
  - apply Hextra.
  - cbn. destruct (Ascii.eqb_spec c "%") as [->|Hne].
    + cbn. now rewrite Hextra.
    + destruct c as [[] [] [] [] [] [] [] []]; try (now destruct Hne);
        cbn; now rewrite Hextra.
  - assert (Hrest : forall args',
               fmt_operands.Sprintf rest (map fmt_operands.OfString args')
               = fmt.Sprintf rest args')
      by (intros args'; apply (IH (String.length rest)); cbn in Hn; [lia | reflexivity]).
    assert (Hvrest : forall args',
               fmt_operands.Sprintf (String v rest)
                 (map fmt_operands.OfString args')
               = fmt.Sprintf (String v rest) args')
      by (intros args'; apply (IH (String.length (String v rest)));
          cbn in Hn |- *; [lia | reflexivity]).
    destruct (Ascii.eqb_spec c "%") as [->|Hne].
    + cbn [fmt_operands.Sprintf fmt.Sprintf].
      destruct (Ascii.eqb v "%"); [now rewrite Hrest|].
      destruct args as [|a args']; cbn [map].
      * pose proof (Hrest []) as Hnil. cbn [map] in Hnil. now rewrite Hnil.
      * cbn [fmt_operands.applies fmt_operands.print fmt_operands.type_name].
        rewrite Hrest. destruct (fmt.is_string_verb v); reflexivity.
    + transitivity (String c (fmt_operands.Sprintf (String v rest)
                                (map fmt_operands.OfString args))).
      { destruct c as [[] [] [] [] [] [] [] []]; try (now destruct Hne);
          reflexivity. }
      rewrite Hvrest.
      destruct c as [[] [] [] [] [] [] [] []]; try (now destruct Hne);
        reflexivity.
Qed.

Section DecodeErrors.
Context `{GoLibrary}.

Lemma Sprintf_prefix_v (e : error) :
  fmt.Sprintf "failed to unmarshal response: %v" [e]
  = "failed to unmarshal response: " +:+ e
  /\ fmt.Sprintf "Error fetching stock info: %v" [e]
     = "Error fetching stock info: " +:+ e.
Proof. split; cbn; now rewrite append_nil_r. Qed.

(** X20: when the cache has expired and the body of the response does not
    decode, the request is answered with a 500 and the text
    [Failed to fetch stock info]; one line is logged, which carries the
    error of the decoder behind two prefixes; one request has been sent
    and the cache variables are unchanged. *)
Theorem decode_error_is_answered_500_and_logged
    (exChList : list string) (w : World) (code : Z) (body : string)
    (response : Response) (e : error) :
  5 * time.Second <= time.Sub (clock w) (cacheTimestamp w) ->
  result (upstream w (length (sent w)) (fetchStockInfo_url exChList))
    = HttpResponse code (body, None) ->
  json_Unmarshal body = (response, Some e) ->
  handler exChList w
  = (Returns (http_Error "Failed to fetch stock info" StatusInternalServerError),
     with_logged
       (("Error fetching stock info: failed to unmarshal response: " +:+ e)
          :: logged w)
       (answered (fetchStockInfo_url exChList) w)).
Proof.
  intros Hold Hup Hjson.
  pose proof (fetchStockInfo_decode_error exChList w code body response e
                Hup Hjson) as Hfetch.
  rewrite (handler_after_get exChList w
             (answered (fetchStockInfo_url exChList) w)
             ([], Some (fmt.Sprintf "failed to unmarshal response: %v" [e]))).
  - cbn [respond]. unfold bind, log_Printf, ret.
    destruct (Sprintf_prefix_v e) as [-> _].
    destruct (Sprintf_prefix_v ("failed to unmarshal response: " +:+ e))
      as [_ ->].
    reflexivity.
  - rewrite (getCachedStockInfo_fetched _ _ _ _ Hold Hfetch). reflexivity.
Qed.

(** X21: the only error [getCachedStockInfo] ever returns is a decoding
    error: when it returns an error, the slice it returns is nil, the cache
    had expired, the upstream answered and its body was read, the body did
    not decode, and the error is that of the decoder behind the prefix
    [failed to unmarshal response: ]. *)
Theorem returned_error_is_a_decode_error
    (exChList : list string) (w w' : World) (infos : list StockInfo)
    (err : error) :
  getCachedStockInfo exChList w = (Returns (infos, Some err), w') ->
  infos = []
  /\ 5 * time.Second <= time.Sub (clock w) (cacheTimestamp w)
  /\ exists code body response e,
       result (upstream w (length (sent w)) (fetchStockInfo_url exChList))
       = HttpResponse code (body, None)
       /\ json_Unmarshal body = (response, Some e)
       /\ err = "failed to unmarshal response: " +:+ e.
Proof.
  intros Hget.
  destruct (Z.lt_ge_cases (time.Sub (clock w) (cacheTimestamp w))
              (5 * time.Second)) as [Hfresh|Hold].
  { rewrite getCachedStockInfo_hit in Hget by assumption. discriminate. }
  rewrite getCachedStockInfo_miss in Hget by assumption.
  unfold bind in Hget. rewrite fetchStockInfo_eq in Hget. cbv zeta in Hget.
  unfold fetchStockInfo_result in Hget.
  destruct (result (upstream w (length (sent w)) (fetchStockInfo_url exChList)))
    as [e|code [body [e|]]]; try discriminate.
  destruct (json_Unmarshal body) as [response [e|]] eqn:Hjson;
    cbn in Hget; [|discriminate].
  injection Hget as <- <- _.
  split; [reflexivity|]. split; [assumption|].
  exists code, body, response, e.
  split; [reflexivity|]. split; [exact Hjson|].
  apply Sprintf_prefix_v.
Qed.

(** C3, on the code: what [getCachedStockInfo] does when the cache has
    expired depends on how the request to the upstream fails.  When
    [http.Get] or [io.ReadAll] fails, nothing is returned to the caller:
    the process ends with status 1, and the handler writes no response.
    When the upstream answers with whatever status, 4xx and 5xx included,
    and the body decodes, the call counts as a success: the records of the
    body replace [cacheData], [cacheTimestamp] advances and no error is
    returned.  Only when the body does not decode is an error returned;
    then the cache variables keep their values and the handler answers 500
    instead of serving the snapshot that is stored. *)
Theorem fetch_failure_is_returned_only_when_decoding_fails
    (exChList : list string) (w : World) :
  5 * time.Second <= time.Sub (clock w) (cacheTimestamp w) ->
  let url := fetchStockInfo_url exChList in
  let r := result (upstream w (length (sent w)) url) in
  (fatal_result r = true ->
   fst (getCachedStockInfo exChList w) = Exits 1
   /\ fst (handler exChList w) = Exits 1)
  /\ (forall code body response,
        r = HttpResponse code (body, None) ->
        json_Unmarshal body = (response, None) ->
        fst (getCachedStockInfo exChList w) = Returns (MsgArray response, None)
        /\ cacheData (snd (getCachedStockInfo exChList w)) = MsgArray response
        /\ cacheTimestamp w
           < cacheTimestamp (snd (getCachedStockInfo exChList w)))
  /\ (forall code body response e,
        r = HttpResponse code (body, None) ->
        json_Unmarshal body = (response, Some e) ->
        getCachedStockInfo exChList w
        = (Returns ([], Some ("failed to unmarshal response: " +:+ e)),
           answered url w)
        /\ fst (handler exChList w)
           = Returns (http_Error "Failed to fetch stock info"
                        StatusInternalServerError)
        /\ cacheData (snd (handler exChList w)) = cacheData w
        /\ cacheTimestamp (snd (handler exChList w)) = cacheTimestamp w).
Proof.
  intros Hold url r. split; [|split].
  - intros Hfatal.
    assert (Hget : fst (getCachedStockInfo exChList w) = Exits 1).
    { rewrite getCachedStockInfo_miss by assumption. unfold bind.
      rewrite fetchStockInfo_eq. cbv zeta. fold url. fold r.
      destruct r as [e|code [body [e|]]]; try discriminate; reflexivity. }
    split; [assumption|].
    rewrite handler_eq. unfold bind.
    destruct (getCachedStockInfo exChList w) as [o w1].
    cbn in Hget. subst o. reflexivity.
  - intros code body response Hup Hjson.
    assert (Hfetch : fetchStockInfo exChList w
                     = (Returns (MsgArray response, None), answered url w)).
    { rewrite fetchStockInfo_eq. cbv zeta. fold url. fold r.
      rewrite Hup. cbn. now rewrite Hjson. }
    destruct (getCachedStockInfo_refresh exChList w _ _ Hold Hfetch)
      as [Hget _].
    rewrite Hget. cbn. split; [reflexivity|]. split; [reflexivity|].
    assert (Hlt : ~ clock w - cacheTimestamp w < 5 * time.Second)
      by (rewrite <- Sub_lt_ttl; lia).
    unfold time.Second in Hlt. lia.
  - intros code body response e Hup Hjson.
    pose proof (fetchStockInfo_decode_error exChList w code body response e
                  Hup Hjson) as Hfetch.
    destruct (Sprintf_prefix_v e) as [Hmsg _]. rewrite Hmsg in Hfetch.
    destruct (getCachedStockInfo_fetch_error exChList w _ _ _ Hold Hfetch)
      as (Hget & _ & _ & Hanswer & Hdata & Htime).
    auto.
Qed.

End DecodeErrors.

Section MainProperties.
Context `{GoLibrary}.

Lemma listenAddress_eq (config : Config) :
  listenAddress config = Address config +:+ ":" +:+ pretty (Port config).
Proof.
  unfold listenAddress. cbn. now rewrite append_nil_r.
Qed.

Lemma handler_exit_status (exChList : list string) (w : World) (code : Z) :
  fst (handler exChList w) = Exits code -> code = 1.
Proof.
  rewrite handler_eq. unfold bind at 1.
  destruct (Z.lt_ge_cases (time.Sub (clock w) (cacheTimestamp w))
              (5 * time.Second)) as [Hfresh|Hold].
  - rewrite getCachedStockInfo_hit by assumption.
    intros Hex. now destruct (proj2 (respond_world (cacheData w, None) w) code).
  - rewrite getCachedStockInfo_miss by assumption. unfold bind at 1.
    rewrite fetchStockInfo_eq. cbv zeta.
    pose proof (fetchStockInfo_result_exits
                  (result (upstream w (length (sent w))
                             (fetchStockInfo_url exChList)))
                  (answered (fetchStockInfo_url exChList) w)) as Hres.
    destruct (fetchStockInfo_result _ _) as [[r|code'|v] w1]; cbn [fst] in Hres.
    + destruct (getCachedStockInfo_store_returns r w1) as (r' & w2 & ->).
      intros Hex. now destruct (proj2 (respond_world r' w2) code).
    + cbn. intros [= <-]. apply Hres.
    + destruct Hres.
Qed.

Lemma serve_exit_status (exChList : list string) (arrivals : list N)
    (w : World) (code : Z) :
  last (fst (serve exChList arrivals w)) = Some (ProcessExited code) ->
  code = 1.
Proof.
  revert w. induction arrivals as [|d rest IH]; intros w; [discriminate|].
  cbn [serve].
  pose proof (handler_exit_status exChList (idle d w)) as Hexit.
  destruct (handler exChList (idle d w)) as [[written|code'|v] w1].
  - specialize (IH w1). destruct (serve exChList rest w1) as [more w2].
    cbn [fst] in *. rewrite last_cons.
    destruct (last more); [assumption | discriminate].
  - cbn. intros [= <-]. now apply (Hexit code').
  - specialize (IH w1). destruct (serve exChList rest w1) as [more w2].
    cbn [fst] in *. rewrite last_cons.
    destruct (last more); [assumption | discriminate].
Qed.

(** X16: when the configuration file cannot be opened, or its content
    cannot be decoded, [main] logs one line and the process exits with
    status 1: the server is not started, nothing is sent upstream and the
    cache variables are untouched. *)
Theorem main_needs_its_configuration (st : Startup) (w : World) :
  snd (os_Open st (default "config.yaml" (flag_config st))) <> None
  \/ snd (yaml_Decode st
            (fst (os_Open st (default "config.yaml" (flag_config st)))))
     <> None ->
  exists line,
    main st w = (Exited 1, [], with_logged (line :: logged w) w).
Proof.
  unfold main.
  destruct (os_Open st _) as [file [err|]]; cbn [fst snd].
  - intros _. eexists. reflexivity.
  - destruct (yaml_Decode st file) as [config [err|]]; cbn [snd].
    + intros _. eexists. reflexivity.
    + intros [Hopen | Hdecode]; [now destruct Hopen | now destruct Hdecode].
Qed.

(** X17: [main] listens on the address of the configuration, a colon and
    the port in decimal; when [http.ListenAndServe] cannot listen there and
    returns, its error is dropped: [main] returns, so the process ends
    without a log line and not through [log.Fatalf]; nothing was served. *)
Theorem main_returns_silently_when_it_cannot_listen
    (st : Startup) (w : World) (file : string) (config : Config) (e : error) :
  os_Open st (default "config.yaml" (flag_config st)) = (file, None) ->
  yaml_Decode st file = (config, None) ->
  cannot_listen st (Address config +:+ ":" +:+ pretty (Port config)) = Some e ->
  main st w = (MainReturned, [], w).
Proof.
  intros Hopen Hdecode Hlisten. unfold main.
  rewrite Hopen, Hdecode, listenAddress_eq, Hlisten. reflexivity.
Qed.

(** X18: when the configuration loads and the server can listen, the
    requests are served by the handler with the identifier list of the
    configuration, from the world [main] was started in; afterwards the
    process goes on listening, unless a request ended it, and then the
    status is 1. *)
Theorem main_serves_the_configured_list
    (st : Startup) (w : World) (file : string) (config : Config) :
  os_Open st (default "config.yaml" (flag_config st)) = (file, None) ->
  yaml_Decode st file = (config, None) ->
  cannot_listen st (Address config +:+ ":" +:+ pretty (Port config)) = None ->
  let '(process, served, w') := main st w in
  (served, w') = serve (ExChList config) (requests st) w
  /\ (process = Listening
      \/ process = Exited 1
         /\ last served = Some (ProcessExited 1)).
Proof.
  intros Hopen Hdecode Hlisten. unfold main.
  rewrite Hopen, Hdecode, listenAddress_eq, Hlisten.
  pose proof (serve_exit_status (ExChList config) (requests st) w) as Hexit.
  destruct (serve (ExChList config) (requests st) w) as [served w'].
  cbn [fst snd] in *. split; [reflexivity|].
  unfold process_after.
  destruct (last served) as [[written|v|code]|]; auto.
  right. now rewrite (Hexit code eq_refl).
Qed.

End MainProperties.
(** ** The properties at work on the example process *)

Import Demo.

(** The request the configuration of the example leads to. *)
Lemma example_url :
  fetchStockInfo_url config_ExChList
  = "http://mis.twse.com.tw/stock/api/getStockInfo.jsp?ex_ch=tse_2330.tw|otc_6488.tw".
Proof. reflexivity. Qed.

(** An instance: the upstream refuses the
    connection of the first request of a fresh process. *)
Lemma transport_error_ends_process_example :
  let w := started t0 unreachable in
  5 * time.Second <= time.Sub (clock (idle 0 w)) (cacheTimestamp (idle 0 w))
  /\ result (upstream w (length (sent w)) (fetchStockInfo_url config_ExChList))
     = TransportError "dial tcp: connect: connection refused"
  /\ (fst (fetchStockInfo config_ExChList (idle 0 w)) = Exits 1
      /\ fst (handler config_ExChList (idle 0 w)) = Exits 1
      /\ fst (serve config_ExChList [0%N; second] w) = [ProcessExited 1]).
Proof.
  intros w.
  assert (Hold : 5 * time.Second
                 <= time.Sub (clock (idle 0 w)) (cacheTimestamp (idle 0 w)))
    by (vm_compute; discriminate).
  assert (Hup : result (upstream w (length (sent w))
                          (fetchStockInfo_url config_ExChList))
                = TransportError "dial tcp: connect: connection refused")
    by reflexivity.
  split; [exact Hold|]. split; [exact Hup|].
  exact (transport_error_ends_process config_ExChList w 0 [second] _ Hold Hup).
Defined.

(** C2, as the specification states it, fails: when the first of two
    requests made one second apart does not get a snapshot (here the
    upstream answers with a page that is not JSON), the cache stays expired
    and the second request fetches again: two requests are sent upstream,
    not one. *)
Lemma failed_fetch_is_repeated_by_next_request :
  let w := started t0 garbled in
  fst (serve config_ExChList [0%N; second] w)
  = [Answered (http_Error "Failed to fetch stock info" StatusInternalServerError);
     Answered (http_Error "Failed to fetch stock info" StatusInternalServerError)]
  /\ sent (snd (serve config_ExChList [0%N; second] w))
     = [fetchStockInfo_url config_ExChList; fetchStockInfo_url config_ExChList]
  /\ length (sent (snd (serve config_ExChList [0%N; second] w))) <> 1%nat.
Proof. split; [|split]; [reflexivity | reflexivity | discriminate]. Qed.

(** An instance: a fresh process with a
    healthy upstream, and a second request one second after the first. *)
Lemma fresh_cache_served_without_fetch_example :
  let w := started t0 (healthy [tse_2330; otc_6488]) in
  let w' := snd (fetchStockInfo config_ExChList (idle 0 w)) in
  let w1 := idle second (snd (handler config_ExChList w)) in
  (time.Sub (clock w1) (cacheTimestamp w1) < 5 * time.Second
   /\ getCachedStockInfo config_ExChList w1
      = (Returns ([tse_2330; otc_6488], None), w1))
  /\ (5 * time.Second
        <= time.Sub (clock (idle 0 w)) (cacheTimestamp (idle 0 w))
      /\ fetchStockInfo config_ExChList (idle 0 w)
         = (Returns ([tse_2330; otc_6488], None), w')
      /\ (clock w' + Z.of_N second) - clock (idle 0 w) < 5 * time.Second
      /\ sent (snd (serve config_ExChList [0%N; second] w))
         = [fetchStockInfo_url config_ExChList]
      /\ length (fst (serve config_ExChList [0%N; second] w)) = 2%nat).
Proof.
  intros w w' w1.
  assert (Hfresh : time.Sub (clock w1) (cacheTimestamp w1) < 5 * time.Second)
    by reflexivity.
  assert (Hold : 5 * time.Second
                 <= time.Sub (clock (idle 0 w)) (cacheTimestamp (idle 0 w)))
    by (vm_compute; discriminate).
  assert (Hfetch : fetchStockInfo config_ExChList (idle 0 w)
                   = (Returns ([tse_2330; otc_6488], None), w'))
    by reflexivity.
  assert (Hapart : (clock w' + Z.of_N second) - clock (idle 0 w)
                   < 5 * time.Second)
    by reflexivity.
  split.
  - split; [exact Hfresh|].
    exact (proj1 fresh_cache_served_without_fetch config_ExChList w1 Hfresh).
  - split; [exact Hold|]. split; [exact Hfetch|]. split; [exact Hapart|].
    exact (proj2 fresh_cache_served_without_fetch config_ExChList w w' 0%N
             second [tse_2330; otc_6488] Hold Hfetch Hapart).
Defined.

(** An instance: a process whose cache holds a snapshot taken ten seconds
    ago, and a healthy upstream. *)
Lemma successful_fetch_replaces_snapshot_and_timestamp_example :
  let w := with_cacheTimestamp (t0 - 10 * time.Second)
             (with_cacheData [tse_2330] (started t0 (healthy [tse_2330; otc_6488]))) in
  let w' := answered (fetchStockInfo_url config_ExChList) w in
  5 * time.Second <= time.Sub (clock w) (cacheTimestamp w)
  /\ fetchStockInfo config_ExChList w
     = (Returns ([tse_2330; otc_6488], None), w')
  /\ (getCachedStockInfo config_ExChList w
      = (Returns ([tse_2330; otc_6488], None),
         with_cacheTimestamp (clock w')
           (with_cacheData [tse_2330; otc_6488] w'))
      /\ (let w2 := snd (handler config_ExChList w) in
          cacheData w2 = [tse_2330; otc_6488]
          /\ cacheTimestamp w2 = clock w'
          /\ cacheTimestamp w < cacheTimestamp w2
          /\ sent w2 = fetchStockInfo_url config_ExChList :: sent w)).
Proof.
  intros w w'.
  assert (Hold : 5 * time.Second <= time.Sub (clock w) (cacheTimestamp w))
    by (vm_compute; discriminate).
  assert (Hfetch : fetchStockInfo config_ExChList w
                   = (Returns ([tse_2330; otc_6488], None), w'))
    by reflexivity.
  split; [exact Hold|]. split; [exact Hfetch|].
  exact (successful_fetch_replaces_snapshot_and_timestamp config_ExChList w w'
           [tse_2330; otc_6488] Hold Hfetch).
Defined.

Lemma tse_2330_twice : ~ NoDup (map metricName [tse_2330; tse_2330]).
Proof.
  intros Hnodup. apply NoDup_cons in Hnodup as [Hnotin _].
  apply Hnotin. left.
Qed.

Lemma tse_2330_twice_parse :
  Forall (fun info => snd (strconv_ParseFloat (Pz info)) = None)
    [tse_2330; tse_2330].
Proof. repeat constructor. Qed.

(** An instance: the upstream sends
    the same record twice, then a record that has no trade yet. *)
Lemma unparsable_price_after_collision_panics_example :
  let w := started t0 (healthy [tse_2330; tse_2330; tse_2317_no_trade]) in
  let w1 := snd (getCachedStockInfo config_ExChList w) in
  let err := snd (ParseFloat "-") in
  getCachedStockInfo config_ExChList w
  = (Returns ([tse_2330; tse_2330] ++ tse_2317_no_trade :: [], None), w1)
  /\ err = Some ("strconv.ParseFloat: parsing " +:+ dq +:+ "-" +:+ dq
                 +:+ ": invalid syntax")
  /\ fst (handler config_ExChList w)
     = Panics (RegistrationPanic (AlreadyRegistered "tse_2330_gauge"))
  /\ ((exists e, fst (handler config_ExChList w) = Panics (RegistrationPanic e))
      /\ forall written, fst (handler config_ExChList w) <> Returns written).
Proof.
  intros w w1 err.
  assert (Hget : getCachedStockInfo config_ExChList w
                 = (Returns ([tse_2330; tse_2330] ++ tse_2317_no_trade :: [],
                             None), w1))
    by reflexivity.
  split; [exact Hget|]. split; [reflexivity|]. split; [reflexivity|].
  exact (unparsable_price_after_collision_panics config_ExChList w w1
           [tse_2330; tse_2330] [] tse_2317_no_trade _ Hget eq_refl
           tse_2330_twice_parse tse_2330_twice).
Defined.

(** An instance: the upstream sends the same
    record twice. *)
Lemma duplicate_metric_name_panics_example :
  let w := started t0 (healthy [tse_2330; tse_2330]) in
  let w1 := snd (getCachedStockInfo config_ExChList (idle 0 w)) in
  getCachedStockInfo config_ExChList (idle 0 w)
  = (Returns ([tse_2330; tse_2330] ++ [], None), w1)
  /\ fst (serve config_ExChList [0%N] w)
     = [ConnectionAborted (RegistrationPanic (AlreadyRegistered "tse_2330_gauge"))]
  /\ exists e,
       fst (handler config_ExChList (idle 0 w)) = Panics (RegistrationPanic e)
       /\ fst (serve config_ExChList [0%N] w)
          = [ConnectionAborted (RegistrationPanic e)].
Proof.
  intros w w1.
  assert (Hget : getCachedStockInfo config_ExChList (idle 0 w)
                 = (Returns ([tse_2330; tse_2330] ++ [], None), w1))
    by reflexivity.
  split; [exact Hget|]. split; [reflexivity|].
  exact (duplicate_metric_name_panics config_ExChList w w1 0
           [tse_2330; tse_2330] [] Hget tse_2330_twice_parse tse_2330_twice).
Defined.

(** An unparsable price that no collision precedes gets the 500. *)
Lemma unparsable_price_answers_500_example :
  let w := started t0 (healthy [tse_2330; tse_2317_no_trade; otc_6488]) in
  fst (handler config_ExChList w)
  = Returns (http_Error "Failed to parse price" StatusInternalServerError)
  /\ logged (snd (handler config_ExChList w))
     = ["Failed to parse price: strconv.ParseFloat: parsing " +:+ dq +:+ "-"
        +:+ dq +:+ ": invalid syntax"].
Proof. split; reflexivity. Qed.

(** A response of status 503 whose body decodes is served as a success. *)
Lemma overloaded_upstream_is_served_as_success :
  let w := started t0 overloaded in
  fst (handler config_ExChList w)
  = Returns {| status := StatusOK; body := Exposition ∅ |}.
Proof. reflexivity. Qed.

(** C9, as the specification states it, fails: when the fetch of the first
    of two simultaneous requests returns an error, the second request
    fetches in its turn: two requests are sent upstream, not one. *)
Lemma burst_repeats_failed_fetch :
  let w := started t0 garbled in
  5 * time.Second <= time.Sub (clock w) (cacheTimestamp w)
  /\ option_map (fun s => sent (world s))
       (run config_ExChList one_after_the_other (arrivals 2 w))
     = Some [fetchStockInfo_url config_ExChList;
             fetchStockInfo_url config_ExChList]
  /\ option_map (fun s => length (sent (world s)))
       (run config_ExChList one_after_the_other (arrivals 2 w))
     <> Some 1%nat.
Proof.
  split; [vm_compute; discriminate|].
  split; [reflexivity | discriminate].
Qed.

(** The time the upstream takes does not count: the three requests of the
    example send one request to an upstream that takes 8 seconds. *)
Lemma slow_upstream_one_fetch :
  let w := started t0 (slow [tse_2330; otc_6488]) in
  option_map (fun s => sent (world s))
    (run config_ExChList schedule (arrivals 3 w))
  = Some [fetchStockInfo_url config_ExChList].
Proof. reflexivity. Qed.

(** The time spent waiting does: a goroutine that gets the mutex 6 seconds
    after the snapshot was stored finds it expired and fetches again. *)
Lemma goroutine_kept_waiting_fetches_again :
  let w := started t0 (healthy [tse_2330; otc_6488]) in
  option_map (fun s => sent (world s))
    (run config_ExChList second_kept_waiting (arrivals 2 w))
  = Some [fetchStockInfo_url config_ExChList;
          fetchStockInfo_url config_ExChList].
Proof. reflexivity. Qed.

(** An instance: three requests
    arrive at a fresh process with a healthy upstream. *)
Lemma one_fetch_in_flight_one_fetch_per_burst_example :
  let w := started t0 (healthy [tse_2330; otc_6488]) in
  exists s,
    run config_ExChList schedule (arrivals 3 w) = Some s
    /\ 5 * time.Second <= time.Sub (clock w) (cacheTimestamp w)
    /\ (forall i g, goroutines s !! i = Some g -> got_snapshot g = true)
    /\ waiting schedule < 5 * time.Second
    /\ (count in_flight (goroutines s) <= 1)%nat
    /\ (forall i g, goroutines s !! i = Some g -> holds_mutex g = true ->
                   cacheMutex s = true)
    /\ sent (world s) = [fetchStockInfo_url config_ExChList].
Proof.
  intros w.
  destruct (run config_ExChList schedule (arrivals 3 w)) as [s|] eqn:Hrun;
    [|discriminate Hrun].
  exists s.
  assert (Hold : 5 * time.Second <= time.Sub (clock w) (cacheTimestamp w))
    by (vm_compute; discriminate).
  assert (Hall : forall i g, goroutines s !! i = Some g -> got_snapshot g = true).
  { injection Hrun as <-. intros [|[|[|i]]] g Hi; try discriminate Hi;
      injection Hi as <-; reflexivity. }
  assert (Hsoon : waiting schedule < 5 * time.Second) by reflexivity.
  destruct (one_fetch_in_flight_one_fetch_per_burst config_ExChList 3 w
              schedule s Hrun) as (Hone & Hheld & Hsent).
  split; [reflexivity|]. split; [exact Hold|]. split; [exact Hall|].
  split; [exact Hsoon|]. split; [exact Hone|]. split; [exact Hheld|].
  exact (Hsent Hold (Nat.lt_0_succ 2) Hall Hsoon).
Defined.

(** An instance: a process whose cache holds a snapshot of two records
    taken ten seconds ago, and an upstream that answers 503 with an empty
    JSON object.  The snapshot is replaced by no record at all, and the
    request is answered with a 200 and no metric. *)
Lemma fetch_failure_is_returned_only_when_decoding_fails_example :
  let w := with_cacheTimestamp (t0 - 10 * time.Second)
             (with_cacheData [tse_2330; otc_6488] (started t0 overloaded)) in
  5 * time.Second <= time.Sub (clock w) (cacheTimestamp w)
  /\ cacheData w = [tse_2330; otc_6488]
  /\ result (upstream w (length (sent w)) (fetchStockInfo_url config_ExChList))
     = HttpResponse 503 ("{}", None)
  /\ fst (handler config_ExChList w) = Returns (promhttp_ServeHTTP ∅)
  /\ (fst (getCachedStockInfo config_ExChList w) = Returns ([], None)
      /\ cacheData (snd (getCachedStockInfo config_ExChList w)) = []
      /\ cacheTimestamp w
         < cacheTimestamp (snd (getCachedStockInfo config_ExChList w))).
Proof.
  intros w.
  assert (Hold : 5 * time.Second <= time.Sub (clock w) (cacheTimestamp w))
    by (vm_compute; discriminate).
  destruct (fetch_failure_is_returned_only_when_decoding_fails
              config_ExChList w Hold) as (_ & Hdecodes & _).
  split; [exact Hold|]. split; [reflexivity|]. split; [reflexivity|].
  split; [reflexivity|].
  exact (Hdecodes 503 "{}" {| MsgArray := [] |} eq_refl eq_refl).
Defined.

(** The two records of the example under another name, date and change. *)
Lemma renamed_quotes :
  Forall2 same_but_help_fields [tse_2330; otc_6488]
    [with_help_fields "TSMC" "20241021" "09:00:00" tse_2330; otc_6488].
Proof.
  constructor; [|constructor; [|constructor]].
  - exists "TSMC", "20241021", "09:00:00". reflexivity.
  - exists (At otc_6488), (D otc_6488), (Percent otc_6488). reflexivity.
Qed.

(** An instance: a snapshot of two records; and a process whose cache
    holds the same records under another name, date and change. *)
Lemma gauge_help_interpolates_record_fields_example :
  let w := started t0 (healthy [tse_2330; otc_6488]) in
  let w1 := snd (getCachedStockInfo config_ExChList w) in
  let renamed :=
    [with_help_fields "TSMC" "20241021" "09:00:00" tse_2330; otc_6488] in
  let w' := with_cacheTimestamp t0 (with_cacheData renamed (started t0 garbled)) in
  getCachedStockInfo config_ExChList w
  = (Returns ([tse_2330; otc_6488], None), w1)
  /\ getCachedStockInfo config_ExChList w' = (Returns (renamed, None), w')
  /\ (exists registry,
        fst (handler config_ExChList w) = Returns (promhttp_ServeHTTP registry)
        /\ exists g,
             registry !! "tse_2330_gauge" = Some g
             /\ Help (opts g) = "tse_2330.tw於20241018 13:30:00的價格1045.0000")
  /\ (outcome_without_help (fst (handler config_ExChList w'))
      = outcome_without_help (fst (handler config_ExChList w))
      /\ exists lines,
           logged (snd (handler config_ExChList w)) = lines ++ logged w1
           /\ logged (snd (handler config_ExChList w')) = lines ++ logged w').
Proof.
  intros w w1 renamed w'.
  assert (Hget : getCachedStockInfo config_ExChList w
                 = (Returns ([tse_2330; otc_6488], None), w1))
    by reflexivity.
  assert (Hget' : getCachedStockInfo config_ExChList w'
                  = (Returns (renamed, None), w'))
    by reflexivity.
  destruct (gauge_help_interpolates_record_fields config_ExChList w w1 _ Hget)
    as [Hhelp Honly].
  split; [exact Hget|]. split; [exact Hget'|]. split.
  - assert (H200 : exists registry,
               fst (handler config_ExChList w)
               = Returns (promhttp_ServeHTTP registry))
      by (eexists; reflexivity).
    destruct H200 as [registry H200]. exists registry.
    split; [exact H200|].
    destruct (Hhelp registry H200) as [Hall _].
    exact (Hall tse_2330 (or_introl eq_refl)).
  - exact (Honly w' w' renamed Hget' renamed_quotes).
Defined.

(** An instance: a snapshot of two records. *)
Lemma emitted_metric_names_exchange_category_gauge_example :
  let w := started t0 (healthy [tse_2330; otc_6488]) in
  let w1 := snd (getCachedStockInfo config_ExChList w) in
  getCachedStockInfo config_ExChList w
  = (Returns ([tse_2330; otc_6488], None), w1)
  /\ exists registry,
       fst (handler config_ExChList w) = Returns (promhttp_ServeHTTP registry)
       /\ (exists g,
             registry !! "otc_6488_gauge" = Some g
             /\ Name (opts g) = "otc_6488_gauge")
       /\ (forall name g, registry !! name = Some g ->
             Name (opts g) = name
             /\ has_suffix "_gauge" name = true
             /\ exists info,
                  In info [tse_2330; otc_6488]
                  /\ name = Ex info +:+ "_" +:+ C info +:+ "_gauge").
Proof.
  intros w w1.
  assert (Hget : getCachedStockInfo config_ExChList w
                 = (Returns ([tse_2330; otc_6488], None), w1))
    by reflexivity.
  destruct (emitted_metric_names_exchange_category_gauge config_ExChList w w1
              _ Hget) as [Hnames _].
  split; [exact Hget|].
  assert (H200 : exists registry,
             fst (handler config_ExChList w)
             = Returns (promhttp_ServeHTTP registry))
    by (eexists; reflexivity).
  destruct H200 as [registry H200]. exists registry.
  split; [exact H200|].
  destruct (Hnames registry H200) as [Hall Honly].
  split; [|exact Honly].
  exact (Hall otc_6488 (or_intror (or_introl eq_refl))).
Defined.

(** ** The further properties at work on the example process *)

Import MoreDemo.

(** An instance: the two identifiers of the example, one list each. *)
Lemma fetchStockInfo_url_spelled_out_example :
  ["tse_2330.tw"] <> [] /\ ["otc_6488.tw"] <> []
  /\ fetchStockInfo_url (["tse_2330.tw"] ++ ["otc_6488.tw"])
     = "http://mis.twse.com.tw/stock/api/getStockInfo.jsp?ex_ch=tse_2330.tw|otc_6488.tw"
  /\ fetchStockInfo_url (["tse_2330.tw"] ++ ["otc_6488.tw"])
     = fetchStockInfo_url ["tse_2330.tw"] +:+ "|"
         +:+ strings.Join ["otc_6488.tw"] "|".
Proof.
  assert (Hxs : ["tse_2330.tw"] <> @nil string) by discriminate.
  assert (Hys : ["otc_6488.tw"] <> @nil string) by discriminate.
  split; [exact Hxs|]. split; [exact Hys|].
  destruct (fetchStockInfo_url_spelled_out ["tse_2330.tw"] ["otc_6488.tw"]
              Hxs Hys) as (_ & Heach & Hboth).
  split; [exact (Heach "tse_2330.tw" ["otc_6488.tw"]) | exact Hboth].
Defined.

(** An instance: the response of the first request of a fresh process
    breaks off. *)
Lemma read_error_ends_process_example :
  let w := started t0 interrupted in
  5 * time.Second <= time.Sub (clock (idle 0 w)) (cacheTimestamp (idle 0 w))
  /\ result (upstream w (length (sent w)) (fetchStockInfo_url config_ExChList))
     = HttpResponse 200 ("{", Some "unexpected EOF")
  /\ (fst (handler config_ExChList (idle 0 w)) = Exits 1
      /\ logged (snd (handler config_ExChList (idle 0 w)))
         = fmt.Sprintf "Failed to read response body: %v" ["unexpected EOF"]
             :: logged w
      /\ fst (serve config_ExChList [0%N; second] w) = [ProcessExited 1]).
Proof.
  intros w.
  assert (Hold : 5 * time.Second
                 <= time.Sub (clock (idle 0 w)) (cacheTimestamp (idle 0 w)))
    by (vm_compute; discriminate).
  assert (Hup : result (upstream w (length (sent w))
                          (fetchStockInfo_url config_ExChList))
                = HttpResponse 200 ("{", Some "unexpected EOF"))
    by reflexivity.
  split; [exact Hold|]. split; [exact Hup|].
  exact (read_error_ends_process config_ExChList w 0 [second] 200 "{" _
           Hold Hup).
Defined.

Lemma healthy_and_grudging :
  same_but_statuses (started t0 (healthy [tse_2330; otc_6488]))
                    (started t0 (grudging [tse_2330; otc_6488])).
Proof. repeat split. Qed.

(** An instance: the records sent with status 200 and with status 503. *)
Lemma status_code_is_never_looked_at_example :
  let w1 := started t0 (healthy [tse_2330; otc_6488]) in
  let w2 := started t0 (grudging [tse_2330; otc_6488]) in
  same_but_statuses w1 w2
  /\ fst (serve config_ExChList [0%N; 6 * second]%N w1)
     = fst (serve config_ExChList [0%N; 6 * second]%N w2)
  /\ same_but_statuses (snd (serve config_ExChList [0%N; 6 * second]%N w1))
                       (snd (serve config_ExChList [0%N; 6 * second]%N w2)).
Proof.
  intros w1 w2. split; [exact healthy_and_grudging|].
  exact (status_code_is_never_looked_at config_ExChList [0%N; 6 * second]%N
           w1 w2 healthy_and_grudging).
Defined.

(** An instance: the first request of a fresh process with a healthy
    upstream. *)
Lemma returned_snapshot_is_cached_and_fresh_example :
  let w := started t0 (healthy [tse_2330; otc_6488]) in
  let w' := snd (getCachedStockInfo config_ExChList w) in
  getCachedStockInfo config_ExChList w
  = (Returns ([tse_2330; otc_6488], None), w')
  /\ cacheData w' = [tse_2330; otc_6488]
  /\ clock w' - cacheTimestamp w' < 5 * time.Second.
Proof.
  intros w w'.
  assert (Hget : getCachedStockInfo config_ExChList w
                 = (Returns ([tse_2330; otc_6488], None), w'))
    by reflexivity.
  split; [exact Hget|].
  exact (returned_snapshot_is_cached_and_fresh config_ExChList w w' _ Hget).
Defined.

(** An instance: three requests to a fresh process, the last of them after
    the snapshot has expired. *)
Lemma cacheTimestamp_advances_behind_the_clock_example :
  let w := started t0 (healthy [tse_2330; otc_6488]) in
  let w' := snd (serve config_ExChList [0; second; 6 * second]%N w) in
  cacheTimestamp w <= clock w
  /\ cacheTimestamp w <= cacheTimestamp w' <= clock w'.
Proof.
  intros w w'.
  assert (Hpast : cacheTimestamp w <= clock w) by (vm_compute; discriminate).
  split; [exact Hpast|].
  exact (cacheTimestamp_advances_behind_the_clock config_ExChList
           [0; second; 6 * second]%N w Hpast).
Defined.

(** An instance: a request that fetches, and a request two seconds later. *)
Lemma repeated_scrape_same_answer_example :
  let w := started t0 (healthy [tse_2330; tse_2317_no_trade; otc_6488]) in
  let w1 := snd (getCachedStockInfo config_ExChList w) in
  let w2 := idle (2 * second) (snd (handler config_ExChList w)) in
  getCachedStockInfo config_ExChList w
  = (Returns ([tse_2330; tse_2317_no_trade; otc_6488], None), w1)
  /\ time.Sub (clock w2) (cacheTimestamp w2) < 5 * time.Second
  /\ fst (handler config_ExChList w)
     = Returns (http_Error "Failed to parse price" StatusInternalServerError)
  /\ (fst (handler config_ExChList w2) = fst (handler config_ExChList w)
      /\ sent (snd (handler config_ExChList w2)) = sent w1
      /\ cacheData (snd (handler config_ExChList w2))
         = [tse_2330; tse_2317_no_trade; otc_6488]).
Proof.
  intros w w1 w2.
  assert (Hget : getCachedStockInfo config_ExChList w
                 = (Returns ([tse_2330; tse_2317_no_trade; otc_6488], None),
                    w1))
    by reflexivity.
  assert (Hfresh : time.Sub (clock w2) (cacheTimestamp w2) < 5 * time.Second)
    by reflexivity.
  split; [exact Hget|]. split; [exact Hfresh|]. split; [reflexivity|].
  exact (repeated_scrape_same_answer config_ExChList w w1 _ (2 * second)
           Hget Hfresh).
Defined.

Lemma two_quotes_parse : Forall parses [tse_2330; otc_6488].
Proof. repeat constructor. Qed.

Lemma two_quotes_well_named : Forall well_named [tse_2330; otc_6488].
Proof. repeat constructor. Qed.

Lemma two_quotes_distinct : NoDup (map metricName [tse_2330; otc_6488]).
Proof. apply (bool_decide_unpack _). vm_compute. exact I. Qed.

(** An instance: a snapshot of two well-formed records. *)
Lemma well_formed_snapshot_answers_200_example :
  let w := started t0 (healthy [tse_2330; otc_6488]) in
  let w1 := snd (getCachedStockInfo config_ExChList w) in
  getCachedStockInfo config_ExChList w
  = (Returns ([tse_2330; otc_6488], None), w1)
  /\ exists registry,
       handler config_ExChList w = (Returns (promhttp_ServeHTTP registry), w1)
       /\ size registry = 2%nat
       /\ forall info, In info [tse_2330; otc_6488] ->
            registry !! metricName info = Some (gauge_of info).
Proof.
  intros w w1.
  assert (Hget : getCachedStockInfo config_ExChList w
                 = (Returns ([tse_2330; otc_6488], None), w1))
    by reflexivity.
  split; [exact Hget|].
  exact (well_formed_snapshot_answers_200 config_ExChList w w1 _ Hget
           two_quotes_parse two_quotes_well_named two_quotes_distinct).
Defined.

(** An instance: a snapshot whose second record repeats the first. *)
Lemma answer_tells_the_snapshot_example :
  let w := started t0 (healthy [tse_2330; tse_2330]) in
  let w1 := snd (getCachedStockInfo config_ExChList w) in
  getCachedStockInfo config_ExChList w
  = (Returns ([tse_2330; tse_2330], None), w1)
  /\ fst (handler config_ExChList w)
     = Panics (RegistrationPanic (AlreadyRegistered "tse_2330_gauge"))
  /\ match fst (handler config_ExChList w) with
     | Returns written =>
         (status written = StatusOK ->
          Forall parses [tse_2330; tse_2330]
          /\ Forall well_named [tse_2330; tse_2330]
          /\ NoDup (map metricName [tse_2330; tse_2330]))
         /\ (status written = StatusInternalServerError ->
             exists info, In info [tse_2330; tse_2330] /\ ~ parses info)
     | Panics (RegistrationPanic (InvalidDescriptor name)) =>
         exists info,
           In info [tse_2330; tse_2330] /\ metricName info = name
           /\ ~ well_named info
     | Panics (RegistrationPanic (AlreadyRegistered name)) =>
         exists pre info post,
           [tse_2330; tse_2330] = pre ++ info :: post
           /\ metricName info = name /\ In name (map metricName pre)
     | Exits _ => False
     end.
Proof.
  intros w w1.
  assert (Hget : getCachedStockInfo config_ExChList w
                 = (Returns ([tse_2330; tse_2330], None), w1))
    by reflexivity.
  split; [exact Hget|]. split; [reflexivity|].
  exact (answer_tells_the_snapshot config_ExChList w w1 _ Hget).
Defined.

(** An instance: two requests at once, the first of which is waiting for
    the upstream. *)
Lemma burst_waits_only_for_the_upstream_example :
  let w := started t0 (healthy [tse_2330; otc_6488]) in
  exists s,
    run config_ExChList first_is_fetching (arrivals 2 w) = Some s
    /\ exited s = None
    /\ goroutines s = [Fetching 0; Arrived]
    /\ step config_ExChList (Run 1) s = None
    /\ (((forall i g, goroutines s !! i = Some g -> has_returned g = true)
         /\ cacheMutex s = false)
        \/ (exists i g s',
              goroutines s !! i = Some g /\ in_flight g = false
              /\ step config_ExChList (Run i) s = Some s')
        \/ (cacheMutex s = true
            /\ exists i m,
                 goroutines s !! i = Some (Fetching m)
                 /\ (forall j g, j <> i -> goroutines s !! j = Some g ->
                       g = Arrived \/ has_returned g = true)
                 /\ forall j, j <> i -> step config_ExChList (Run j) s = None)).
Proof.
  intros w.
  destruct (run config_ExChList first_is_fetching (arrivals 2 w))
    as [s|] eqn:Hrun; [|discriminate Hrun].
  exists s.
  assert (Hrunning : exited s = None) by (injection Hrun as <-; reflexivity).
  split; [reflexivity|]. split; [exact Hrunning|].
  split; [injection Hrun as <-; reflexivity|].
  split; [injection Hrun as <-; reflexivity|].
  exact (burst_waits_only_for_the_upstream config_ExChList 2 w
           first_is_fetching s Hrun Hrunning).
Defined.

(** An instance: the three requests of the example schedule. *)
Lemma burst_sends_at_most_one_request_each_example :
  let w := started t0 (healthy [tse_2330; otc_6488]) in
  exists s,
    run config_ExChList schedule (arrivals 3 w) = Some s
    /\ exists k,
         (k <= count has_tested (goroutines s) <= 3)%nat
         /\ sent (world s)
            = replicate k (fetchStockInfo_url config_ExChList) ++ sent w.
Proof.
  intros w.
  destruct (run config_ExChList schedule (arrivals 3 w)) as [s|] eqn:Hrun;
    [|discriminate Hrun].
  exists s. split; [reflexivity|].
  exact (burst_sends_at_most_one_request_each config_ExChList 3 w schedule s
           Hrun).
Defined.

(** An instance: the process is started with the name of a file that does
    not exist. *)
Lemma main_needs_its_configuration_example :
  let w := started t0 (healthy [tse_2330; otc_6488]) in
  snd (os_Open startup_without_file
         (default "config.yaml" (flag_config startup_without_file)))
  = Some "open missing.yaml: no such file or directory"
  /\ exists line,
       main startup_without_file w
       = (Exited 1, [], with_logged (line :: logged w) w).
Proof.
  intros w. split; [reflexivity|].
  apply (main_needs_its_configuration startup_without_file w).
  left. discriminate.
Defined.

(** An instance: the port of the configuration is taken. *)
Lemma main_returns_silently_when_it_cannot_listen_example :
  let w := started t0 (healthy [tse_2330; otc_6488]) in
  os_Open startup_port_taken
    (default "config.yaml" (flag_config startup_port_taken))
  = (config_yaml, None)
  /\ yaml_Decode startup_port_taken config_yaml = (config, None)
  /\ cannot_listen startup_port_taken
       (Address config +:+ ":" +:+ pretty (Port config))
     = Some "listen tcp 0.0.0.0:9100: bind: address already in use"
  /\ main startup_port_taken w = (MainReturned, [], w).
Proof.
  intros w.
  assert (Hopen : os_Open startup_port_taken
                    (default "config.yaml" (flag_config startup_port_taken))
                  = (config_yaml, None)) by reflexivity.
  assert (Hdecode : yaml_Decode startup_port_taken config_yaml
                    = (config, None)) by reflexivity.
  assert (Hlisten : cannot_listen startup_port_taken
                      (Address config +:+ ":" +:+ pretty (Port config))
                    = Some "listen tcp 0.0.0.0:9100: bind: address already in use")
    by reflexivity.
  split; [exact Hopen|]. split; [exact Hdecode|]. split; [exact Hlisten|].
  exact (main_returns_silently_when_it_cannot_listen startup_port_taken w
           config_yaml config _ Hopen Hdecode Hlisten).
Defined.

(** An instance: the start-up of the example, with a healthy upstream. *)
Lemma main_serves_the_configured_list_example :
  let w := started t0 (healthy [tse_2330; otc_6488]) in
  os_Open startup (default "config.yaml" (flag_config startup))
  = (config_yaml, None)
  /\ yaml_Decode startup config_yaml = (config, None)
  /\ cannot_listen startup (Address config +:+ ":" +:+ pretty (Port config))
     = None
  /\ sent (snd (main startup w)) = [fetchStockInfo_url config_ExChList]
  /\ let '(process, served, w') := main startup w in
     (served, w') = serve (ExChList config) (requests startup) w
     /\ (process = Listening
         \/ process = Exited 1
            /\ last served = Some (ProcessExited 1)).
Proof.
  intros w.
  assert (Hopen : os_Open startup
                    (default "config.yaml" (flag_config startup))
                  = (config_yaml, None)) by reflexivity.
  assert (Hdecode : yaml_Decode startup config_yaml = (config, None))
    by reflexivity.
  assert (Hlisten : cannot_listen startup
                      (Address config +:+ ":" +:+ pretty (Port config))
                    = None) by reflexivity.
  split; [exact Hopen|]. split; [exact Hdecode|]. split; [exact Hlisten|].
  split; [reflexivity|].
  exact (main_serves_the_configured_list startup w config_yaml config
           Hopen Hdecode Hlisten).
Defined.

(** An instance: the upstream answers with a page that is not JSON. *)
Lemma decode_error_is_answered_500_and_logged_example :
  let w := started t0 garbled in
  let e := "invalid character '<' looking for beginning of value" in
  5 * time.Second <= time.Sub (clock w) (cacheTimestamp w)
  /\ result (upstream w (length (sent w)) (fetchStockInfo_url config_ExChList))
     = HttpResponse 200 ("<html>Service Unavailable</html>", None)
  /\ json_Unmarshal "<html>Service Unavailable</html>"
     = ({| MsgArray := [] |}, Some e)
  /\ handler config_ExChList w
     = (Returns (http_Error "Failed to fetch stock info"
                   StatusInternalServerError),
        with_logged
          (("Error fetching stock info: failed to unmarshal response: " +:+ e)
             :: logged w)
          (answered (fetchStockInfo_url config_ExChList) w)).
Proof.
  intros w e.
  assert (Hold : 5 * time.Second <= time.Sub (clock w) (cacheTimestamp w))
    by (vm_compute; discriminate).
  assert (Hup : result (upstream w (length (sent w))
                          (fetchStockInfo_url config_ExChList))
                = HttpResponse 200 ("<html>Service Unavailable</html>", None))
    by reflexivity.
  assert (Hjson : json_Unmarshal "<html>Service Unavailable</html>"
                  = ({| MsgArray := [] |}, Some e)) by reflexivity.
  split; [exact Hold|]. split; [exact Hup|]. split; [exact Hjson|].
  exact (decode_error_is_answered_500_and_logged config_ExChList w 200 _ _ e
           Hold Hup Hjson).
Defined.

(** An instance: the same upstream, seen from [getCachedStockInfo]. *)
Lemma returned_error_is_a_decode_error_example :
  let w := started t0 garbled in
  let w' := snd (getCachedStockInfo config_ExChList w) in
  let err := "failed to unmarshal response: invalid character '<' looking for beginning of value" in
  getCachedStockInfo config_ExChList w = (Returns ([], Some err), w')
  /\ ([] = @nil StockInfo
      /\ 5 * time.Second <= time.Sub (clock w) (cacheTimestamp w)
      /\ exists code body response e,
           result (upstream w (length (sent w))
                     (fetchStockInfo_url config_ExChList))
           = HttpResponse code (body, None)
           /\ json_Unmarshal body = (response, Some e)
           /\ err = "failed to unmarshal response: " +:+ e).
Proof.
  intros w w' err.
  assert (Hget : getCachedStockInfo config_ExChList w
                 = (Returns ([], Some err), w')) by reflexivity.
  split; [exact Hget|].
  exact (returned_error_is_a_decode_error config_ExChList w w' [] err Hget).
Defined.

(** An instance: a record that has no trade yet, between two that have. *)
Lemma unparsable_price_answers_500_instance :
  let w := started t0 (healthy [tse_2330; tse_2317_no_trade; otc_6488]) in
  let w1 := snd (getCachedStockInfo config_ExChList w) in
  let err := "strconv.ParseFloat: parsing " +:+ dq +:+ "-" +:+ dq
             +:+ ": invalid syntax" in
  getCachedStockInfo config_ExChList w
  = (Returns ([tse_2330] ++ tse_2317_no_trade :: [otc_6488], None), w1)
  /\ snd (strconv_ParseFloat (Pz tse_2317_no_trade)) = Some err
  /\ handler config_ExChList w
     = (Returns (http_Error "Failed to parse price" StatusInternalServerError),
        with_logged
          (fmt.Sprintf "Failed to parse price: %v" [err] :: logged w1) w1).
Proof.
  intros w w1 err.
  assert (Hget : getCachedStockInfo config_ExChList w
                 = (Returns ([tse_2330] ++ tse_2317_no_trade :: [otc_6488],
                             None), w1)) by reflexivity.
  assert (Hbad : snd (strconv_ParseFloat (Pz tse_2317_no_trade)) = Some err)
    by reflexivity.
  assert (Hparse : Forall (fun info => snd (strconv_ParseFloat (Pz info)) = None)
                     [tse_2330]) by (repeat constructor).
  assert (Hvalid : Forall (fun info =>
                             model_IsValidMetricName (metricName info) = true)
                     [tse_2330]) by (repeat constructor).
  assert (Hnodup : NoDup (map metricName [tse_2330]))
    by (apply NoDup_singleton).
  split; [exact Hget|]. split; [exact Hbad|].
  exact (unparsable_price_answers_500 config_ExChList w w1 [tse_2330]
           [otc_6488] tse_2317_no_trade err Hget Hparse Hvalid Hnodup Hbad).
Defined.
